(* ===== verification/_CoqProject ===== *)
-Q . S2P
Prelude.v
Python.v
TruncateSpec.v
Codec.v
Utf8.v
Truncator.v
Payloads.v
Service.v
Process.v
Calls.v
Simulation.v
Defect.v
Scripts.v
Scenarios.v
Traces.v
