(* ===== verification/Prelude.v ===== *)
(** * neomodlon: a verification development

    The repository holds three demonstration scripts around one piece of
    logic.  [src/src/main.py] and [src/src/main_file_based.py] store text
    payloads in a graph database through a unique string index and report
    what the server answers; [src/src/main_fix.py] stores the same payloads
    after cutting them to a byte budget with
    [trim_string_at_unicode_boundaries], the only function of the
    repository.  That function encodes its argument as UTF-8, walks back
    from the byte at the budget while it sees continuation bytes, slices
    the buffer there and decodes the slice.

    ** Files, in dependency order

    - [Prelude] (this file): integers as bytes ([is_byte]), the
      enumeration principle [Z_range_case] with the tactic [Zenum], the
      translation of masks and shifts into [mod] and [/] (rewrite
      database [bits2arith], tactics [bitarith], [Zcompare], [Zdivmod]),
      and the facts on [take], [prefix] and sums of sizes ([total]) that
      the components share.
    - [Python]: the fragment of the Python runtime the truncator uses.
      Exceptions are values of [exn]; a computation is an [outcome]
      ([Ok], [Raise], or [OutOfFuel] for a loop that was cut); [let*]
      is its bind.  [while] is the loop combinator, with the rule
      [while_measure] that gives termination from a decreasing measure.
      A value is a [str] or a [bytearray] ([pyvalue], with its type
      [type_of]).
      [py_len], [py_getitem] and [py_slice_to] are [len(b)], [b[i]] and
      [b[:i]] with Python's negative indices, clipping and [IndexError].
    - [TruncateSpec]: the abstract specification, section [Budget]:
      [take_within size s b] is the longest prefix of [s] whose sizes add
      up to at most [b], and the class [Truncation] is the contract
      (prefix, bound, greatest).  Its laws are proved for any size
      function that is not negative, among them that budgets compose
      ([take_within_compose]) and that a cut comes within the largest
      size of the budget ([take_within_tight]).
    - [Codec]: what the truncator needs of a text codec, as the classes
      [Codec] (per code point encoder, strict decoder) and [SelfSync]
      (a code point's first byte fails the continuation test
      [(b & 0xC0) == 0x80], its other bytes pass it, and decoding undoes
      encoding), with the theory of code point boundaries in an encoded
      buffer proved from these laws alone.
    - [Utf8]: Python's strict UTF-8 codec ([encode_cp], [utf8_decode]:
      one to four bytes, surrogates refused, overlong forms refused) as
      an instance of [Codec], with the proof of [SelfSync] and the two
      round trips: decoding undoes encoding ([utf8_round_trip]) and the
      decoder accepts the bytes of the encoder only
      ([utf8_decode_canonical]).  [wf_value] and [text_payload] say
      when a value is well formed and when it is a text payload of the
      specification; the decoder returns scalar values only.
    - [Truncator]: [trim_string_at_unicode_boundaries] of
      [src/src/main_fix.py], lines 14 to 31, written over a [Codec] and
      instantiated at UTF-8: the loop [trim_loop_cond] / [trim_loop_body],
      the slice, the two return types ([VStr] after a cut, [VBytearray]
      when nothing is cut, as the code returns them).  Theorems: the loop
      ends and never raises [IndexError], after three iterations at most
      on the encoding of a string; for a non negative budget smaller
      than the encoded length the result is [take_within] of the input
      (refinement); the byte bound, from above and, within three bytes,
      from below, maximality, monotonicity with the composition of
      budgets, and zero budget follow; the behaviour on a negative
      budget and on a string that holds a surrogate is stated as it is;
      the result is well typed ([trim_result_type]); the concrete cases
      of the specification are evaluated.
    - [Payloads]: the three text literals of the scripts, as the bytes of
      the source file decoded by [utf8_decode], with the lengths that the
      comments of [src/src/main.py] give for them.
    - [Service]: the entity [SomeEntity]; the persistence service the
      scripts call, as the class [Persistence] ([set_connection], [save]
      as state transformers that may raise); the law of the unique index,
      class [UniqueIndex]; and a reference instance [ref_db] with a
      unique index and a cap on the size of a key, written from the
      specification, with its invariant [ref_wf], kept by every call,
      returning or raising, and so, by induction on the step relation
      [ref_step], along every sequence of calls, together with the
      distinct identifiers, the cap and the nodes stored before.
    - [Process]: a script as a computation [prog] on a [world]
      (environment variables, files, error stream, the log of the calls
      made, the state of the service): sequencing that stops at the first
      exception, [try_except], [os.environ[...]], [sys.stderr.write],
      [sys.exit], reading a text file, and the exit status.  Two
      continuations that agree on the states a statement can leave
      give the same program ([run_bind_ext]).  The
      predicate [keeps R m] says that the relation [R] holds between the
      state before and after [m]; it is proved statement by statement
      (tactic [solve_keeps]) and instantiated at [grows] (the program
      only appends to the error stream and to the calls) and [emits P]
      (every call made satisfies [P]).  The log of calls is ghost state:
      programs are [Proper] for the equivalence [same_but_calls] that
      forgets it (tactic [solve_respects]).
    - [Calls]: a script seen from outside, as a tree [proc] whose nodes
      are its calls ([op]: an environment variable read, a write to the
      error stream, a text file read, [set_connection], [save]), each
      with what the script does next for every answer, a value or an
      exception.  Sequencing and [try: ... except] are functions on
      trees ([proc_bind], [proc_try]).  [interp] runs a tree on a state
      call by call, [trace_of] lists the calls made with their answers
      ([event]), and [lstep] is the same run as a labelled step
      relation: deterministic, never stuck before the end, ending every
      run where [interp] does ([lsteps_trace_of], [lsteps_unique]).
      [within] bounds the calls of a tree, and [interp_frame] reads the
      error stream and the log of calls of [Process] off the trace.
      The relation [denotes] ties a tree to a program, piece by piece
      (tactic [solve_denotes]).
    - [Simulation]: when a script cannot tell two services apart.  The
      class [Refines S Q] asks that the two calls of [Persistence] keep
      a relation [S] between the states of the services and answer the
      same, for the payloads in [Q]; [simulates] lifts it to programs,
      statement by statement (tactic [solve_simulates]), and
      [trace_of_simulates] to the traces of trees.
    - [Defect]: a hazard model [neo_db] of the server the repository was
      written about, from what the comments of the scripts record: the
      reference service with the cap of 4095 bytes, and the keys of the
      index, of which those over 4047 bytes (8 more than the value)
      cannot be read back.  A save fails on such a key; deleting every
      node or restarting does not remove it: [neo_step] is what can
      happen to the server short of erasing its data, and along its
      steps the first unreadable key stays ([unreadable_forever]).
      [neo_refines] shows that on safe payloads the model answers as
      the reference service.
    - [Scripts]: the blocks the three [__main__] bodies share
      ([get_credentials], [connect], [create_node_1], [create_node]) and
      the modules [Main], [MainFix] and [MainFileBased] with the [main]
      of each file.  Theorems, for every instance of [Persistence]:
      missing credentials end each script with status 1 before any call;
      an unreachable service is reported and the first save is attempted
      all the same; [main_fix.py] only submits keys of at most 4000
      bytes; a missing sample file stops [main_file_based.py] before any
      save; [main_file_based.py] runs as [main.py] when its first
      file holds the long literal of [main.py]
      ([file_based_runs_as_main]); the branches of the second save of
      [main.py].  For every
      instance of [UniqueIndex]: [main_fix.py] never ends normally in
      silence, because its two long payloads are equal once trimmed, and
      no script ends normally when the first payload is stored already.
      On [ref_db]: the run of [main_fix.py] from any state with the
      credentials set and the service up and empty, a run of [main.py],
      and the invariant [ref_wf] along each script.  The lemmas [main_keeps],
      [main_fix_keeps] and [main_file_based_keeps] reduce a relation
      kept by a whole script to the calls of the runtime and to the
      payloads of its text; the payloads submitted are text payloads
      ([scripts_submit_text_payloads]).  [Main.scenario_2] is the
      variant of [main.py] that the source keeps commented out.
    - [Scenarios]: the scripts on [neo_db]: from any state with a
      readable index scenario 1 ends in silence and leaves the index
      unreadable for good; [main_fix.py] and scenario 2 keep the index
      readable; an unreadable index fails every save of [main.py] and
      of [main_fix.py], trimmed or not;
      [main_fix.py] simulates its run on the reference service.
    - [Traces]: the three scripts as trees of calls, block by block as
      in [Scripts], each proved to be its program ([denotes]); and the
      protocol of the orchestration as a monitor over events
      ([protocol], [monitor]): credentials, then the connection with
      the URL made of them, then files and saves, a caught failure
      reported by the next call and any other ending the run.  That a
      tree follows the protocol for every answer of its calls is a
      weakest precondition on trees ([follows]), proved block by block
      (tactic [solve_follows]).  Theorems: every run is accepted by the
      monitor, ends within a counted number of calls, and is the run of
      the program; [main_fix.py] makes the same calls with the same
      answers on [neo_db] and on [ref_db], from states that agree.

    ** Fuel

    The only loop is the backward scan of the truncator.  Its index
    decreases by one per iteration and the loop stops at [0], so
    [Z.to_nat byte_limit] iterations are enough; the function passes that
    number to [while].  [trim_loop_terminates] shows that the loop
    returns within that fuel on every buffer longer than the budget, and
    [trim_raises_only_unicode_errors] that [OutOfFuel] is never the
    result of the function.  The scripts have no loop; [OutOfFuel]
    appears in their theorems only as an answer a service could give.
    The trees of [Calls] need no fuel: a tree is finite, [interp] and
    [trace_of] are structural, and [within] counts the calls of the
    longest path (at most 9 for [main.py], 11 for the two others).

    ** Not modelled

    The code of the database server: [Defect] is a model of the
    behaviour the comments describe, with the sizes of the one log line
    they quote, and says nothing of why the server behaves so nor of
    other sizes of keys and pages.  The [neomodel] and [neo4j]
    client libraries (only the interface [Persistence] the scripts use)
    and the identifiers they generate (a node is numbered by its rank),
    the content of [testcase1.txt] and [testcase2.txt] (a parameter of
    the state), the text of tracebacks, and the positions carried by
    Unicode errors (an error is modelled by its class), so the error
    stream of the model holds what the script wrote and not the
    traceback the interpreter adds for an exception that ends the run.
    Nothing more of the three source files is left
    to translate: the class [SomeEntity], which each file declares with
    the same text, is modelled once, and what remains is the module
    docstrings, the imports, blank lines and the prose of the
    comments. *)

From Stdlib Require Import ZArith Lia.
From stdpp Require Import base list numbers.

#[local] Open Scope Z_scope.

(** ** Bytes and code units as integers *)

Definition is_byte (b : Z) : Prop := 0 ≤ b < 256.

#[export] Instance is_byte_dec b : Decision (is_byte b).
Proof. unfold is_byte. apply _. Defined.

(** A property of the integers below [n] holds when it holds of each of
    them: the case analysis is a computation. *)
Lemma Z_range_case (P : Z → Prop) `{!∀ x, Decision (P x)} (n : Z) :
  bool_decide (Forall P (seqZ 0 n)) = true → ∀ x, 0 ≤ x < n → P x.
Proof.
  intros Hall%bool_decide_eq_true x Hx.
  rewrite Forall_seqZ in Hall. apply Hall. lia.
Qed.

Ltac Zenum n := apply (Z_range_case _ n); vm_compute; reflexivity.

(** Close a decidable goal without variables by evaluation. *)
Ltac decide_closed := apply (bool_decide_unpack _); vm_compute; exact I.

(** ** Masks and shifts as arithmetic *)

Lemma land_pow2_low hi lo k :
  0 ≤ k → 0 ≤ lo < 2 ^ k → Z.land (hi * 2 ^ k) lo = 0.
Proof.
  intros Hk Hlo. apply Z.bits_inj'; intros n Hn.
  rewrite Z.land_spec, Z.bits_0.
  destruct (decide (n < k)).
  - by rewrite Z.mul_pow2_bits_low by lia.
  - rewrite <- (Z.mod_small lo (2 ^ k)) by lia.
    rewrite Z.mod_pow2_bits_high by lia. apply andb_false_r.
Qed.

Lemma lor_mul_pow2_add hi lo k :
  0 ≤ k → 0 ≤ lo < 2 ^ k → Z.lor (hi * 2 ^ k) lo = hi * 2 ^ k + lo.
Proof. intros. symmetry. by apply Z.add_nocarry_lor, land_pow2_low. Qed.

Lemma lor_shiftl_add hi lo k :
  0 ≤ k → 0 ≤ lo < 2 ^ k → Z.lor (hi ≪ k) lo = hi * 2 ^ k + lo.
Proof.
  intros. rewrite Z.shiftl_mul_pow2 by done. by apply lor_mul_pow2_add.
Qed.

Lemma land_mask_mod x k : 0 ≤ k → Z.land x (2 ^ k - 1) = x mod 2 ^ k.
Proof.
  intros. rewrite <- Z.land_ones by done. f_equal.
  rewrite Z.ones_equiv. lia.
Qed.

Lemma land_0x3F x : Z.land x 0x3F = x mod 64.
Proof. apply (land_mask_mod x 6). lia. Qed.

Lemma land_0x1F x : Z.land x 0x1F = x mod 32.
Proof. apply (land_mask_mod x 5). lia. Qed.

Lemma land_0x0F x : Z.land x 0x0F = x mod 16.
Proof. apply (land_mask_mod x 4). lia. Qed.

Lemma land_0x07 x : Z.land x 0x07 = x mod 8.
Proof. apply (land_mask_mod x 3). lia. Qed.

Lemma shiftr_6 x : x ≫ 6 = x / 64.
Proof. apply (Z.shiftr_div_pow2 x 6). lia. Qed.

Lemma shiftr_12 x : x ≫ 12 = x / 4096.
Proof. apply (Z.shiftr_div_pow2 x 12). lia. Qed.

Lemma shiftr_18 x : x ≫ 18 = x / 262144.
Proof. apply (Z.shiftr_div_pow2 x 18). lia. Qed.

(** [0x80 | r], [0xC0 | r], [0xE0 | r] and [0xF0 | r] add the marker when
    [r] fits under it. *)
Lemma lor_marker m k r :
  0 ≤ k → 0 ≤ r < 2 ^ k → m mod 2 ^ k = 0 → Z.lor m r = m + r.
Proof.
  intros Hk Hr Hm.
  rewrite (Z.div_mod m (2 ^ k)) at 1 2 by lia.
  rewrite Hm, Z.add_0_r, (Z.mul_comm (2 ^ k)).
  by apply lor_mul_pow2_add.
Qed.

Lemma lor_0x80 r : 0 ≤ r < 64 → Z.lor 0x80 r = 128 + r.
Proof. intros. by apply (lor_marker 128 6). Qed.

Lemma lor_0xC0 r : 0 ≤ r < 32 → Z.lor 0xC0 r = 192 + r.
Proof. intros. by apply (lor_marker 192 5). Qed.

Lemma lor_0xE0 r : 0 ≤ r < 16 → Z.lor 0xE0 r = 224 + r.
Proof. intros. by apply (lor_marker 224 4). Qed.

Lemma lor_0xF0 r : 0 ≤ r < 8 → Z.lor 0xF0 r = 240 + r.
Proof. intros. by apply (lor_marker 240 3). Qed.

Create Rewrite HintDb bits2arith.
#[export] Hint Rewrite land_0x3F land_0x1F land_0x0F land_0x07
  shiftr_6 shiftr_12 shiftr_18 : bits2arith.
#[export] Hint Rewrite lor_0x80 lor_0xC0 lor_0xE0 lor_0xF0
  using (Z.div_mod_to_equations; lia) : bits2arith.
#[export] Hint Rewrite lor_shiftl_add
  using (try Z.div_mod_to_equations; lia) : bits2arith.

(** Turn the bit operations of a goal into divisions and remainders, and
    these into linear constraints. *)
Ltac bitarith :=
  autorewrite with bits2arith in *;
  try (Z.div_mod_to_equations; lia).

(** Settle the comparisons of the goal whose value follows from the
    context, divisions and remainders included. *)
Ltac Zcompare_with tac :=
  repeat match goal with
  | |- context [?a <? ?b] =>
      first [replace (a <? b) with true by tac
            |replace (a <? b) with false by tac]
  | |- context [?a <=? ?b] =>
      first [replace (a <=? b) with true by tac
            |replace (a <=? b) with false by tac]
  | |- context [?a =? ?b] =>
      first [replace (a =? b) with true by tac
            |replace (a =? b) with false by tac]
  | |- context [?a >? ?b] =>
      first [replace (a >? b) with true by tac
            |replace (a >? b) with false by tac]
  end.
(** Linear arithmetic with division and remainder by constants. *)
Ltac Zdivmod := Z.div_mod_to_equations; lia.
Ltac Zcompare := Zcompare_with ltac:(Zdivmod).

(** ** Lists *)

Section Lists.
Context {A : Type}.
Implicit Types l k : list A.

Lemma take_app_exact l k n : n = length l → take n (l ++ k) = l.
Proof. intros ->. apply take_app_length. Qed.

Lemma prefix_app_cases l1 l2 k :
  k `prefix_of` l1 ++ l2 →
  k `prefix_of` l1 ∨ ∃ k', k = l1 ++ k' ∧ k' `prefix_of` l2.
Proof.
  revert k. induction l1 as [|x l1 IH]; intros k Hk; simpl in *.
  - right. by exists k.
  - destruct k as [|y k]; [left; apply prefix_nil|].
    apply prefix_cons_inv_1 in Hk as Hxy; subst y.
    apply prefix_cons_inv_2, IH in Hk as [Hk|(k' & -> & Hk')].
    + left. by apply prefix_cons.
    + right. by exists k'.
Qed.

Lemma list_length_ind (P : list A → Prop) :
  (∀ l, (∀ k, (length k < length l)%nat → P k) → P l) → ∀ l, P l.
Proof.
  intros Hstep l. remember (length l) as n eqn:Hn. revert l Hn.
  induction n as [n IH] using lt_wf_ind. intros l ->.
  apply Hstep. intros k Hk. by apply (IH (length k)).
Qed.

(** The sizes of the elements of a list, added up. *)
Definition total (size : A → Z) (l : list A) : Z :=
  foldr (λ a acc, size a + acc) 0 l.

Section Total.
Context (size : A → Z).

Lemma total_nil : total size [] = 0.
Proof. done. Qed.

Lemma total_cons a l : total size (a :: l) = size a + total size l.
Proof. done. Qed.

Lemma total_app l k : total size (l ++ k) = total size l + total size k.
Proof. induction l as [|a l IH]; simpl; rewrite ?total_cons; lia. Qed.

Lemma total_nonneg l : (∀ a, 0 ≤ size a) → 0 ≤ total size l.
Proof.
  intros Hsize. induction l as [|a l IH]; [done|].
  rewrite total_cons. specialize (Hsize a). lia.
Qed.

Lemma total_ext (size' : A → Z) l :
  Forall (λ a, size a = size' a) l → total size l = total size' l.
Proof.
  induction 1 as [|a l Ha _ IH]; [done|]. by rewrite !total_cons, Ha, IH.
Qed.

Lemma total_prefix_le l k :
  (∀ a, 0 ≤ size a) → l `prefix_of` k → total size l ≤ total size k.
Proof.
  intros Hsize [k' ->]. rewrite total_app.
  pose proof (total_nonneg k' Hsize). lia.
Qed.
End Total.
End Lists.

Arguments total : simpl never.

Create HintDb total discriminated.
Create Rewrite HintDb total.
#[export] Hint Rewrite @total_nil @total_cons @total_app : total.
#[export] Hint Resolve total_nonneg total_prefix_le : total.
