(* ===== verification/Python.v ===== *)
(** * Python: the fragment of the runtime the sources rely on

    Exceptions as values, computations that may raise as [outcome], the
    [while] statement as a combinator with fuel, and the sequence
    operations of [bytearray] and [str] that [src/src/main_fix.py] uses:
    [len(b)], [b[i]] and [b[:i]]. *)

From Stdlib Require Import ZArith Lia.
From stdpp Require Import base list numbers strings relations.
From S2P Require Import Prelude.

#[local] Open Scope Z_scope.

(** ** Values *)

(** A [str] is its sequence of code points, a [bytearray] its sequence of
    bytes; both are kept as integers, as indexing returns them. *)
Abbreviation pystr := (list Z) (only parsing).
Abbreviation bytes := (list Z) (only parsing).

Inductive pyvalue : Type :=
| VStr (s : pystr)
| VBytearray (b : bytes).

#[export] Instance pyvalue_eq_dec : EqDecision pyvalue.
Proof. solve_decision. Defined.

(** The class of a value, as [type(v)] gives it. *)
Inductive pytype : Type := TStr | TBytearray.

#[export] Instance pytype_eq_dec : EqDecision pytype.
Proof. solve_decision. Defined.

Definition type_of (v : pyvalue) : pytype :=
  match v with
  | VStr _ => TStr
  | VBytearray _ => TBytearray
  end.

(** ** Exceptions *)

Inductive exn : Type :=
| KeyError (key : string)
| IndexError
| UnicodeEncodeError
| UnicodeDecodeError
| OSError (filename : string)
| SystemExit (code : Z)
| ServiceUnavailable
| DatabaseError (message : string)
| UniqueProperty (message : string).

#[export] Instance exn_eq_dec : EqDecision exn.
Proof. solve_decision. Defined.

(** [except C]: whether an exception is an instance of the class. *)
Definition is_KeyError (e : exn) : bool :=
  match e with KeyError _ => true | _ => false end.

Definition is_ServiceUnavailable (e : exn) : bool :=
  match e with ServiceUnavailable => true | _ => false end.

Definition is_DatabaseError (e : exn) : bool :=
  match e with DatabaseError _ => true | _ => false end.

(** ** Computations *)

Inductive outcome (A : Type) : Type :=
| Ok (a : A)
| Raise (e : exn)
| OutOfFuel.
Arguments Ok {A} a.
Arguments Raise {A} e.
Arguments OutOfFuel {A}.

#[export] Instance outcome_eq_dec `{EqDecision A} : EqDecision (outcome A).
Proof. solve_decision. Defined.

Definition bind {A B} (m : outcome A) (k : A → outcome B) : outcome B :=
  match m with
  | Ok a => k a
  | Raise e => Raise e
  | OutOfFuel => OutOfFuel
  end.

Declare Scope py_scope.
Delimit Scope py_scope with py.
Notation "'let*' x ':=' m 'in' k" := (bind m (fun x => k))
  (at level 10, x name, m at level 100, k at level 200) : py_scope.
#[global] Open Scope py_scope.

Definition is_Ok {A} (m : outcome A) : Prop := ∃ a, m = Ok a.

(** [m] returns, or raises an exception in [P]; it is not cut short. *)
Definition raises_only {A} (P : exn → Prop) (m : outcome A) : Prop :=
  match m with
  | Ok _ => True
  | Raise e => P e
  | OutOfFuel => False
  end.

(** ** The [while] statement

    [while fuel cond body s] runs [while cond(s): s = body(s)] for at
    most [fuel] iterations; the test is evaluated once more after the
    last one, so [fuel] counts the executions of the body. *)
Fixpoint while {S : Type} (fuel : nat) (cond : S → outcome bool)
    (body : S → outcome S) (s : S) : outcome S :=
  let* c := cond s in
  if c : bool then
    match fuel with
    | O => OutOfFuel
    | S fuel' => let* s' := body s in while fuel' cond body s'
    end
  else Ok s.

(** One iteration, as a relation on states. *)
Inductive iteration {S : Type} (cond : S → outcome bool)
    (body : S → outcome S) : S → S → Prop :=
| iteration_intro s s' :
    cond s = Ok true → body s = Ok s' → iteration cond body s s'.

(** ** Sequences *)

Definition py_len {A} (l : list A) : Z := Z.of_nat (length l).

(** [l[i]]: a negative index counts from the end; outside the sequence
    the access raises [IndexError]. *)
Definition py_getitem {A} (l : list A) (i : Z) : outcome A :=
  let j := if i <? 0 then i + py_len l else i in
  if (0 <=? j) && (j <? py_len l) then
    match l !! Z.to_nat j with
    | Some x => Ok x
    | None => Raise IndexError
    end
  else Raise IndexError.

(** [l[:i]]: a negative bound counts from the end, and the bound is
    clipped to the sequence; a slice never raises. *)
Definition py_slice_to {A} (l : list A) (i : Z) : list A :=
  let j := if i <? 0 then Z.max (i + py_len l) 0 else Z.min i (py_len l) in
  take (Z.to_nat j) l.

(** [a != b] on integers. *)
Definition py_ne (a b : Z) : bool := negb (a =? b).

(** ** Laws of [outcome] *)

Section Outcome.
Context {A B C : Type}.
Implicit Types (m : outcome A) (k : A → outcome B).

Lemma bind_Ok_l a k : bind (Ok a) k = k a.
Proof. done. Qed.

Lemma bind_Ok_r m : bind m Ok = m.
Proof. by destruct m. Qed.

Lemma bind_assoc m k (h : B → outcome C) :
  bind (bind m k) h = bind m (λ a, bind (k a) h).
Proof. by destruct m. Qed.

Lemma bind_Ok_inv m k b :
  bind m k = Ok b ↔ ∃ a, m = Ok a ∧ k a = Ok b.
Proof. destruct m; simpl; [|split; [done|by intros (? & ? & ?)]..]; naive_solver. Qed.

Lemma bind_Raise_inv m k e :
  bind m k = Raise e ↔ m = Raise e ∨ ∃ a, m = Ok a ∧ k a = Raise e.
Proof. destruct m; simpl; naive_solver. Qed.

Lemma bind_OutOfFuel_inv m k :
  bind m k = OutOfFuel ↔ m = OutOfFuel ∨ ∃ a, m = Ok a ∧ k a = OutOfFuel.
Proof. destruct m; simpl; naive_solver. Qed.

Lemma raises_only_bind (P : exn → Prop) m k :
  raises_only P m → (∀ a, m = Ok a → raises_only P (k a)) →
  raises_only P (bind m k).
Proof. destruct m; simpl; auto. Qed.

Lemma raises_only_mono (P Q : exn → Prop) m :
  (∀ e, P e → Q e) → raises_only P m → raises_only Q m.
Proof. destruct m; simpl; auto. Qed.

Lemma raises_only_Raise (P : exn → Prop) m e :
  raises_only P m → m = Raise e → P e.
Proof. by intros Hm ->. Qed.

Lemma raises_only_not_OutOfFuel (P : exn → Prop) m :
  raises_only P m → m ≠ OutOfFuel.
Proof. by intros Hm ->. Qed.

Lemma is_Ok_raises_only (P : exn → Prop) m : is_Ok m → raises_only P m.
Proof. by intros [a ->]. Qed.

End Outcome.

Create HintDb py discriminated.
Create Rewrite HintDb py.
#[export] Hint Rewrite @bind_Ok_l @bind_Ok_r : py.
#[export] Hint Unfold is_Ok : py.

(** Split a hypothesis [let* x := m in k = Ok b] into its two steps. *)
Ltac outcome_inv :=
  repeat match goal with
  | H : bind _ _ = Ok _ |- _ =>
      apply bind_Ok_inv in H as (? & ? & H)
  | H : Ok _ = Ok _ |- _ => injection H as H
  | H : Raise _ = Ok _ |- _ => discriminate H
  | H : OutOfFuel = Ok _ |- _ => discriminate H
  | H : Ok _ = Raise _ |- _ => discriminate H
  | H : Ok _ = OutOfFuel |- _ => discriminate H
  end.

(** ** Laws of [while] *)

Section While.
Context {S : Type} (cond : S → outcome bool) (body : S → outcome S).

Lemma while_unfold fuel s :
  while fuel cond body s =
  let* c := cond s in
  if c : bool then
    match fuel with
    | O => OutOfFuel
    | Datatypes.S fuel' => let* s' := body s in while fuel' cond body s'
    end
  else Ok s.
Proof. by destruct fuel. Qed.

Lemma while_exit fuel s : cond s = Ok false → while fuel cond body s = Ok s.
Proof. intros H. rewrite while_unfold, H. done. Qed.

Lemma while_iterate fuel s s' :
  cond s = Ok true → body s = Ok s' →
  while (Datatypes.S fuel) cond body s = while fuel cond body s'.
Proof. intros Hc Hb. simpl. rewrite Hc. simpl. by rewrite Hb. Qed.

(** What a loop returns was reached by iterations, and fails the test. *)
Lemma while_Ok_reach fuel s s' :
  while fuel cond body s = Ok s' →
  rtc (iteration cond body) s s' ∧ cond s' = Ok false.
Proof.
  revert s. induction fuel as [|fuel IH]; intros s; rewrite while_unfold;
    destruct (cond s) as [[|]| |] eqn:Hc; simpl; try done;
    try (intros [= <-]; by split).
  destruct (body s) as [s1| |] eqn:Hb; simpl; try done.
  intros [Hreach Hexit]%IH. split; [|done].
  eapply rtc_l; [by constructor|done].
Qed.

(** More fuel does not change a result. *)
Lemma while_fuel_mono fuel fuel' s s' :
  (fuel ≤ fuel')%nat →
  while fuel cond body s = Ok s' → while fuel' cond body s = Ok s'.
Proof.
  revert fuel' s. induction fuel as [|fuel IH]; intros fuel' s Hle;
    rewrite !while_unfold;
    destruct (cond s) as [[|]| |]; simpl; try done.
  destruct fuel' as [|fuel']; [lia|].
  destruct (body s) as [s1| |]; simpl; try done.
  apply IH. lia.
Qed.

(** Total correctness: under an invariant that makes the test and the
    body succeed and a measure that the body decreases, the loop ends
    within [measure s] iterations, in a state of the invariant that
    fails the test. *)
Lemma while_measure (Inv : S → Prop) (measure : S → nat) :
  (∀ s, Inv s → ∃ c, cond s = Ok c ∧
     (c = true → ∃ s', body s = Ok s' ∧ Inv s' ∧
                       (measure s' < measure s)%nat)) →
  ∀ fuel s, Inv s → (measure s ≤ fuel)%nat →
  ∃ s', while fuel cond body s = Ok s' ∧ Inv s' ∧ cond s' = Ok false.
Proof.
  intros Hstep fuel. induction fuel as [|fuel IH]; intros s Hs Hfuel;
    rewrite while_unfold;
    destruct (Hstep s Hs) as ([|] & Hc & Hnext); rewrite Hc; simpl; eauto;
    destruct (Hnext eq_refl) as (s1 & Hb & Hs1 & Hlt); [lia|].
  rewrite Hb. simpl. apply IH; [done|lia].
Qed.
End While.

(** ** Laws of the sequence operations *)

Section Sequences.
Context {A : Type}.
Implicit Types (l k : list A) (i : Z).

Lemma py_len_nonneg l : 0 ≤ py_len l.
Proof. unfold py_len. lia. Qed.

Lemma py_len_app l k : py_len (l ++ k) = py_len l + py_len k.
Proof. unfold py_len. rewrite length_app. lia. Qed.

Lemma py_len_nil : py_len (@nil A) = 0.
Proof. done. Qed.

Lemma py_len_cons x l : py_len (x :: l) = 1 + py_len l.
Proof. unfold py_len. simpl. lia. Qed.

Lemma py_getitem_in_range l i :
  0 ≤ i < py_len l → ∃ x, py_getitem l i = Ok x ∧ l !! Z.to_nat i = Some x.
Proof.
  intros Hi. unfold py_getitem.
  replace (i <? 0) with false by lia.
  replace ((0 <=? i) && (i <? py_len l)) with true by lia.
  destruct (lookup_lt_is_Some_2 l (Z.to_nat i)) as [x Hx];
    [unfold py_len in Hi; lia|].
  rewrite Hx. eauto.
Qed.

Lemma py_getitem_lookup l i x :
  0 ≤ i → l !! Z.to_nat i = Some x → py_getitem l i = Ok x.
Proof.
  intros Hi Hx. apply lookup_lt_Some in Hx as Hlt.
  destruct (py_getitem_in_range l i) as (y & -> & Hy);
    [unfold py_len; lia|congruence].
Qed.

Lemma py_getitem_out_of_range l i :
  i < - py_len l ∨ py_len l ≤ i → py_getitem l i = Raise IndexError.
Proof.
  intros Hi. unfold py_getitem. pose proof (py_len_nonneg l).
  destruct (i <? 0) eqn:?;
    replace ((0 <=? _) && (_ <? py_len l)) with false by lia; done.
Qed.

Lemma py_getitem_negative l i :
  - py_len l ≤ i < 0 → py_getitem l i = py_getitem l (i + py_len l).
Proof.
  intros Hi. unfold py_getitem.
  replace (i <? 0) with true by lia.
  by replace (i + py_len l <? 0) with false by lia.
Qed.

Lemma py_slice_to_take l i :
  0 ≤ i → py_slice_to l i = take (Z.to_nat i) l.
Proof.
  intros Hi. unfold py_slice_to. replace (i <? 0) with false by lia.
  destruct (decide (i ≤ py_len l)).
  - by rewrite Z.min_l.
  - unfold py_len in *. rewrite Z.min_r, Nat2Z.id by lia.
    rewrite !take_ge; [done|lia..].
Qed.

Lemma py_slice_to_negative l i :
  i < 0 → py_slice_to l i = take (length l - Z.to_nat (- i)) l.
Proof.
  intros Hi. unfold py_slice_to, py_len. replace (i <? 0) with true by lia.
  f_equal. lia.
Qed.

Lemma py_slice_to_prefix l i : py_slice_to l i `prefix_of` l.
Proof. apply prefix_take. Qed.

Lemma py_slice_to_len l i :
  0 ≤ i ≤ py_len l → py_len (py_slice_to l i) = i.
Proof.
  intros Hi. rewrite py_slice_to_take by lia. unfold py_len in *.
  rewrite length_take. lia.
Qed.

Lemma py_slice_to_all l i : py_len l ≤ i → py_slice_to l i = l.
Proof.
  intros Hi. pose proof (py_len_nonneg l).
  rewrite py_slice_to_take by lia. apply take_ge. unfold py_len in Hi. lia.
Qed.
End Sequences.

#[export] Hint Rewrite @py_len_app @py_len_nil @py_len_cons : py.
#[export] Hint Resolve py_len_nonneg py_slice_to_prefix : py.
