(* ===== verification/TruncateSpec.v ===== *)
(** * TruncateSpec: what truncation to a budget means

    The specification of the truncator, independent of bytes and codecs:
    over elements that each have a size, [take_within size s b] is the
    longest prefix of [s] whose sizes add up to at most [b].  The class
    [Truncation] states this contract (a prefix, within the budget,
    greatest among such prefixes); every function that meets it is
    [take_within], and the properties a caller relies on are proved from
    the contract. *)

From Stdlib Require Import ZArith Lia.
From stdpp Require Import base list numbers.
From S2P Require Import Prelude.

#[local] Open Scope Z_scope.

Section Budget.
Context {A : Type} (size : A → Z).
Implicit Types (s p q : list A) (b : Z).

(** Keep elements while the next one still fits. *)
Fixpoint take_within (s : list A) (b : Z) : list A :=
  match s with
  | [] => []
  | a :: r => if size a <=? b then a :: take_within r (b - size a) else []
  end.

(** [p] is the longest prefix of [s] within the budget [b]. *)
Definition longest_prefix_within s b p : Prop :=
  p `prefix_of` s ∧ total size p ≤ b ∧
  ∀ q, q `prefix_of` s → total size q ≤ b → q `prefix_of` p.

(** The contract of a truncation function, for budgets that are not
    negative. *)
Class Truncation (trunc : list A → Z → list A) : Prop := {
  trunc_prefix s b : 0 ≤ b → trunc s b `prefix_of` s;
  trunc_bound s b : 0 ≤ b → total size (trunc s b) ≤ b;
  trunc_greatest s b q :
    0 ≤ b → q `prefix_of` s → total size q ≤ b → q `prefix_of` trunc s b;
}.

(** ** The reference function *)

Lemma take_within_prefix s b : take_within s b `prefix_of` s.
Proof.
  revert b. induction s as [|a r IH]; intros b; simpl; [done|].
  case_match; [by apply prefix_cons|apply prefix_nil].
Qed.

Lemma take_within_bound s b : 0 ≤ b → total size (take_within s b) ≤ b.
Proof.
  revert b. induction s as [|a r IH]; intros b Hb; simpl; [done|].
  destruct (Z.leb_spec (size a) b); [|done].
  rewrite total_cons. specialize (IH (b - size a)). lia.
Qed.

(** The next element, when there is one, does not fit. *)
Lemma take_within_maximal s b a r :
  take_within s b ++ a :: r = s → b < total size (take_within s b) + size a.
Proof.
  revert b. induction s as [|x s IH]; intros b; simpl.
  - done.
  - destruct (Z.leb_spec (size x) b); simpl.
    + intros [= Heq]. rewrite total_cons. apply IH in Heq. lia.
    + intros [= -> _]. rewrite total_nil. lia.
Qed.

Lemma take_within_mono s b1 b2 :
  b1 ≤ b2 → take_within s b1 `prefix_of` take_within s b2.
Proof.
  revert b1 b2. induction s as [|a r IH]; intros b1 b2 Hb; simpl; [done|].
  destruct (Z.leb_spec (size a) b1); [|apply prefix_nil].
  replace (size a <=? b2) with true by lia.
  apply prefix_cons, IH. lia.
Qed.

Section Nonneg.
Context (size_nonneg : ∀ a, 0 ≤ size a).

Lemma take_within_greatest s b q :
  q `prefix_of` s → total size q ≤ b → q `prefix_of` take_within s b.
Proof using size_nonneg.
  revert q b. induction s as [|a r IH]; intros [|x q] b Hq Hb; simpl;
    try apply prefix_nil.
  - by apply prefix_nil_inv in Hq.
  - apply prefix_cons_inv_1 in Hq as Hx; subst x.
    apply prefix_cons_inv_2 in Hq. rewrite total_cons in Hb.
    pose proof (total_nonneg size q size_nonneg).
    replace (size a <=? b) with true by lia.
    apply prefix_cons, IH; [done|lia].
Qed.

#[export] Instance take_within_truncation : Truncation take_within.
Proof using size_nonneg.
  split; eauto using take_within_prefix, take_within_bound,
    take_within_greatest.
Qed.

Lemma take_within_spec s b :
  0 ≤ b → longest_prefix_within s b (take_within s b).
Proof using size_nonneg.
  intros Hb. repeat split;
    eauto using take_within_prefix, take_within_bound,
      take_within_greatest.
Qed.

Lemma longest_prefix_within_unique s b p q :
  longest_prefix_within s b p → longest_prefix_within s b q → p = q.
Proof.
  intros (Hp1 & Hp2 & Hp3) (Hq1 & Hq2 & Hq3).
  apply (anti_symm prefix); auto.
Qed.

(** A function that meets the contract is the reference function. *)
Lemma truncation_unique trunc `{!Truncation trunc} s b :
  0 ≤ b → trunc s b = take_within s b.
Proof using size_nonneg.
  intros Hb. apply (longest_prefix_within_unique s b);
    [|by apply take_within_spec].
  repeat split; eauto using trunc_prefix, trunc_bound, trunc_greatest.
Qed.

Lemma take_within_all s b : total size s ≤ b → take_within s b = s.
Proof using size_nonneg.
  intros Hb. apply (anti_symm prefix); [apply take_within_prefix|].
  by apply take_within_greatest.
Qed.

Lemma take_within_negative s b : b < 0 → take_within s b = [].
Proof using size_nonneg.
  intros Hb. destruct s as [|a r]; simpl; [done|].
  specialize (size_nonneg a). by replace (size a <=? b) with false by lia.
Qed.

(** Text beyond the budget does not change the result. *)
Lemma take_within_stable s1 s2 b :
  s1 `prefix_of` s2 → b < total size s1 →
  take_within s1 b = take_within s2 b.
Proof using size_nonneg.
  revert s2 b. induction s1 as [|a r IH]; intros s2 b Hpre Hb.
  - rewrite total_nil in Hb. by rewrite !take_within_negative.
  - destruct s2 as [|x s2]; [by apply prefix_nil_inv in Hpre|].
    apply prefix_cons_inv_1 in Hpre as Hx; subst x.
    apply prefix_cons_inv_2 in Hpre. rewrite total_cons in Hb. simpl.
    case_match; [|done]. f_equal. apply IH; [done|lia].
Qed.

(** Budgets compose: cutting to a budget and then to a smaller one is
    cutting to the smaller one. *)
Lemma take_within_compose s b1 b2 :
  b1 ≤ b2 → take_within (take_within s b2) b1 = take_within s b1.
Proof using size_nonneg.
  intros Hb.
  destruct (decide (0 ≤ b1)); [|by rewrite !take_within_negative by lia].
  apply (anti_symm prefix); apply take_within_greatest;
    auto using take_within_bound, take_within_mono.
  etrans; apply take_within_prefix.
Qed.

Lemma take_within_idemp s b :
  take_within (take_within s b) b = take_within s b.
Proof using size_nonneg. by apply take_within_compose. Qed.

Lemma take_within_app s1 s2 b :
  take_within (s1 ++ s2) b =
  if total size s1 <=? b then s1 ++ take_within s2 (b - total size s1)
  else take_within s1 b.
Proof using size_nonneg.
  revert b. induction s1 as [|a r IH]; intros b; simpl.
  - rewrite total_nil, Z.sub_0_r.
    destruct (Z.leb_spec 0 b); [done|]. by rewrite take_within_negative.
  - rewrite total_cons, IH.
    pose proof (total_nonneg size r size_nonneg).
    destruct (Z.leb_spec (size a) b).
    + destruct (Z.leb_spec (total size r) (b - size a));
        [replace (_ <=? b) with true by lia
        |replace (_ <=? b) with false by lia]; [|done].
      by rewrite Z.sub_add_distr.
    + by replace (_ <=? b) with false by lia.
Qed.
End Nonneg.

(** When something is cut, what is kept comes within the largest size
    of an element of the budget. *)
Lemma take_within_tight s b m :
  (∀ a, size a ≤ m) → 0 ≤ b < total size s →
  b - m < total size (take_within s b).
Proof.
  intros Hm. revert b. induction s as [|a r IH]; intros b Hb; simpl.
  - rewrite total_nil in Hb. lia.
  - rewrite total_cons in Hb. specialize (Hm a).
    destruct (Z.leb_spec (size a) b); [|rewrite total_nil; lia].
    rewrite total_cons. specialize (IH (b - size a)). lia.
Qed.

Lemma take_within_zero s : Forall (λ a, 0 < size a) s → take_within s 0 = [].
Proof.
  intros [|a r Ha _]; simpl; [done|].
  by replace (size a <=? 0) with false by lia.
Qed.
End Budget.

Lemma take_within_ext {A} (size size' : A → Z) s b :
  Forall (λ a, size a = size' a) s →
  take_within size s b = take_within size' s b.
Proof.
  intros Hs. revert b. induction Hs as [|a r Ha _ IH]; intros b; simpl;
    [done|]. by rewrite Ha, IH.
Qed.

Arguments longest_prefix_within {A} size s b p.
Arguments Truncation {A} size trunc.

Create HintDb budget discriminated.
#[export] Hint Resolve take_within_prefix take_within_bound
  take_within_mono take_within_greatest : budget.
