(* ===== verification/Codec.v ===== *)
(** * Codec: what the truncator asks of a text codec

    [bytearray(s, name)] encodes a string code point by code point and
    [b.decode(name)] decodes strictly.  The class [Codec] holds the two
    operations; the class [SelfSync] holds the laws the truncator relies
    on: the bytes of a code point are one byte that fails the test
    [(b & 0xC0) == 0x80] followed by bytes that pass it, and decoding an
    encoded string gives the string back.  The second half of the file
    derives, from the laws alone, where the code points of a string lie in
    its encoding. *)

From Stdlib Require Import ZArith Lia.
From stdpp Require Import base list numbers.
From S2P Require Import Prelude Python TruncateSpec.

#[local] Open Scope Z_scope.

(** The continuation test of the truncator's loop. *)
Definition is_continuation (b : Z) : bool := Z.land b 0xC0 =? 0x80.

(** One byte that starts a code point, then continuation bytes. *)
Definition lead_then_continuation (bs : bytes) : Prop :=
  ∃ b t, bs = b :: t ∧ is_continuation b = false ∧
         Forall (λ x, is_continuation x = true) t.

Lemma lead_then_continuation_len bs :
  lead_then_continuation bs → 0 < Z.of_nat (length bs).
Proof. intros (b & t & -> & _). simpl. lia. Qed.

Class Codec : Type := {
  (** the bytes of one code point; [None] when it cannot be encoded *)
  codec_encode_cp : Z → option bytes;
  (** strict decoding: [UnicodeDecodeError] on a malformed buffer *)
  codec_decode : bytes → outcome pystr;
}.

Section Encode.
Context `{C : Codec}.

(** [bytearray(s, name)]: [UnicodeEncodeError] at the first code point
    that has no encoding. *)
Fixpoint str_encode (s : pystr) : outcome bytes :=
  match s with
  | [] => Ok []
  | c :: r =>
      match codec_encode_cp c with
      | None => Raise UnicodeEncodeError
      | Some bs => let* rest := str_encode r in Ok (bs ++ rest)
      end
  end.

(** The number of bytes a code point takes. *)
Definition enc_len (c : Z) : Z :=
  match codec_encode_cp c with
  | Some bs => py_len bs
  | None => 0
  end.

Definition encodable (c : Z) : Prop := is_Some (codec_encode_cp c).

(** The length of [s] once encoded. *)
Definition encoded_len (s : pystr) : Z := total enc_len s.
End Encode.

Class SelfSync (C : Codec) : Prop := {
  sync_shape c bs :
    codec_encode_cp c = Some bs → lead_then_continuation bs;
  sync_bytes c bs :
    codec_encode_cp c = Some bs → Forall is_byte bs;
  sync_decode_encode s bs :
    str_encode s = Ok bs → codec_decode bs = Ok s;
}.

(** ** Encoding, by parts *)

Section EncodeFacts.
Context `{C : Codec}.
Implicit Types (s p : pystr) (b : bytes) (c : Z).

Lemma enc_len_nonneg c : 0 ≤ enc_len c.
Proof. unfold enc_len. case_match; [apply py_len_nonneg|done]. Qed.

Lemma enc_len_Some c bs : codec_encode_cp c = Some bs → enc_len c = py_len bs.
Proof. unfold enc_len. by intros ->. Qed.

Lemma encoded_len_nonneg s : 0 ≤ encoded_len s.
Proof. apply total_nonneg, enc_len_nonneg. Qed.

Lemma str_encode_cons c r :
  str_encode (c :: r) =
  match codec_encode_cp c with
  | None => Raise UnicodeEncodeError
  | Some bs => let* rest := str_encode r in Ok (bs ++ rest)
  end.
Proof. done. Qed.

Lemma str_encode_cons_Ok c r b :
  str_encode (c :: r) = Ok b ↔
  ∃ bc br, codec_encode_cp c = Some bc ∧ str_encode r = Ok br ∧
           b = bc ++ br.
Proof.
  rewrite str_encode_cons. destruct (codec_encode_cp c) as [bc|].
  - rewrite bind_Ok_inv. naive_solver.
  - naive_solver.
Qed.

Lemma str_encode_app_Ok s1 s2 b :
  str_encode (s1 ++ s2) = Ok b ↔
  ∃ b1 b2, str_encode s1 = Ok b1 ∧ str_encode s2 = Ok b2 ∧ b = b1 ++ b2.
Proof.
  revert b. induction s1 as [|c r IH]; intros b.
  - simpl. naive_solver.
  - rewrite <- app_comm_cons, !str_encode_cons_Ok. split.
    + intros (bc & br & Hc & (b1 & b2 & ? & ? & ->)%IH & ->).
      exists (bc ++ b1), b2. rewrite str_encode_cons_Ok, app_assoc.
      naive_solver.
    + intros (b1 & b2 & (bc & br & Hc & Hr & ->)%str_encode_cons_Ok
                & H2 & ->).
      exists bc, (br ++ b2). rewrite IH, app_assoc. naive_solver.
Qed.

Lemma str_encode_len s b : str_encode s = Ok b → py_len b = encoded_len s.
Proof.
  unfold encoded_len. revert b. induction s as [|c r IH]; intros b.
  - by intros [= <-].
  - intros (bc & br & Hc & Hr & ->)%str_encode_cons_Ok.
    rewrite py_len_app, total_cons, (enc_len_Some c bc), (IH br); done.
Qed.

Lemma str_encode_is_Ok s : is_Ok (str_encode s) ↔ Forall encodable s.
Proof.
  unfold is_Ok, encodable. induction s as [|c r IH].
  - split; [constructor|by eexists].
  - split.
    + intros [b (bc & br & Hc & Hr & ->)%str_encode_cons_Ok].
      constructor; [by eexists|]. apply IH. by eexists.
    + intros [[bc Hc] Hr]%Forall_cons_1. apply IH in Hr as [br Hr].
      exists (bc ++ br).
      apply str_encode_cons_Ok. eauto.
Qed.

Lemma str_encode_raises_only s :
  raises_only (λ e, e = UnicodeEncodeError) (str_encode s).
Proof.
  induction s as [|c r IH]; [done|]. rewrite str_encode_cons.
  case_match; [|done]. by apply raises_only_bind.
Qed.

(** The encoding of a prefix is the matching prefix of the encoding. *)
Lemma str_encode_prefix s p b :
  str_encode s = Ok b → p `prefix_of` s →
  str_encode p = Ok (take (Z.to_nat (encoded_len p)) b).
Proof.
  intros Hs [r ->].
  apply str_encode_app_Ok in Hs as (bp & br & Hp & Hr & ->).
  rewrite Hp. f_equal. symmetry. apply take_app_exact.
  apply str_encode_len in Hp. unfold py_len in Hp. lia.
Qed.

(** The bytes of the code point that follows the prefix [s1]. *)
Lemma str_encode_middle s1 c s2 b :
  str_encode (s1 ++ c :: s2) = Ok b ↔
  ∃ b1 bc b2, str_encode s1 = Ok b1 ∧ codec_encode_cp c = Some bc ∧
              str_encode s2 = Ok b2 ∧ b = b1 ++ bc ++ b2.
Proof.
  rewrite str_encode_app_Ok. setoid_rewrite str_encode_cons_Ok.
  naive_solver.
Qed.
End EncodeFacts.

(** ** Consequences of the laws *)

Section SelfSyncFacts.
Context {C : Codec} `{!SelfSync C}.
Implicit Types (s p : pystr) (b : bytes) (c : Z).

Lemma enc_len_pos c : encodable c → 0 < enc_len c.
Proof.
  intros [bs Hc]. rewrite (enc_len_Some c bs Hc).
  destruct (sync_shape c bs Hc) as (x & t & -> & _).
  rewrite py_len_cons. pose proof (py_len_nonneg t). lia.
Qed.

Lemma decode_nil : codec_decode [] = Ok [].
Proof. by apply sync_decode_encode. Qed.

Lemma str_encode_bytes s b : str_encode s = Ok b → Forall is_byte b.
Proof.
  revert b. induction s as [|c r IH]; intros b.
  - intros [= <-]. constructor.
  - intros (bc & br & Hc & Hr & ->)%str_encode_cons_Ok.
    apply Forall_app; eauto using sync_bytes.
Qed.

(** Inside the bytes of a code point: the first byte fails the
    continuation test, the others pass it. *)
Lemma getitem_within_code_point b1 bc b2 k :
  lead_then_continuation bc → 0 ≤ k < py_len bc →
  ∃ x, py_getitem (b1 ++ bc ++ b2) (py_len b1 + k) = Ok x ∧
       is_continuation x = (0 <? k).
Proof.
  intros (x & t & -> & Hx & Ht) Hk. pose proof (py_len_nonneg b1).
  destruct (decide (k = 0)) as [->|Hk0].
  - exists x. split; [|done]. apply py_getitem_lookup; [lia|].
    rewrite Z.add_0_r. unfold py_len. rewrite Nat2Z.id.
    by rewrite lookup_app_r, Nat.sub_diag by lia.
  - rewrite py_len_cons in Hk. unfold py_len in *.
    destruct (lookup_lt_is_Some_2 t (Z.to_nat (k - 1))) as [y Hy]; [lia|].
    exists y. split.
    + apply py_getitem_lookup; [lia|].
      rewrite lookup_app_r by lia.
      replace (Z.to_nat (Z.of_nat (length b1) + k) - length b1)%nat
        with (S (Z.to_nat (k - 1))) by lia.
      simpl. by rewrite lookup_app_l by lia.
    + rewrite Forall_lookup in Ht. rewrite (Ht _ _ Hy). lia.
Qed.

(** A budget below the encoded length falls inside one code point: the
    text splits there, and the part before is [take_within]. *)
Lemma budget_split s limit :
  0 ≤ limit < encoded_len s →
  ∃ c r, s = take_within enc_len s limit ++ c :: r ∧
         encoded_len (take_within enc_len s limit) ≤ limit
           < encoded_len (take_within enc_len s limit) + enc_len c.
Proof.
  intros Hlimit. unfold encoded_len in *.
  destruct (take_within_prefix enc_len s limit) as [[|c r] Hr].
  - rewrite app_nil_r in Hr.
    pose proof (take_within_bound enc_len s limit) as Hbound.
    rewrite <- Hr in Hbound. lia.
  - exists c, r. split; [done|]. split.
    + apply take_within_bound. lia.
    + by eapply take_within_maximal.
Qed.
End SelfSyncFacts.

#[export] Hint Resolve enc_len_nonneg encoded_len_nonneg : py.
