(* ===== verification/Utf8.v ===== *)
(** * Utf8: Python's strict UTF-8 codec

    The codec behind [bytearray(s, "utf-8")] and [b.decode("utf-8")]: a
    code point takes one to four bytes, surrogates have no encoding, and
    the decoder refuses stray or missing continuation bytes, overlong
    forms, surrogates and values above [0x10FFFF].  The file proves that
    the codec meets the laws of [Codec.SelfSync], and that encoder and
    decoder are inverse of each other on well-formed input. *)

From Stdlib Require Import ZArith Lia.
From stdpp Require Import base list numbers.
From S2P Require Import Prelude Python TruncateSpec Codec.

#[local] Open Scope Z_scope.

(** ** Code points *)

Definition is_surrogate (c : Z) : bool := (0xD800 <=? c) && (c <=? 0xDFFF).

(** The values a [str] can be encoded from: Unicode scalar values. *)
Definition is_scalar (c : Z) : Prop :=
  0 ≤ c ≤ 0x10FFFF ∧ is_surrogate c = false.

#[export] Instance is_scalar_dec c : Decision (is_scalar c).
Proof. unfold is_scalar. apply _. Defined.

(** ** Encoder *)

(** A continuation byte: [10xxxxxx] with the low six bits of [x]. *)
Definition continuation_byte (x : Z) : Z := Z.lor 0x80 (Z.land x 0x3F).

Definition encode_cp (c : Z) : option bytes :=
  if c <? 0 then None
  else if c <? 0x80 then Some [c]
  else if c <? 0x800 then
    Some [Z.lor 0xC0 (c ≫ 6); continuation_byte c]
  else if c <? 0x10000 then
    if is_surrogate c then None
    else Some [Z.lor 0xE0 (c ≫ 12); continuation_byte (c ≫ 6);
               continuation_byte c]
  else if c <? 0x110000 then
    Some [Z.lor 0xF0 (c ≫ 18); continuation_byte (c ≫ 12);
          continuation_byte (c ≫ 6); continuation_byte c]
  else None.

(** ** Decoder *)

(** Append the six payload bits of a continuation byte. *)
Definition push_continuation (acc b : Z) : Z := Z.lor (acc ≪ 6) (Z.land b 0x3F).

Definition decode2 (b0 b1 : Z) : outcome Z :=
  if is_continuation b1 then
    let c := push_continuation (Z.land b0 0x1F) b1 in
    if c <? 0x80 then Raise UnicodeDecodeError else Ok c
  else Raise UnicodeDecodeError.

Definition decode3 (b0 b1 b2 : Z) : outcome Z :=
  if is_continuation b1 && is_continuation b2 then
    let c := push_continuation (push_continuation (Z.land b0 0x0F) b1) b2 in
    if (c <? 0x800) || is_surrogate c then Raise UnicodeDecodeError else Ok c
  else Raise UnicodeDecodeError.

Definition decode4 (b0 b1 b2 b3 : Z) : outcome Z :=
  if is_continuation b1 && is_continuation b2 && is_continuation b3 then
    let c := push_continuation
               (push_continuation (push_continuation (Z.land b0 0x07) b1) b2)
               b3 in
    if (c <? 0x10000) || (0x10FFFF <? c) then Raise UnicodeDecodeError
    else Ok c
  else Raise UnicodeDecodeError.

Fixpoint utf8_decode (bs : bytes) : outcome pystr :=
  match bs with
  | [] => Ok []
  | b0 :: r0 =>
      if b0 <? 0 then Raise UnicodeDecodeError
      else if b0 <? 0x80 then
        let* s := utf8_decode r0 in Ok (b0 :: s)
      else if b0 <? 0xC0 then Raise UnicodeDecodeError
      else if b0 <? 0xE0 then
        match r0 with
        | b1 :: r1 =>
            let* c := decode2 b0 b1 in
            let* s := utf8_decode r1 in Ok (c :: s)
        | _ => Raise UnicodeDecodeError
        end
      else if b0 <? 0xF0 then
        match r0 with
        | b1 :: b2 :: r2 =>
            let* c := decode3 b0 b1 b2 in
            let* s := utf8_decode r2 in Ok (c :: s)
        | _ => Raise UnicodeDecodeError
        end
      else if b0 <? 0xF8 then
        match r0 with
        | b1 :: b2 :: b3 :: r3 =>
            let* c := decode4 b0 b1 b2 b3 in
            let* s := utf8_decode r3 in Ok (c :: s)
        | _ => Raise UnicodeDecodeError
        end
      else Raise UnicodeDecodeError
  end.

(** ** The codec *)

#[export] Instance utf8 : Codec := {|
  codec_encode_cp := encode_cp;
  codec_decode := utf8_decode;
|}.

(** [bytearray(s, "utf-8")] *)
Definition utf8_encode (s : pystr) : outcome bytes := str_encode (C := utf8) s.

(** [len(s.encode("utf-8"))], without building the bytes. *)
Definition utf8_len (c : Z) : Z :=
  if c <? 0x80 then 1 else if c <? 0x800 then 2
  else if c <? 0x10000 then 3 else 4.

(** ** Well-formed values *)

(** A [str] of Unicode scalar values, a [bytearray] of bytes. *)
Definition wf_value (v : pyvalue) : Prop :=
  match v with
  | VStr s => Forall is_scalar s
  | VBytearray b => Forall is_byte b
  end.

#[export] Instance wf_value_dec v : Decision (wf_value v).
Proof. destruct v; apply _. Defined.

(** A text payload: a string of Unicode scalar values. *)
Definition text_payload (v : pyvalue) : Prop := type_of v = TStr ∧ wf_value v.

#[export] Instance text_payload_dec v : Decision (text_payload v).
Proof. unfold text_payload. apply _. Defined.

(** ** Bytes of the encoder, as arithmetic *)

Lemma is_continuation_range b :
  is_byte b → is_continuation b = (128 <=? b) && (b <? 192).
Proof. unfold is_byte, is_continuation. revert b. Zenum 256. Qed.

Lemma continuation_byte_arith x : continuation_byte x = 128 + x mod 64.
Proof. unfold continuation_byte. by bitarith. Qed.

Lemma push_continuation_arith acc b :
  push_continuation acc b = acc * 64 + b mod 64.
Proof. unfold push_continuation. by bitarith. Qed.

Lemma is_continuation_continuation_byte x :
  is_continuation (continuation_byte x) = true.
Proof.
  rewrite continuation_byte_arith, is_continuation_range;
    [by Zcompare|unfold is_byte; Zdivmod].
Qed.

Section EncodeCases.
Context (c : Z).

Lemma encode_cp_1 : 0 ≤ c < 0x80 → encode_cp c = Some [c].
Proof. intros. unfold encode_cp. by Zcompare. Qed.

Lemma encode_cp_2 :
  0x80 ≤ c < 0x800 → encode_cp c = Some [192 + c / 64; 128 + c mod 64].
Proof.
  intros. unfold encode_cp. Zcompare.
  rewrite continuation_byte_arith. by bitarith.
Qed.

Lemma encode_cp_3 :
  0x800 ≤ c < 0x10000 → is_surrogate c = false →
  encode_cp c =
    Some [224 + c / 4096; 128 + (c / 64) mod 64; 128 + c mod 64].
Proof.
  intros ? Hsur. unfold encode_cp. Zcompare. rewrite Hsur.
  rewrite !continuation_byte_arith. by bitarith.
Qed.

Lemma encode_cp_4 :
  0x10000 ≤ c < 0x110000 →
  encode_cp c =
    Some [240 + c / 262144; 128 + (c / 4096) mod 64;
          128 + (c / 64) mod 64; 128 + c mod 64].
Proof.
  intros. unfold encode_cp. Zcompare.
  rewrite !continuation_byte_arith. by bitarith.
Qed.

Lemma encode_cp_None : ¬ is_scalar c → encode_cp c = None.
Proof.
  unfold is_scalar, encode_cp. intros Hc.
  destruct (is_surrogate c) eqn:Hsur.
  - assert (0xD800 ≤ c ≤ 0xDFFF) by (unfold is_surrogate in Hsur; lia).
    by Zcompare.
  - assert (c < 0 ∨ 0x10FFFF < c) as [?|?] by lia; by Zcompare.
Qed.
End EncodeCases.

(** The four shapes of an encoded code point. *)
Lemma encode_cp_cases c :
  is_scalar c →
  (0 ≤ c < 0x80 ∧ encode_cp c = Some [c]) ∨
  (0x80 ≤ c < 0x800 ∧ encode_cp c = Some [192 + c / 64; 128 + c mod 64]) ∨
  (0x800 ≤ c < 0x10000 ∧ is_surrogate c = false ∧
   encode_cp c =
     Some [224 + c / 4096; 128 + (c / 64) mod 64; 128 + c mod 64]) ∨
  (0x10000 ≤ c < 0x110000 ∧
   encode_cp c =
     Some [240 + c / 262144; 128 + (c / 4096) mod 64;
           128 + (c / 64) mod 64; 128 + c mod 64]).
Proof.
  intros [Hc Hsur].
  destruct (decide (c < 0x80)); [left; split; [lia|apply encode_cp_1; lia]|].
  destruct (decide (c < 0x800));
    [right; left; split; [lia|apply encode_cp_2; lia]|].
  destruct (decide (c < 0x10000));
    [right; right; left; split; [lia|split; [done|apply encode_cp_3; [lia|done]]]|].
  right; right; right. split; [lia|apply encode_cp_4; lia].
Qed.

Lemma encode_cp_is_Some c : is_Some (encode_cp c) ↔ is_scalar c.
Proof.
  split.
  - intros [bs Hbs]. destruct (decide (is_scalar c)) as [|Hn]; [done|].
    by rewrite (encode_cp_None c Hn) in Hbs.
  - intros Hc. destruct (encode_cp_cases c Hc)
      as [[_ ->]|[[_ ->]|[(_ & _ & ->)|[_ ->]]]]; by eexists.
Qed.

(** ** Decoding one encoded code point *)

Section DecodeCases.
Context (c : Z).

Lemma decode2_encode :
  0x80 ≤ c < 0x800 → decode2 (192 + c / 64) (128 + c mod 64) = Ok c.
Proof.
  intros. unfold decode2.
  rewrite is_continuation_range by (unfold is_byte; Zdivmod).
  rewrite push_continuation_arith, land_0x1F.
  replace (_ * 64 + _) with c by Zdivmod. by Zcompare.
Qed.

Lemma decode3_encode :
  0x800 ≤ c < 0x10000 → is_surrogate c = false →
  decode3 (224 + c / 4096) (128 + (c / 64) mod 64) (128 + c mod 64) = Ok c.
Proof.
  intros ? Hsur. unfold decode3.
  rewrite !is_continuation_range by (unfold is_byte; Zdivmod).
  rewrite !push_continuation_arith, land_0x0F.
  replace (_ * 64 + _) with c by Zdivmod. rewrite Hsur. by Zcompare.
Qed.

Lemma decode4_encode :
  0x10000 ≤ c < 0x110000 →
  decode4 (240 + c / 262144) (128 + (c / 4096) mod 64)
          (128 + (c / 64) mod 64) (128 + c mod 64) = Ok c.
Proof.
  intros. unfold decode4.
  rewrite !is_continuation_range by (unfold is_byte; Zdivmod).
  rewrite !push_continuation_arith, land_0x07.
  replace (_ * 64 + _) with c by Zdivmod. by Zcompare.
Qed.
End DecodeCases.

Lemma utf8_decode_encode_cp c bc rest :
  encode_cp c = Some bc →
  utf8_decode (bc ++ rest) = let* s := utf8_decode rest in Ok (c :: s).
Proof.
  intros Hbc. assert (is_scalar c) as Hc by (apply encode_cp_is_Some; eauto).
  destruct (encode_cp_cases c Hc)
    as [[? Heq]|[[? Heq]|[(? & ? & Heq)|[? Heq]]]];
    rewrite Heq in Hbc; injection Hbc as <-; simpl; Zcompare;
    rewrite ?decode2_encode, ?decode3_encode, ?decode4_encode by done;
    done.
Qed.

(** ** The laws *)

Lemma encode_cp_shape c bs :
  encode_cp c = Some bs → lead_then_continuation bs.
Proof.
  intros Hbs. assert (is_scalar c) as Hc by (apply encode_cp_is_Some; eauto).
  destruct (encode_cp_cases c Hc)
    as [[? Heq]|[[? Heq]|[(? & ? & Heq)|[? Heq]]]];
    rewrite Heq in Hbs; injection Hbs as <-;
    eexists _, _; (split; [done|]);
    rewrite ?Forall_cons_iff, ?Forall_nil,
      !is_continuation_range by (unfold is_byte; Zdivmod);
    repeat split; Zcompare; done.
Qed.

Lemma encode_cp_bytes c bs : encode_cp c = Some bs → Forall is_byte bs.
Proof.
  intros Hbs. assert (is_scalar c) as Hc by (apply encode_cp_is_Some; eauto).
  destruct (encode_cp_cases c Hc)
    as [[? Heq]|[[? Heq]|[(? & ? & Heq)|[? Heq]]]];
    rewrite Heq in Hbs; injection Hbs as <-;
    repeat constructor; Zdivmod.
Qed.

Lemma utf8_decode_encode s bs : utf8_encode s = Ok bs → utf8_decode bs = Ok s.
Proof.
  unfold utf8_encode. revert bs. induction s as [|c r IH]; intros bs.
  - by intros [= <-].
  - intros (bc & br & Hc & Hr & ->)%str_encode_cons_Ok.
    rewrite (utf8_decode_encode_cp c bc br Hc), (IH br Hr). done.
Qed.

#[export] Instance utf8_self_sync : SelfSync utf8.
Proof.
  split; [apply encode_cp_shape|apply encode_cp_bytes|apply utf8_decode_encode].
Qed.

(** ** Lengths *)

Lemma enc_len_utf8 c : is_scalar c → enc_len (C := utf8) c = utf8_len c.
Proof.
  intros Hc. unfold enc_len, utf8_len. simpl.
  destruct (encode_cp_cases c Hc)
    as [[? ->]|[[? ->]|[(? & ? & ->)|[? ->]]]]; by Zcompare.
Qed.

Lemma utf8_len_range c : 1 ≤ utf8_len c ≤ 4.
Proof. unfold utf8_len. repeat case_match; lia. Qed.

Lemma utf8_encodable c : encodable (C := utf8) c ↔ is_scalar c.
Proof. apply encode_cp_is_Some. Qed.

Lemma utf8_encode_is_Ok s : is_Ok (utf8_encode s) ↔ Forall is_scalar s.
Proof.
  unfold utf8_encode. rewrite str_encode_is_Ok.
  apply Forall_iff, utf8_encodable.
Qed.

Lemma utf8_encode_surrogate s :
  ¬ Forall is_scalar s → utf8_encode s = Raise UnicodeEncodeError.
Proof.
  unfold utf8_encode. induction s as [|c r IH]; intros Hs.
  - destruct Hs. constructor.
  - rewrite str_encode_cons. simpl.
    destruct (decide (is_scalar c)) as [Hc|Hc].
    + pose proof Hc as [bc Hbc]%encode_cp_is_Some.
      rewrite Hbc, IH; [done|]. intros Hr. apply Hs. by constructor.
    + by rewrite encode_cp_None.
Qed.

(** [len(s.encode("utf-8"))] *)
Definition utf8_length (s : pystr) : Z := total utf8_len s.

Lemma encoded_len_utf8 s :
  Forall is_scalar s → encoded_len (C := utf8) s = utf8_length s.
Proof.
  intros Hs. apply total_ext. eapply Forall_impl; [|exact Hs].
  apply enc_len_utf8.
Qed.

Lemma take_within_utf8 s b :
  Forall is_scalar s →
  take_within (enc_len (C := utf8)) s b = take_within utf8_len s b.
Proof.
  intros Hs. apply take_within_ext. eapply Forall_impl; [|exact Hs].
  apply enc_len_utf8.
Qed.

Lemma utf8_len_pos c : 0 < utf8_len c.
Proof. pose proof (utf8_len_range c). lia. Qed.

Lemma utf8_length_nonneg s : 0 ≤ utf8_length s.
Proof. apply total_nonneg. intros c. pose proof (utf8_len_range c). lia. Qed.

Lemma utf8_encode_Ok_scalar s bs : utf8_encode s = Ok bs → Forall is_scalar s.
Proof. intros Hs. apply utf8_encode_is_Ok. by exists bs. Qed.

Lemma utf8_encode_length s bs :
  utf8_encode s = Ok bs → py_len bs = utf8_length s.
Proof.
  intros Hs. rewrite <- encoded_len_utf8 by eauto using utf8_encode_Ok_scalar.
  by apply str_encode_len.
Qed.

(** ** What the decoder can raise *)

Lemma decode2_raises_only b0 b1 :
  raises_only (λ e, e = UnicodeDecodeError) (decode2 b0 b1).
Proof. unfold decode2. by repeat case_match. Qed.

Lemma decode3_raises_only b0 b1 b2 :
  raises_only (λ e, e = UnicodeDecodeError) (decode3 b0 b1 b2).
Proof. unfold decode3. by repeat case_match. Qed.

Lemma decode4_raises_only b0 b1 b2 b3 :
  raises_only (λ e, e = UnicodeDecodeError) (decode4 b0 b1 b2 b3).
Proof. unfold decode4. by repeat case_match. Qed.

Lemma utf8_decode_raises_only bs :
  raises_only (λ e, e = UnicodeDecodeError) (utf8_decode bs).
Proof.
  induction bs as [bs IH] using list_length_ind.
  destruct bs as [|b0 r0]; [done|]. simpl.
  repeat case_match; try done; subst;
    repeat (apply raises_only_bind; intros);
    auto using decode2_raises_only, decode3_raises_only,
      decode4_raises_only;
    try done; apply IH; simpl; lia.
Qed.

(** ** The decoder accepts the bytes of the encoder only *)

Lemma is_continuation_true b :
  is_byte b → is_continuation b = true → 128 ≤ b < 192.
Proof. intros Hb. rewrite is_continuation_range by done. lia. Qed.

Lemma decode2_inv b0 b1 c :
  is_byte b1 → 0xC0 ≤ b0 < 0xE0 → decode2 b0 b1 = Ok c →
  encode_cp c = Some [b0; b1].
Proof.
  intros H1 H0. unfold decode2.
  destruct (is_continuation b1) eqn:Hc1; [|done].
  apply is_continuation_true in Hc1; [|done].
  rewrite push_continuation_arith, land_0x1F.
  destruct (Z.ltb_spec (b0 mod 32 * 64 + b1 mod 64) 0x80); [done|].
  intros [= <-]. rewrite encode_cp_2 by Zdivmod. do 3 f_equal; Zdivmod.
Qed.

Lemma decode3_inv b0 b1 b2 c :
  is_byte b1 → is_byte b2 → 0xE0 ≤ b0 < 0xF0 → decode3 b0 b1 b2 = Ok c →
  encode_cp c = Some [b0; b1; b2].
Proof.
  intros H1 H2 H0. unfold decode3.
  destruct (is_continuation b1) eqn:Hc1; [|done].
  destruct (is_continuation b2) eqn:Hc2; [|done].
  apply is_continuation_true in Hc1, Hc2; [|done..].
  rewrite !push_continuation_arith, land_0x0F. simpl.
  match goal with |- context [?x <? 0x800] => set (c' := x) end.
  destruct (Z.ltb_spec c' 0x800); [done|].
  destruct (is_surrogate c') eqn:Hsur; [done|].
  intros [= <-]. subst c'. rewrite encode_cp_3 by (done || Zdivmod).
  do 2 f_equal; [|f_equal; [|f_equal]]; Zdivmod.
Qed.

Lemma decode4_inv b0 b1 b2 b3 c :
  is_byte b1 → is_byte b2 → is_byte b3 → 0xF0 ≤ b0 < 0xF8 →
  decode4 b0 b1 b2 b3 = Ok c → encode_cp c = Some [b0; b1; b2; b3].
Proof.
  intros H1 H2 H3 H0. unfold decode4.
  destruct (is_continuation b1) eqn:Hc1; [|done].
  destruct (is_continuation b2) eqn:Hc2; [|done].
  destruct (is_continuation b3) eqn:Hc3; [|done].
  apply is_continuation_true in Hc1, Hc2, Hc3; [|done..].
  rewrite !push_continuation_arith, land_0x07. simpl.
  match goal with |- context [?x <? 0x10000] => set (c' := x) end.
  destruct (Z.ltb_spec c' 0x10000); [done|].
  destruct (Z.ltb_spec 0x10FFFF c'); [done|].
  intros [= <-]. subst c'. rewrite encode_cp_4 by Zdivmod.
  do 2 f_equal; [|f_equal; [|f_equal; [|f_equal]]]; Zdivmod.
Qed.

Lemma utf8_encode_cons c s bc br :
  encode_cp c = Some bc → utf8_encode s = Ok br →
  utf8_encode (c :: s) = Ok (bc ++ br).
Proof. intros Hc Hs. apply str_encode_cons_Ok. by exists bc, br. Qed.

Lemma utf8_encode_decode bs s :
  Forall is_byte bs → utf8_decode bs = Ok s → utf8_encode s = Ok bs.
Proof.
  revert s. induction bs as [bs IH] using list_length_ind. intros s Hbs.
  destruct bs as [|b0 r0]; [by intros [= <-]|]. simpl.
  destruct (Z.ltb_spec b0 0); [done|]. destruct (Z.ltb_spec b0 0x80).
  { intros (s' & Hs' & [= <-])%bind_Ok_inv. inversion_clear Hbs.
    apply (utf8_encode_cons b0 s' [b0] r0); [apply encode_cp_1; lia|].
    apply IH; [simpl; lia|done..]. }
  destruct (Z.ltb_spec b0 0xC0); [done|]. destruct (Z.ltb_spec b0 0xE0).
  { destruct r0 as [|b1 r1]; [done|].
    intros (c & Hc & (s' & Hs' & [= <-])%bind_Ok_inv)%bind_Ok_inv.
    do 2 (apply Forall_cons_1 in Hbs as [? Hbs]).
    apply (utf8_encode_cons c s' [b0; b1] r1); [by apply decode2_inv|].
    apply IH; [simpl; lia|done..]. }
  destruct (Z.ltb_spec b0 0xF0).
  { destruct r0 as [|b1 [|b2 r2]]; [done..|].
    intros (c & Hc & (s' & Hs' & [= <-])%bind_Ok_inv)%bind_Ok_inv.
    do 3 (apply Forall_cons_1 in Hbs as [? Hbs]).
    apply (utf8_encode_cons c s' [b0; b1; b2] r2); [by apply decode3_inv|].
    apply IH; [simpl; lia|done..]. }
  destruct (Z.ltb_spec b0 0xF8); [|done].
  destruct r0 as [|b1 [|b2 [|b3 r3]]]; [done..|].
  intros (c & Hc & (s' & Hs' & [= <-])%bind_Ok_inv)%bind_Ok_inv.
  do 4 (apply Forall_cons_1 in Hbs as [? Hbs]).
  apply (utf8_encode_cons c s' [b0; b1; b2; b3] r3); [by apply decode4_inv|].
  apply IH; [simpl; lia|done..].
Qed.

(** ** What the decoder returns *)

Lemma is_surrogate_false c : c < 0xD800 ∨ 0xDFFF < c → is_surrogate c = false.
Proof. unfold is_surrogate. intros [?|?]; by Zcompare. Qed.

Lemma decode2_scalar b0 b1 c : decode2 b0 b1 = Ok c → is_scalar c.
Proof.
  unfold decode2. destruct (is_continuation b1); [|done].
  rewrite push_continuation_arith, land_0x1F.
  destruct (Z.ltb_spec (b0 mod 32 * 64 + b1 mod 64) 0x80); [done|].
  intros [= <-]. split; [Zdivmod|]. apply is_surrogate_false. left. Zdivmod.
Qed.

Lemma decode3_scalar b0 b1 b2 c : decode3 b0 b1 b2 = Ok c → is_scalar c.
Proof.
  unfold decode3. destruct (_ && _); [|done].
  rewrite !push_continuation_arith, land_0x0F. simpl.
  match goal with |- context [?x <? 0x800] => set (c' := x) end.
  destruct (Z.ltb_spec c' 0x800); [done|].
  destruct (is_surrogate c') eqn:Hsur; [done|].
  intros [= <-]. split; [subst c'; Zdivmod|done].
Qed.

Lemma decode4_scalar b0 b1 b2 b3 c : decode4 b0 b1 b2 b3 = Ok c → is_scalar c.
Proof.
  unfold decode4. destruct (_ && _); [|done].
  match goal with |- context [?x <? 0x10000] => set (c' := x) end.
  destruct (Z.ltb_spec c' 0x10000); [done|].
  destruct (Z.ltb_spec 0x10FFFF c'); [done|].
  intros [= <-]. split; [lia|]. apply is_surrogate_false. lia.
Qed.

(** The decoder returns Unicode scalar values only, whatever it reads. *)
Lemma utf8_decode_scalar bs s : utf8_decode bs = Ok s → Forall is_scalar s.
Proof.
  revert s. induction bs as [bs IH] using list_length_ind. intros s.
  destruct bs as [|b0 r0]; [intros [= <-]; constructor|]. simpl.
  repeat case_match; try done; subst;
    intros Hs; outcome_inv; subst; constructor;
    eauto using decode2_scalar, decode3_scalar, decode4_scalar;
    try (eapply IH; [|done]; simpl; lia).
  split; [lia|]. apply is_surrogate_false. lia.
Qed.

(** ** Round trips *)

(** C23 (roundtrip).  A string of Unicode scalar values encodes without
    error to bytes, as many as [utf8_length] counts, and decoding the
    bytes gives the string back. *)
Theorem utf8_round_trip s :
  Forall is_scalar s →
  ∃ bs, utf8_encode s = Ok bs ∧ Forall is_byte bs ∧
        py_len bs = utf8_length s ∧ utf8_decode bs = Ok s.
Proof.
  intros [bs Hbs]%utf8_encode_is_Ok. exists bs.
  split; [done|]. split; [by eapply (str_encode_bytes (C := utf8))|].
  split; [by apply utf8_encode_length|by apply utf8_decode_encode].
Qed.

Lemma utf8_round_trip_witness :
  Forall is_scalar [104; 0x3B1; 0x20AC; 0x1F600] ∧
  ∃ bs, utf8_encode [104; 0x3B1; 0x20AC; 0x1F600] = Ok bs ∧
        Forall is_byte bs ∧
        py_len bs = utf8_length [104; 0x3B1; 0x20AC; 0x1F600] ∧
        utf8_decode bs = Ok [104; 0x3B1; 0x20AC; 0x1F600].
Proof.
  split; [decide_closed|].
  apply (utf8_round_trip [104; 0x3B1; 0x20AC; 0x1F600]). decide_closed.
Defined.

(** C24 (roundtrip).  The decoder is strict: the only bytes it accepts
    are the encoding of the string it returns, which holds Unicode scalar
    values only.  Overlong forms, surrogates, stray continuation bytes
    and values above [0x10FFFF] are refused. *)
Theorem utf8_decode_canonical bs s :
  Forall is_byte bs → utf8_decode bs = Ok s →
  Forall is_scalar s ∧ utf8_encode s = Ok bs.
Proof.
  intros Hbs Hs. pose proof (utf8_encode_decode bs s Hbs Hs) as Henc.
  split; [by eapply utf8_encode_Ok_scalar|done].
Qed.

Lemma utf8_decode_canonical_witness :
  Forall is_byte [0x68; 0xCE; 0xB1; 0xE2; 0x82; 0xAC] ∧
  utf8_decode [0x68; 0xCE; 0xB1; 0xE2; 0x82; 0xAC] = Ok [104; 0x3B1; 0x20AC] ∧
  Forall is_scalar [104; 0x3B1; 0x20AC] ∧
  utf8_encode [104; 0x3B1; 0x20AC] = Ok [0x68; 0xCE; 0xB1; 0xE2; 0x82; 0xAC].
Proof.
  split; [decide_closed|]. split; [by vm_compute|].
  apply (utf8_decode_canonical [0x68; 0xCE; 0xB1; 0xE2; 0x82; 0xAC]);
    [decide_closed|by vm_compute].
Defined.
