(* ===== verification/Truncator.v ===== *)
(** * Truncator: [trim_string_at_unicode_boundaries]

    The function of [src/src/main_fix.py], lines 14 to 31, statement by
    statement: encode, compare the length with the budget, walk back from
    the byte at the budget while the continuation test holds, slice,
    decode.  The codec is the section's context; the source names
    ["utf-8"], which is the instance [Utf8.utf8].

    The theorems of the first section hold for every codec that meets
    [Codec.SelfSync]; the second section states them for UTF-8, where the
    hypotheses read as conditions on the input string. *)

From Stdlib Require Import ZArith Lia.
From stdpp Require Import base list numbers.
From S2P Require Import Prelude Python TruncateSpec Codec Utf8.

#[local] Open Scope Z_scope.

(** ** The function *)

Section Trim.
Context `{C : Codec}.

(** [i>0 and not ((encoded_in_string[i] & 0xC0) != 0x80)]: [and] does
    not evaluate the access when [i>0] fails. *)
Definition trim_loop_cond (encoded_in_string : bytes) (i : Z)
    : outcome bool :=
  if i >? 0 then
    let* b := py_getitem encoded_in_string i in
    Ok (negb (py_ne (Z.land b 0xC0) 0x80))
  else Ok false.

(** [i = i-1] *)
Definition trim_loop_body (i : Z) : outcome Z := Ok (i - 1).

Definition trim_string_at_unicode_boundaries (in_string : pystr)
    (byte_limit : Z) : outcome pyvalue :=
  let* encoded_in_string := str_encode in_string in
  if py_len encoded_in_string >? byte_limit then
    let i := byte_limit in
    let* i := while (Z.to_nat byte_limit)
                (trim_loop_cond encoded_in_string) trim_loop_body i in
    let* encoded_in_string :=
      codec_decode (py_slice_to encoded_in_string i) in
    Ok (VStr encoded_in_string)
  else Ok (VBytearray encoded_in_string).

(** The text a returned value stands for. *)
Definition text_of (v : pyvalue) : outcome pystr :=
  match v with
  | VStr s => Ok s
  | VBytearray b => codec_decode b
  end.
End Trim.

(** ** The loop *)

Section Loop.
Context (encoded : bytes).

Lemma trim_loop_cond_stop i : i ≤ 0 → trim_loop_cond encoded i = Ok false.
Proof. intros. unfold trim_loop_cond. by Zcompare. Qed.

Lemma trim_loop_cond_test i x :
  0 < i → py_getitem encoded i = Ok x →
  trim_loop_cond encoded i = Ok (is_continuation x).
Proof.
  intros Hi Hx. unfold trim_loop_cond, py_ne, is_continuation.
  Zcompare. rewrite Hx. simpl. by rewrite negb_involutive.
Qed.

(** For every buffer longer than the budget, valid UTF-8 or not, the
    loop ends within [byte_limit] iterations without raising
    [IndexError], at an index between [0] and the budget (at the budget
    itself when that is not positive). *)
Lemma trim_loop_ends byte_limit :
  byte_limit < py_len encoded →
  ∃ i, while (Z.to_nat byte_limit) (trim_loop_cond encoded)
         trim_loop_body byte_limit = Ok i ∧
       Z.min 0 byte_limit ≤ i ≤ byte_limit.
Proof.
  intros Hlen.
  destruct (while_measure (trim_loop_cond encoded) trim_loop_body
    (λ i, Z.min 0 byte_limit ≤ i ≤ byte_limit) Z.to_nat)
    with (fuel := Z.to_nat byte_limit) (s := byte_limit)
    as (i & Hi & Hinv & _); [|lia|lia|by exists i].
  intros i Hi. destruct (decide (0 < i)) as [Hpos|Hpos].
  - destruct (py_getitem_in_range encoded i) as (x & Hx & _); [lia|].
    rewrite (trim_loop_cond_test i x) by done.
    eexists; split; [done|]. intros _. exists (i - 1).
    unfold trim_loop_body. repeat split; lia.
  - rewrite trim_loop_cond_stop by lia. by eexists.
Qed.

(** A negative or zero budget is returned as it is. *)
Lemma trim_loop_nonpositive fuel byte_limit :
  byte_limit ≤ 0 →
  while fuel (trim_loop_cond encoded) trim_loop_body byte_limit
    = Ok byte_limit.
Proof. intros. by apply while_exit, trim_loop_cond_stop. Qed.
End Loop.

(** At the first byte of a code point the loop stops. *)
Lemma trim_loop_at_lead b1 bc b2 fuel :
  lead_then_continuation bc →
  while fuel (trim_loop_cond (b1 ++ bc ++ b2)) trim_loop_body (py_len b1)
    = Ok (py_len b1).
Proof.
  intros Hbc. apply while_exit. destruct (decide (0 < py_len b1)).
  - pose proof (lead_then_continuation_len bc Hbc).
    destruct (getitem_within_code_point b1 bc b2 0 Hbc) as (x & Hx & Hc);
      [unfold py_len; lia|].
    rewrite Z.add_0_r in Hx. by rewrite (trim_loop_cond_test _ _ x), Hc.
  - apply trim_loop_cond_stop. lia.
Qed.

(** From inside a code point the loop walks back to its first byte. *)
Lemma trim_loop_code_point b1 bc b2 k fuel :
  lead_then_continuation bc → 0 ≤ k < py_len bc → (Z.to_nat k ≤ fuel)%nat →
  while fuel (trim_loop_cond (b1 ++ bc ++ b2)) trim_loop_body (py_len b1 + k)
    = Ok (py_len b1).
Proof.
  intros Hbc. revert k. induction fuel as [|fuel IH]; intros k Hk Hfuel;
    (destruct (decide (k = 0)) as [->|Hk0];
      [rewrite Z.add_0_r; by apply trim_loop_at_lead|]); [lia|].
  destruct (getitem_within_code_point b1 bc b2 k Hbc Hk) as (x & Hx & Hc).
  pose proof (py_len_nonneg b1).
  rewrite (while_iterate _ _ _ _ (py_len b1 + (k - 1))).
  - apply IH; lia.
  - rewrite (trim_loop_cond_test _ _ x), Hc by (done || lia). f_equal. lia.
  - unfold trim_loop_body. f_equal. lia.
Qed.

(** ** Correctness over a self-synchronizing codec *)

Section TrimFacts.
Context {C : Codec} `{!SelfSync C}.
Implicit Types (s : pystr) (b : bytes) (limit : Z).

(** Nothing to cut: the encoded buffer is returned. *)
Lemma trim_fits s b limit :
  str_encode s = Ok b → py_len b ≤ limit →
  trim_string_at_unicode_boundaries s limit = Ok (VBytearray b).
Proof.
  intros Hb Hlen. unfold trim_string_at_unicode_boundaries.
  rewrite Hb. simpl. by Zcompare.
Qed.

(** On the encoding of a string the loop ends at the first byte of the
    code point the budget falls in, which is where the longest prefix
    within the budget ends; the bytes walked back are its iterations. *)
Lemma trim_loop_encoded s b limit fuel :
  str_encode s = Ok b → 0 ≤ limit < py_len b →
  (Z.to_nat (limit - encoded_len (take_within enc_len s limit)) ≤ fuel)%nat →
  while fuel (trim_loop_cond b) trim_loop_body limit
    = Ok (encoded_len (take_within enc_len s limit)).
Proof.
  intros Hb Hlimit Hfuel. rewrite (str_encode_len s b Hb) in Hlimit.
  destruct (budget_split s limit Hlimit) as (c & r & Hs & Hp).
  pose proof Hb as Hb'. rewrite Hs in Hb'.
  apply str_encode_middle in Hb' as (b1 & bc & b2 & H1 & Hc & H2 & ->).
  rewrite <- (str_encode_len _ _ H1), (enc_len_Some c bc Hc) in *.
  replace limit with (py_len b1 + (limit - py_len b1)) at 1 by lia.
  apply trim_loop_code_point; [eauto using sync_shape|lia|done].
Qed.

(** A cut: the result is the longest prefix within the budget. *)
Lemma trim_cuts s limit :
  Forall encodable s → 0 ≤ limit < encoded_len s →
  trim_string_at_unicode_boundaries s limit
    = Ok (VStr (take_within enc_len s limit)).
Proof.
  intros [b Hb]%str_encode_is_Ok Hlimit.
  rewrite <- (str_encode_len s b Hb) in Hlimit.
  pose proof (encoded_len_nonneg (take_within enc_len s limit)).
  unfold trim_string_at_unicode_boundaries. rewrite Hb. simpl. Zcompare.
  rewrite (trim_loop_encoded s b) by (done || lia). simpl.
  rewrite py_slice_to_take by done.
  by rewrite (sync_decode_encode _ _
    (str_encode_prefix s _ b Hb (take_within_prefix enc_len s limit))).
Qed.

(** A negative budget: the loop does not run, and the slice drops that
    many bytes from the end, whatever they are. *)
Lemma trim_negative s b limit :
  str_encode s = Ok b → limit < 0 →
  trim_string_at_unicode_boundaries s limit =
    let* d := codec_decode (take (length b - Z.to_nat (- limit)) b) in
    Ok (VStr d).
Proof.
  intros Hb Hlimit. unfold trim_string_at_unicode_boundaries.
  rewrite Hb. simpl. pose proof (py_len_nonneg b). Zcompare.
  rewrite trim_loop_nonpositive by lia. simpl.
  by rewrite py_slice_to_negative.
Qed.

(** A string that cannot be encoded: the error of the encoder. *)
Lemma trim_unencodable s limit e :
  str_encode s = Raise e →
  trim_string_at_unicode_boundaries s limit = Raise e.
Proof. intros Hs. unfold trim_string_at_unicode_boundaries. by rewrite Hs. Qed.

(** For every budget that is not negative the returned value stands for
    the longest prefix within the budget. *)
Lemma trim_refines s limit :
  Forall encodable s → 0 ≤ limit →
  ∃ v, trim_string_at_unicode_boundaries s limit = Ok v ∧
       text_of v = Ok (take_within enc_len s limit).
Proof.
  intros Hs Hlimit. destruct (decide (limit < encoded_len s)).
  - eexists. split; [by apply trim_cuts|done].
  - pose proof Hs as [b Hb]%str_encode_is_Ok.
    exists (VBytearray b). apply str_encode_len in Hb as Hlen. split.
    + apply trim_fits; [done|lia].
    + simpl. unfold encoded_len in *.
      rewrite take_within_all by (apply enc_len_nonneg || lia).
      by apply sync_decode_encode.
Qed.

Lemma trim_Ok_encodable s limit v :
  trim_string_at_unicode_boundaries s limit = Ok v → Forall encodable s.
Proof.
  unfold trim_string_at_unicode_boundaries.
  intros (b & Hb & _)%bind_Ok_inv. apply str_encode_is_Ok. by exists b.
Qed.

Lemma trim_Ok_text s limit v :
  0 ≤ limit → trim_string_at_unicode_boundaries s limit = Ok v →
  text_of v = Ok (take_within enc_len s limit).
Proof.
  intros Hlimit Hv.
  destruct (trim_refines s limit) as (v' & Hv' & Ht);
    [by eapply trim_Ok_encodable|done|congruence].
Qed.

(** The three shapes of a call: the error of the encoder, the buffer
    when nothing is cut, or the loop's index, slice and decoding. *)
Lemma trim_unfold s limit :
  trim_string_at_unicode_boundaries s limit =
  let* b := str_encode s in
  if py_len b >? limit then
    let* i := while (Z.to_nat limit) (trim_loop_cond b) trim_loop_body
                limit in
    let* d := codec_decode (py_slice_to b i) in Ok (VStr d)
  else Ok (VBytearray b).
Proof. done. Qed.
End TrimFacts.

(** ** The function at UTF-8 *)

Section Utf8Trim.
Implicit Types (s t : pystr) (limit : Z) (v : pyvalue).

Lemma scalar_encodable s : Forall is_scalar s → Forall encodable s.
Proof. apply Forall_impl. intros c. apply utf8_encodable. Qed.

Lemma trim_Ok_scalar s limit v :
  trim_string_at_unicode_boundaries s limit = Ok v → Forall is_scalar s.
Proof.
  intros Hs%trim_Ok_encodable. revert Hs. apply Forall_impl.
  intros c. apply utf8_encodable.
Qed.

(** The text of a result, for a budget that is not negative. *)
Lemma trim_Ok_text_utf8 s limit v :
  0 ≤ limit → trim_string_at_unicode_boundaries s limit = Ok v →
  text_of v = Ok (take_within utf8_len s limit).
Proof.
  intros Hlimit Hv. rewrite <- take_within_utf8 by eauto using trim_Ok_scalar.
  by apply trim_Ok_text.
Qed.

Lemma prefix_scalar s t : t `prefix_of` s → Forall is_scalar s → Forall is_scalar t.
Proof. intros [k ->] Hs. by apply Forall_app in Hs as [? _]. Qed.

(** A cut, at UTF-8. *)
Lemma trim_cuts_utf8 s limit :
  Forall is_scalar s → 0 ≤ limit < utf8_length s →
  trim_string_at_unicode_boundaries s limit
    = Ok (VStr (take_within utf8_len s limit)).
Proof.
  intros Hs Hlimit. rewrite <- take_within_utf8 by done.
  apply trim_cuts; [by apply scalar_encodable|by rewrite encoded_len_utf8].
Qed.

Lemma utf8_len_nonneg c : 0 ≤ utf8_len c.
Proof. pose proof (utf8_len_pos c). lia. Qed.

(** A cut leaves fewer than four bytes of the budget unused: a code
    point takes four bytes at most. *)
Lemma take_within_utf8_tight s limit :
  0 ≤ limit < utf8_length s →
  limit - 3 ≤ utf8_length (take_within utf8_len s limit).
Proof.
  intros Hlimit.
  assert (∀ c, utf8_len c ≤ 4) as H4 by (intros c; apply utf8_len_range).
  pose proof (take_within_tight utf8_len s limit 4 H4 Hlimit).
  unfold utf8_length. lia.
Qed.

(** The loop on the encoding of a string: it ends where the longest
    prefix within the budget ends, after three iterations at most, and
    no more than the budget. *)
Lemma trim_loop_utf8 s bs limit fuel :
  utf8_encode s = Ok bs → 0 ≤ limit < py_len bs →
  (Nat.min 3 (Z.to_nat limit) ≤ fuel)%nat →
  while fuel (trim_loop_cond bs) trim_loop_body limit
    = Ok (utf8_length (take_within utf8_len s limit)).
Proof.
  intros Hbs Hlimit Hfuel.
  pose proof (utf8_encode_Ok_scalar s bs Hbs) as Hs.
  pose proof (take_within_utf8_tight s limit) as Ht.
  rewrite <- (utf8_encode_length s bs Hbs) in Ht. specialize (Ht Hlimit).
  rewrite <- take_within_utf8 in * by done.
  rewrite <- encoded_len_utf8 in *
    by eauto using prefix_scalar, take_within_prefix.
  pose proof (encoded_len_nonneg (take_within enc_len s limit)).
  apply (trim_loop_encoded s bs); [done..|lia].
Qed.

(** For a string of scalar values and a budget that is not negative
    the function returns, and what it returns stands for the longest
    prefix within the budget. *)
Lemma trim_returns_text s limit :
  Forall is_scalar s → 0 ≤ limit →
  ∃ v, trim_string_at_unicode_boundaries s limit = Ok v ∧
       text_of v = Ok (take_within utf8_len s limit).
Proof.
  intros Hs Hlimit. rewrite <- take_within_utf8 by done.
  by apply trim_refines; [apply scalar_encodable|].
Qed.

(** C1 (refinement).  For a string of Unicode scalar values and a
    budget with [0 <= byte_limit < len(encoded)], the function returns
    a [str] that meets the specification of truncation: it is a prefix
    of the input, its UTF-8 encoding takes at most [byte_limit] bytes,
    and every prefix of the input that fits the budget is a prefix of
    it. *)
Theorem trim_refines_longest_prefix s limit :
  Forall is_scalar s → 0 ≤ limit < utf8_length s →
  ∃ t, trim_string_at_unicode_boundaries s limit = Ok (VStr t) ∧
       longest_prefix_within utf8_len s limit t.
Proof.
  intros Hs Hlimit. exists (take_within utf8_len s limit).
  split; [by apply trim_cuts_utf8|].
  apply take_within_spec; [apply utf8_len_nonneg|lia].
Qed.

Lemma trim_refines_longest_prefix_witness :
  Forall is_scalar [0x3B1; 0x3B2; 0x3B3] ∧
  0 ≤ 3 < utf8_length [0x3B1; 0x3B2; 0x3B3] ∧
  ∃ t, trim_string_at_unicode_boundaries [0x3B1; 0x3B2; 0x3B3] 3
         = Ok (VStr t) ∧
       longest_prefix_within utf8_len [0x3B1; 0x3B2; 0x3B3] 3 t.
Proof.
  split; [decide_closed|]. split; [decide_closed|].
  apply (trim_refines_longest_prefix [0x3B1; 0x3B2; 0x3B3] 3);
    decide_closed.
Defined.

(** C2 (bounds).  For a budget that is not negative, whatever the
    function returns stands for a text whose UTF-8 encoding takes at
    most [byte_limit] bytes; and when the input did not fit, at least
    [byte_limit - 3] bytes: the cut gives up less than one code
    point. *)
Theorem trim_byte_bound s limit v :
  0 ≤ limit → trim_string_at_unicode_boundaries s limit = Ok v →
  ∃ t bs, text_of v = Ok t ∧ utf8_encode t = Ok bs ∧ py_len bs ≤ limit ∧
          (limit < utf8_length s → limit - 3 ≤ py_len bs).
Proof.
  intros Hlimit Hv. pose proof (trim_Ok_text_utf8 s limit v Hlimit Hv) as Ht.
  assert (Forall is_scalar (take_within utf8_len s limit)) as Hsc
    by eauto using prefix_scalar, take_within_prefix, trim_Ok_scalar.
  apply utf8_encode_is_Ok in Hsc as [bs Hbs].
  exists (take_within utf8_len s limit), bs. repeat split; [done..| |].
  - rewrite (utf8_encode_length _ _ Hbs). by apply take_within_bound.
  - intros Hcut. rewrite (utf8_encode_length _ _ Hbs).
    by apply take_within_utf8_tight.
Qed.

Lemma trim_byte_bound_witness :
  0 ≤ 3 ∧
  trim_string_at_unicode_boundaries [104; 0x3B1; 0x3B2] 3
    = Ok (VStr [104; 0x3B1]) ∧
  ∃ t bs, text_of (VStr [104; 0x3B1]) = Ok t ∧ utf8_encode t = Ok bs ∧
          py_len bs ≤ 3 ∧
          (3 < utf8_length [104; 0x3B1; 0x3B2] → 3 - 3 ≤ py_len bs).
Proof.
  split; [decide_closed|]. split; [by vm_compute|].
  apply (trim_byte_bound [104; 0x3B1; 0x3B2] 3); [decide_closed|by vm_compute].
Defined.

(** C3 (functional).  Maximality: when the returned text is a proper
    prefix of the input, the returned text extended by the next code
    point of the input takes more than [byte_limit] bytes. *)
Theorem trim_maximal s limit v t c :
  0 ≤ limit → trim_string_at_unicode_boundaries s limit = Ok v →
  text_of v = Ok t → (t ++ [c]) `prefix_of` s →
  limit < utf8_length (t ++ [c]).
Proof.
  intros Hlimit Hv Ht [r Hr].
  rewrite (trim_Ok_text_utf8 s limit v Hlimit Hv) in Ht.
  injection Ht as <-. unfold utf8_length.
  rewrite total_app, total_cons, total_nil, Z.add_0_r.
  apply (take_within_maximal utf8_len s limit c r).
  by rewrite <- app_assoc in Hr.
Qed.

Lemma trim_maximal_witness :
  0 ≤ 3 ∧
  trim_string_at_unicode_boundaries [0x3B1; 0x3B2; 0x3B3] 3
    = Ok (VStr [0x3B1]) ∧
  text_of (VStr [0x3B1]) = Ok [0x3B1] ∧
  ([0x3B1] ++ [0x3B2]) `prefix_of` [0x3B1; 0x3B2; 0x3B3] ∧
  3 < utf8_length ([0x3B1] ++ [0x3B2]).
Proof.
  assert (([0x3B1] ++ [0x3B2]) `prefix_of` [0x3B1; 0x3B2; 0x3B3])
    by (by exists [0x3B3]).
  split; [decide_closed|]. split; [by vm_compute|].
  split; [done|]. split; [done|].
  apply (trim_maximal [0x3B1; 0x3B2; 0x3B3] 3 (VStr [0x3B1]));
    [decide_closed|by vm_compute|done|done].
Defined.

(** C4 (functional).  When the encoded string fits the budget, the
    function returns the [bytearray] built at its first line, not the
    [str] it was given: the value returned stands for the input, but
    it is of another type. *)
Theorem trim_fitting_returns_bytearray s limit :
  Forall is_scalar s → utf8_length s ≤ limit →
  ∃ bs, utf8_encode s = Ok bs ∧
        trim_string_at_unicode_boundaries s limit = Ok (VBytearray bs) ∧
        text_of (VBytearray bs) = Ok s.
Proof.
  intros [bs Hbs]%utf8_encode_is_Ok Hlimit. exists bs.
  repeat split; [done| |by apply utf8_decode_encode].
  apply trim_fits; [done|]. by rewrite (utf8_encode_length _ _ Hbs).
Qed.

Lemma trim_fitting_returns_bytearray_witness :
  Forall is_scalar [104; 101; 108; 108; 111] ∧
  utf8_length [104; 101; 108; 108; 111] ≤ 10 ∧
  ∃ bs, utf8_encode [104; 101; 108; 108; 111] = Ok bs ∧
        trim_string_at_unicode_boundaries [104; 101; 108; 108; 111] 10
          = Ok (VBytearray bs) ∧
        text_of (VBytearray bs) = Ok [104; 101; 108; 108; 111].
Proof.
  split; [decide_closed|]. split; [decide_closed|].
  apply (trim_fitting_returns_bytearray [104; 101; 108; 108; 111] 10);
    decide_closed.
Defined.

(** C5 (functional).  Monotonicity: for budgets [0 <= b1 <= b2] the
    text returned for [b1] is a prefix of the text returned for [b2],
    and it is what the function returns for [b1] on the text returned
    for [b2]: cutting in two steps is cutting once. *)
Theorem trim_monotone s b1 b2 v1 v2 t1 t2 :
  0 ≤ b1 ≤ b2 →
  trim_string_at_unicode_boundaries s b1 = Ok v1 →
  trim_string_at_unicode_boundaries s b2 = Ok v2 →
  text_of v1 = Ok t1 → text_of v2 = Ok t2 →
  t1 `prefix_of` t2 ∧
  ∃ v, trim_string_at_unicode_boundaries t2 b1 = Ok v ∧ text_of v = Ok t1.
Proof.
  intros Hb Hv1 Hv2 Ht1 Ht2.
  rewrite (trim_Ok_text_utf8 s b1 v1) in Ht1 by (done || lia).
  rewrite (trim_Ok_text_utf8 s b2 v2) in Ht2 by (done || lia).
  injection Ht1 as <-. injection Ht2 as <-.
  split; [apply take_within_mono; lia|].
  destruct (trim_returns_text (take_within utf8_len s b2) b1) as (v & Hv & Ht);
    [eauto using prefix_scalar, take_within_prefix, trim_Ok_scalar|lia|].
  exists v. split; [done|]. rewrite Ht. f_equal.
  apply take_within_compose; [apply utf8_len_nonneg|lia].
Qed.

Lemma trim_monotone_witness :
  0 ≤ 3 ≤ 5 ∧
  trim_string_at_unicode_boundaries [0x3B1; 0x3B2; 0x3B3] 3
    = Ok (VStr [0x3B1]) ∧
  trim_string_at_unicode_boundaries [0x3B1; 0x3B2; 0x3B3] 5
    = Ok (VStr [0x3B1; 0x3B2]) ∧
  [0x3B1] `prefix_of` [0x3B1; 0x3B2] ∧
  ∃ v, trim_string_at_unicode_boundaries [0x3B1; 0x3B2] 3 = Ok v ∧
       text_of v = Ok [0x3B1].
Proof.
  split; [decide_closed|]. split; [by vm_compute|].
  split; [by vm_compute|].
  apply (trim_monotone [0x3B1; 0x3B2; 0x3B3] 3 5
           (VStr [0x3B1]) (VStr [0x3B1; 0x3B2]));
    [decide_closed|by vm_compute|by vm_compute|done|done].
Defined.

(** C6 (safety).  Validity: for a string of scalar values and a budget
    that is not negative the function does not raise, and what it
    returns stands for well-formed text, a prefix of the input. *)
Theorem trim_returns_valid_prefix s limit :
  Forall is_scalar s → 0 ≤ limit →
  ∃ v t, trim_string_at_unicode_boundaries s limit = Ok v ∧
         text_of v = Ok t ∧ t `prefix_of` s ∧ Forall is_scalar t.
Proof.
  intros Hs Hlimit.
  destruct (trim_refines s limit) as (v & Hv & Ht);
    [by apply scalar_encodable|done|].
  exists v, (take_within enc_len s limit).
  eauto using prefix_scalar, take_within_prefix.
Qed.

Lemma trim_returns_valid_prefix_witness :
  Forall is_scalar [0x3B1; 0x1F600; 0x3B3] ∧ 0 ≤ 5 ∧
  ∃ v t, trim_string_at_unicode_boundaries [0x3B1; 0x1F600; 0x3B3] 5 = Ok v ∧
         text_of v = Ok t ∧ t `prefix_of` [0x3B1; 0x1F600; 0x3B3] ∧
         Forall is_scalar t.
Proof.
  split; [decide_closed|]. split; [decide_closed|].
  apply (trim_returns_valid_prefix [0x3B1; 0x1F600; 0x3B3] 5);
    decide_closed.
Defined.

(** C7 (error).  For every string and every budget the function
    returns or raises: it never runs out of iterations and never raises
    [IndexError].  It raises [UnicodeEncodeError], from the encoder, or
    [UnicodeDecodeError], and the latter only for a negative budget. *)
Theorem trim_raises_only_unicode_errors s limit :
  raises_only
    (λ e, e = UnicodeEncodeError ∨ (e = UnicodeDecodeError ∧ limit < 0))
    (trim_string_at_unicode_boundaries s limit).
Proof.
  pose proof (str_encode_raises_only s) as Henc.
  destruct (str_encode s) as [b|e|] eqn:Hb; [|simpl in Henc..].
  - destruct (decide (0 ≤ limit)) as [Hlimit|Hlimit].
    + apply is_Ok_raises_only.
      destruct (trim_refines s limit) as (v & Hv & _); [|done|by exists v].
      apply str_encode_is_Ok. by exists b.
    + rewrite (trim_negative s b) by (done || lia).
      apply raises_only_bind; [|done].
      eapply raises_only_mono; [|apply utf8_decode_raises_only].
      intros e ->. right. split; [done|lia].
  - rewrite (trim_unencodable s limit e Hb). simpl. by left.
  - done.
Qed.

(** C8 (termination).  For every buffer longer than the budget, valid
    UTF-8 or not, the loop ends within [byte_limit] iterations without
    raising [IndexError], at an index between [0] and the budget (at
    the budget itself when that is not positive).  On the encoding of a
    string it ends within three bytes of the budget, and three
    iterations are enough. *)
Theorem trim_loop_terminates encoded byte_limit :
  byte_limit < py_len encoded →
  ∃ i, while (Z.to_nat byte_limit) (trim_loop_cond encoded)
         trim_loop_body byte_limit = Ok i ∧
       Z.min 0 byte_limit ≤ i ≤ byte_limit ∧
       ∀ s, utf8_encode s = Ok encoded →
            byte_limit - 3 ≤ i ∧
            while 3 (trim_loop_cond encoded) trim_loop_body byte_limit
              = Ok i.
Proof.
  intros Hlen. destruct (trim_loop_ends encoded byte_limit Hlen)
    as (i & Hi & Hrange).
  exists i. split; [done|]. split; [done|]. intros s Hs.
  destruct (decide (0 ≤ byte_limit)) as [Hpos|Hneg].
  - pose proof (take_within_utf8_tight s byte_limit) as Ht.
    rewrite <- (utf8_encode_length s encoded Hs) in Ht.
    rewrite (trim_loop_utf8 s encoded) in Hi by (done || lia).
    injection Hi as <-. split; [lia|]. apply trim_loop_utf8; [done|lia..].
  - rewrite trim_loop_nonpositive in Hi by lia. injection Hi as <-.
    split; [lia|]. apply trim_loop_nonpositive. lia.
Qed.

Lemma trim_loop_terminates_witness :
  3 < py_len [0xCE; 0xB1; 0xCE; 0xB2] ∧
  ∃ i, while (Z.to_nat 3) (trim_loop_cond [0xCE; 0xB1; 0xCE; 0xB2])
         trim_loop_body 3 = Ok i ∧ Z.min 0 3 ≤ i ≤ 3 ∧
       ∀ s, utf8_encode s = Ok [0xCE; 0xB1; 0xCE; 0xB2] →
            3 - 3 ≤ i ∧
            while 3 (trim_loop_cond [0xCE; 0xB1; 0xCE; 0xB2])
              trim_loop_body 3 = Ok i.
Proof.
  split; [decide_closed|].
  apply (trim_loop_terminates [0xCE; 0xB1; 0xCE; 0xB2] 3). decide_closed.
Defined.

(** C9 (error).  A string that holds a code point without encoding (a
    surrogate) makes the function raise [UnicodeEncodeError], whatever
    the budget. *)
Theorem trim_surrogate_raises s limit :
  ¬ Forall is_scalar s →
  trim_string_at_unicode_boundaries s limit = Raise UnicodeEncodeError.
Proof. intros Hs. by apply trim_unencodable, utf8_encode_surrogate. Qed.

Lemma trim_surrogate_raises_witness :
  ¬ Forall is_scalar [104; 0xD800] ∧
  trim_string_at_unicode_boundaries [104; 0xD800] 10
    = Raise UnicodeEncodeError.
Proof.
  split; [decide_closed|].
  apply (trim_surrogate_raises [104; 0xD800] 10). decide_closed.
Defined.

(** C10 (error).  A negative budget is not refused: the loop does not
    run, and the function decodes the buffer without its last
    [-byte_limit] bytes, which raises [UnicodeDecodeError] when that
    cut falls inside a code point. *)
Theorem trim_negative_budget_slices s bs limit :
  utf8_encode s = Ok bs → limit < 0 →
  trim_string_at_unicode_boundaries s limit =
    let* d := utf8_decode (take (length bs - Z.to_nat (- limit)) bs) in
    Ok (VStr d).
Proof. intros Hbs Hlimit. exact (trim_negative s bs limit Hbs Hlimit). Qed.

Lemma trim_negative_budget_slices_witness :
  utf8_encode [0x3B1] = Ok [0xCE; 0xB1] ∧ -1 < 0 ∧
  trim_string_at_unicode_boundaries [0x3B1] (-1) = Raise UnicodeDecodeError.
Proof.
  split; [by vm_compute|]. split; [decide_closed|].
  apply (trim_negative_budget_slices [0x3B1] [0xCE; 0xB1] (-1));
    [by vm_compute|decide_closed].
Defined.

(** C11 (functional).  Text beyond the budget does not matter: two
    strings of which one extends the other, both longer than the
    budget once encoded, are cut to the same result. *)
Theorem trim_stable_under_extension s1 s2 limit :
  Forall is_scalar s2 → s1 `prefix_of` s2 → 0 ≤ limit < utf8_length s1 →
  trim_string_at_unicode_boundaries s1 limit
    = trim_string_at_unicode_boundaries s2 limit.
Proof.
  intros Hs2 Hpre Hlimit.
  assert (utf8_length s1 ≤ utf8_length s2)
    by (apply total_prefix_le; [apply utf8_len_nonneg|done]).
  rewrite !trim_cuts_utf8 by (eauto using prefix_scalar || lia).
  do 2 f_equal. apply take_within_stable; [apply utf8_len_nonneg|done|].
  unfold utf8_length in *. lia.
Qed.

Lemma trim_stable_under_extension_witness :
  Forall is_scalar [0x3B1; 0x3B2; 0x3B3] ∧
  [0x3B1; 0x3B2] `prefix_of` [0x3B1; 0x3B2; 0x3B3] ∧
  0 ≤ 3 < utf8_length [0x3B1; 0x3B2] ∧
  trim_string_at_unicode_boundaries [0x3B1; 0x3B2] 3
    = trim_string_at_unicode_boundaries [0x3B1; 0x3B2; 0x3B3] 3.
Proof.
  assert ([0x3B1; 0x3B2] `prefix_of` [0x3B1; 0x3B2; 0x3B3])
    by (by exists [0x3B3]).
  split; [decide_closed|]. split; [done|]. split; [decide_closed|].
  apply (trim_stable_under_extension [0x3B1; 0x3B2] [0x3B1; 0x3B2; 0x3B3] 3);
    [decide_closed|done|decide_closed].
Defined.

(** C12 (functional).  A zero budget gives the empty text: the empty
    [str] for an input that is not empty, and the empty [bytearray] for
    the empty input. *)
Theorem trim_zero_budget s :
  Forall is_scalar s →
  trim_string_at_unicode_boundaries s 0
    = Ok (match s with [] => VBytearray [] | _ => VStr [] end).
Proof.
  intros Hs. destruct s as [|c r]; [done|].
  rewrite trim_cuts_utf8; [|done|].
  - do 2 f_equal. apply take_within_zero.
    apply Forall_forall. intros x _. apply utf8_len_pos.
  - unfold utf8_length. rewrite total_cons.
    pose proof (utf8_len_pos c). pose proof (utf8_length_nonneg r).
    unfold utf8_length in *. lia.
Qed.

Lemma trim_zero_budget_witness :
  Forall is_scalar [0x3B1; 104] ∧
  trim_string_at_unicode_boundaries [0x3B1; 104] 0 = Ok (VStr []).
Proof.
  split; [decide_closed|]. apply (trim_zero_budget [0x3B1; 104]).
  decide_closed.
Defined.
(** C33 (type).  Whatever the budget, a value the function returns is
    well formed, and its class is decided by the lengths alone: a [str]
    of Unicode scalar values when the encoded input is longer than the
    budget, the [bytearray] of the encoding otherwise. *)
Theorem trim_result_type s limit v :
  trim_string_at_unicode_boundaries s limit = Ok v →
  type_of v = (if utf8_length s >? limit then TStr else TBytearray) ∧
  wf_value v.
Proof.
  rewrite trim_unfold. intros (b & Hb & Hv)%bind_Ok_inv.
  rewrite <- (utf8_encode_length s b Hb).
  pose proof (str_encode_bytes s b Hb) as Hbytes.
  destruct (py_len b >? limit); [|by injection Hv as <-].
  apply bind_Ok_inv in Hv as (i & _ & (d & Hd & [= <-])%bind_Ok_inv).
  split; [done|]. apply (utf8_encode_Ok_scalar d (py_slice_to b i)).
  apply utf8_encode_decode; [|done]. by apply Forall_take.
Qed.

Lemma trim_result_type_witness :
  type_of (VStr [0x3B1]) =
    (if utf8_length [0x3B1; 0x3B2; 0x3B3] >? 3 then TStr else TBytearray) ∧
  wf_value (VStr [0x3B1]).
Proof.
  apply (trim_result_type [0x3B1; 0x3B2; 0x3B3] 3). by vm_compute.
Defined.
End Utf8Trim.
