(* ===== verification/Payloads.v ===== *)
(** * Payloads: the text literals of the scripts

    The three payloads that [src/src/main.py] and [src/src/main_fix.py]
    define with the same text.  A literal is kept as the bytes of the
    source file between its quotes, one Rocq string per physical line of
    the source (the line continuations [\] removed, the escape [\n]
    written [LF]); its value is what Python's parser makes of these
    bytes: their UTF-8 decoding. *)

From Stdlib Require Import ZArith Lia Ascii String.
From stdpp Require Import base list numbers strings.
From S2P Require Import Prelude Python TruncateSpec Codec Utf8.

#[local] Open Scope Z_scope.

(** ** Source text to code points *)

Fixpoint bytes_of_string (s : string) : bytes :=
  match s with
  | EmptyString => []
  | String a r => Z.of_N (N_of_ascii a) :: bytes_of_string r
  end.

(** The escape [\n]. *)
Definition LF : string := String "010"%char EmptyString.

(** The value of a literal written on several lines. *)
Definition str_literal (parts : list string) : pystr :=
  match utf8_decode (bytes_of_string (String.concat EmptyString parts)) with
  | Ok s => s
  | _ => []
  end.

(** [non_problematic_payload], lines 68 to 69 of [src/src/main_fix.py] *)
Definition non_problematic_payload_source : list string := [
  "The standard english phrase 'Hello World' translates to 'Χαίρε Κόσμε', in Greek ";
  "but sounds odd, just like any other word-to-word translation does."
]%string.

(** [problematic_payload_1], lines 71 to 92 of [src/src/main_fix.py] *)
Definition problematic_payload_1_source : list string := [
  "Το Lorem Ipsum είναι απλά ένα κείμενο χωρίς νόημα για τους επαγγελματίες της τυπογραφίας ";
  "και στοιχειοθεσίας. Το Lorem Ipsum είναι το επαγγελματικό πρότυπο όσον αφορά το κείμενο χωρίς νόημα, από τον 15ο αιώνα ";
  ", όταν ένας ανώνυμος τυπογράφος πήρε ένα δοκίμιο και ανακάτεψε τις λέξεις για να δημιουργήσει ένα δείγμα βιβλίου. Όχι ";
  "μόνο επιβίωσε πέντε αιώνες, αλλά κυριάρχησε στην ηλεκτρονική στοιχειοθεσία, παραμένοντας με κάθε τρόπο αναλλοίωτο. ";
  "Έγινε δημοφιλές τη δεκαετία του '60 με την έκδοση των δειγμάτων της Letraset όπου περιελάμβαναν αποσπάσματα του Lorem ";
  "Ipsum, και πιο πρόσφατα με το λογισμικό ηλεκτρονικής σελιδοποίησης όπως το Aldus PageMaker που περιείχαν εκδοχές του ";
  "Lorem Ipsum.";
  LF;
  "Γιατί το χρησιμοποιούμε;";
  LF;
  "Είναι πλέον κοινά παραδεκτό ότι ένας αναγνώστης αποσπάται από το περιεχόμενο ";
  "που διαβάζει, όταν εξετάζει τη διαμόρφωση μίας σελίδας. Η ουσία της χρήσης του Lorem Ipsum είναι ότι έχει λίγο-πολύ ";
  "μία ομαλή κατανομή γραμμάτων, αντίθετα με το να βάλει κανείς κείμενο όπως 'Εδώ θα μπει κείμενο, εδώ θα μπει κείμενο', ";
  "κάνοντάς το να φαίνεται σαν κανονικό κείμενο. Πολλά λογισμικά πακέτα ηλεκτρονικής σελιδοποίησης και επεξεργαστές ";
  "ιστότοπων πλέον χρησιμοποιούν το Lorem Ipsum σαν προκαθορισμένο δείγμα κειμένου, και η αναζήτησ για τις λέξεις 'lorem ";
  "ipsum'  στο διαδίκτυο θα αποκαλύψει πολλά web site που βρίσκονται στο στάδιο της δημιουργίας. Διάφορες εκδοχές έχουν ";
  "προκύψει με το πέρασμα των χρόνων, άλλες φορές κατά λάθος, άλλες φορές σκόπιμα (με σκοπό το χιούμορ και άλλα συναφή).";
  LF;
  "Απο που προέρχεται;";
  LF;
  "Αντίθετα με αυτό που θεωρεί η πλειοψηφία, το Lorem Ipsum δεν είναι απλά ένα τυχαίο κείμενο. Οι ρίζες του βρίσκονται σε ";
  "ένα κείμενο Λατινικής λογοτεχνίας του 45 π.Χ., φτάνοντας την ηλικία του πάνω από 2000 έτη. Ο Richard McClintock, ";
  "καθηγητής Λατινικών στο κολλέγιο Hampden-Dydney στην Βιρτζίνια, αναζήτησε μία από τις πιο σπάνιες Λατινικές λέξεις, ";
  "την consectetur, από ένα απόσπασμα του Lorem Ipsum, και ανάμεσα σε όλα τα έργα της κλασσικής λογοτεχνίας, ανακάλυψε ";
  "την αναμφισβήτητη πηγή του. To Lorem Ipsum προέρχεται από τις ενότητες 1.10.32 και 1.10.33 του 'de Finibus Bonorum et ";
  "Malorum' (Τα άκρα του καλού και του κακού) από τον Cicero (Σισερό), γραμμένο το 45 π.Χ. Αυτό το βιβλίο είναι μία ";
  "διατριβή στην θεωρία της Ηθικής, πολύ δημοφιλής κατά την αναγέννηση. Η πρώτη γραμμή του Lorem Ipsum, 'Lorem ipsum ";
  "dolor sit amet...', προέρχεται από μία γραμμή στην ενότητα 1.10.32."
]%string.

(** [problematic_payload_2], lines 94 to 127 of [src/src/main_fix.py] *)
Definition problematic_payload_2_source : list string := [
  "Το Lorem Ipsum είναι απλά ένα κείμενο χωρίς νόημα για τους επαγγελματίες της τυπογραφίας ";
  "και στοιχειοθεσίας. Το Lorem Ipsum είναι το επαγγελματικό πρότυπο όσον αφορά το κείμενο χωρίς νόημα, από τον 15ο αιώνα ";
  ", όταν ένας ανώνυμος τυπογράφος πήρε ένα δοκίμιο και ανακάτεψε τις λέξεις για να δημιουργήσει ένα δείγμα βιβλίου. Όχι ";
  "μόνο επιβίωσε πέντε αιώνες, αλλά κυριάρχησε στην ηλεκτρονική στοιχειοθεσία, παραμένοντας με κάθε τρόπο αναλλοίωτο. ";
  "Έγινε δημοφιλές τη δεκαετία του '60 με την έκδοση των δειγμάτων της Letraset όπου περιελάμβαναν αποσπάσματα του Lorem ";
  "Ipsum, και πιο πρόσφατα με το λογισμικό ηλεκτρονικής σελιδοποίησης όπως το Aldus PageMaker που περιείχαν εκδοχές του ";
  "Lorem Ipsum.";
  LF;
  "Γιατί το χρησιμοποιούμε;";
  LF;
  "Είναι πλέον κοινά παραδεκτό ότι ένας αναγνώστης αποσπάται από το περιεχόμενο ";
  "που διαβάζει, όταν εξετάζει τη διαμόρφωση μίας σελίδας. Η ουσία της χρήσης του Lorem Ipsum είναι ότι έχει λίγο-πολύ ";
  "μία ομαλή κατανομή γραμμάτων, αντίθετα με το να βάλει κανείς κείμενο όπως 'Εδώ θα μπει κείμενο, εδώ θα μπει κείμενο', ";
  "κάνοντάς το να φαίνεται σαν κανονικό κείμενο. Πολλά λογισμικά πακέτα ηλεκτρονικής σελιδοποίησης και επεξεργαστές ";
  "ιστότοπων πλέον χρησιμοποιούν το Lorem Ipsum σαν προκαθορισμένο δείγμα κειμένου, και η αναζήτησ για τις λέξεις 'lorem ";
  "ipsum'  στο διαδίκτυο θα αποκαλύψει πολλά web site που βρίσκονται στο στάδιο της δημιουργίας. Διάφορες εκδοχές έχουν ";
  "προκύψει με το πέρασμα των χρόνων, άλλες φορές κατά λάθος, άλλες φορές σκόπιμα (με σκοπό το χιούμορ και άλλα συναφή).";
  LF;
  "Απο που προέρχεται;";
  LF;
  "Αντίθετα με αυτό που θεωρεί η πλειοψηφία, το Lorem Ipsum δεν είναι απλά ένα τυχαίο κείμενο. Οι ρίζες του βρίσκονται σε ";
  "ένα κείμενο Λατινικής λογοτεχνίας του 45 π.Χ., φτάνοντας την ηλικία του πάνω από 2000 έτη. Ο Richard McClintock, ";
  "καθηγητής Λατινικών στο κολλέγιο Hampden-Dydney στην Βιρτζίνια, αναζήτησε μία από τις πιο σπάνιες Λατινικές λέξεις, ";
  "την consectetur, από ένα απόσπασμα του Lorem Ipsum, και ανάμεσα σε όλα τα έργα της κλασσικής λογοτεχνίας, ανακάλυψε ";
  "την αναμφισβήτητη πηγή του. To Lorem Ipsum προέρχεται από τις ενότητες 1.10.32 και 1.10.33 του 'de Finibus Bonorum et ";
  "Malorum' (Τα άκρα του καλού και του κακού) από τον Cicero (Σισερό), γραμμένο το 45 π.Χ. Αυτό το βιβλίο είναι μία ";
  "διατριβή στην θεωρία της Ηθικής, πολύ δημοφιλής κατά την αναγέννηση. Η πρώτη γραμμή του Lorem Ipsum, 'Lorem ipsum ";
  "dolor sit amet...', προέρχεται από μία γραμμή στην ενότητα 1.10.32.";
  LF;
  "Που μπορώ να βρώ μερικές;";
  LF;
  "Υπάρχουν πολλές ";
  "εκδοχές των αποσπασμάτων του Lorem Ipsum διαθέσιμες, αλλά η πλειοψηφία τους έχει δεχθεί κάποιας μορφής αλλοιώσεις, με ";
  "ενσωματωμένους αστεεισμούς, ή τυχαίες λέξεις που δεν γίνονται καν πιστευτές. Εάν πρόκειται να χρησιμοποιήσετε ένα ";
  "κομμάτι του Lorem Ipsum, πρέπει να είστε βέβαιοι πως δεν βρίσκεται κάτι προσβλητικό κρυμμένο μέσα στο κείμενο. Όλες οι ";
  "γεννήτριες Lorem Ipsum στο διαδίκτυο τείνουν να επαναλαμβάνουν προκαθορισμένα κομμάτια του Lorem Ipsum κατά απαίτηση, ";
  "καθιστώνας την παρούσα γεννήτρια την πρώτη πραγματική γεννήτρια στο διαδίκτυο. Χρησιμοποιεί ένα λεξικό με πάνω από 200 ";
  "λατινικές λέξεις, συνδυασμένες με ένα εύχρηστο μοντέλο σύνταξης προτάσεων, ώστε να παράγει Lorem Ipsum που δείχνει ";
  "λογικό. Από εκεί και πέρα, το Lorem Ipsum παραμένει πάντα ανοιχτό σε επαναλήψεις, ενσωμάτωση χιούμορ, μη κατανοητές ";
  "λέξεις κλπ.";
  "Το καθιερωμένο κομμάτι του Lorem Ipsum που χρησιμοποιείται από τον 15ο αιώνα αναπαράγεται παρακάτω για αυτούς που ";
  "ενδιαφέρονται. Οι ενότητες 1.10.32 και 1.10.33 από το de Finibus Bonorum et Malorum' από τον Σισερό επίσης ";
  "αναπαράγονται στην ακριβή αυθεντική τους μορφή, συνοδευόμενες από Αγγλικές εκδοχές από την μετάφραση του 1914 ";
  "από τον H. Rackham."
]%string.

Definition non_problematic_payload : pystr :=
  str_literal non_problematic_payload_source.

Definition problematic_payload_1 : pystr :=
  str_literal problematic_payload_1_source.

Definition problematic_payload_2 : pystr :=
  str_literal problematic_payload_2_source.

(** ** The literals are well-formed *)

Lemma str_literal_decodes parts s :
  utf8_decode (bytes_of_string (String.concat EmptyString parts)) = Ok s →
  str_literal parts = s.
Proof. unfold str_literal. by intros ->. Qed.

Lemma non_problematic_payload_scalar : Forall is_scalar non_problematic_payload.
Proof. decide_closed. Qed.

Lemma problematic_payload_1_scalar : Forall is_scalar problematic_payload_1.
Proof. decide_closed. Qed.

Lemma problematic_payload_2_scalar : Forall is_scalar problematic_payload_2.
Proof. decide_closed. Qed.

(** The second payload is the first one with more text after it. *)
Lemma problematic_payload_1_prefix :
  problematic_payload_1 `prefix_of` problematic_payload_2.
Proof.
  exists (drop (length problematic_payload_1) problematic_payload_2).
  by vm_compute.
Qed.

(** The first long payload has no carriage return: read from a file in
    text mode it would come back as it is. *)
Lemma problematic_payload_1_no_cr : 13 ∉ problematic_payload_1.
Proof. decide_closed. Qed.

(** ** Lengths *)


Lemma non_problematic_payload_length :
  py_len non_problematic_payload = 146 ∧
  utf8_length non_problematic_payload = 156.
Proof. by vm_compute. Qed.
