(* ===== verification/Service.v ===== *)
(** * Service: the persistence service the scripts call

    The scripts reach the database through two calls of the client
    libraries: [neomodel.db.set_connection(url)] and
    [SomeEntity(payload=...).save()].  The class [Persistence] is that
    interface, over a state [DB] of the service; the class [UniqueIndex]
    states what the declaration [StringProperty(unique_index=True)] asks of
    it.  The theorems on the scripts are proved for every instance.

    [ref_db] is a reference instance, written from the specification: a
    store with a unique index on [payload] and a cap on the size of a key.
    It stands for a server that behaves; the defect the repository
    documents is not part of it.  Its invariant [ref_wf] says that the
    stored nodes are as the declaration of [SomeEntity] asks. *)

From Stdlib Require Import ZArith Lia.
From stdpp Require Import base list numbers strings relations.
From S2P Require Import Prelude Python TruncateSpec Codec Utf8.

#[local] Open Scope Z_scope.

(** ** The entity *)

(** [class SomeEntity(neomodel.StructuredNode)]: the identifier the
    library gives a node when it is saved, and the indexed text. *)
Record SomeEntity : Type := {
  serial_num : option nat;
  payload : pyvalue;
}.

#[export] Instance SomeEntity_eq_dec : EqDecision SomeEntity.
Proof. solve_decision. Defined.

(** [SomeEntity(payload=v)] *)
Definition new_entity (v : pyvalue) : SomeEntity :=
  {| serial_num := None; payload := v |}.

(** ** The interface *)

Class Persistence (DB : Type) : Type := {
  (** [neomodel.db.set_connection(url)]; may raise [ServiceUnavailable] *)
  set_connection : string → DB → outcome unit * DB;
  (** [entity.save()]; may raise [DatabaseError] and other errors *)
  save : SomeEntity → DB → outcome SomeEntity * DB;
}.

(** A service that enforces the unique index: [stored] lists the payloads
    it holds; a payload that is held is refused, with an error that is not
    a [DatabaseError]. *)
Class UniqueIndex (DB : Type) `{!Persistence DB} : Type := {
  stored : DB → list pyvalue;
  set_connection_stored url d :
    stored (set_connection url d).2 = stored d;
  save_stored e d :
    stored (save e d).2 =
      match (save e d).1 with
      | Ok _ => payload e :: stored d
      | _ => stored d
      end;
  save_duplicate e d :
    payload e ∈ stored d →
    ∃ x, (save e d).1 = Raise x ∧ is_DatabaseError x = false;
}.

(** ** A reference instance *)

(** The size of a value as an index key, in bytes. *)
Definition key_size (v : pyvalue) : Z :=
  match v with
  | VStr s => utf8_length s
  | VBytearray b => py_len b
  end.

Record ref_db : Type := {
  reachable : bool;
  connected : bool;
  nodes : list SomeEntity;
  key_cap : Z;
}.

Definition ref_set_connection (url : string) (d : ref_db)
    : outcome unit * ref_db :=
  if reachable d then
    (Ok tt, {| reachable := true; connected := true;
               nodes := nodes d; key_cap := key_cap d |})
  else (Raise ServiceUnavailable, d).

Definition ref_save (e : SomeEntity) (d : ref_db)
    : outcome SomeEntity * ref_db :=
  if negb (connected d) then (Raise ServiceUnavailable, d)
  else if bool_decide (payload e ∈ payload <$> nodes d) then
    (Raise (UniqueProperty "already exists with this payload"), d)
  else if key_cap d <? key_size (payload e) then
    (Raise (DatabaseError "Property value is too long to index"), d)
  else
    let e' := {| serial_num := Some (length (nodes d));
                 payload := payload e |} in
    (Ok e', {| reachable := reachable d; connected := connected d;
               nodes := e' :: nodes d; key_cap := key_cap d |}).

#[export] Instance ref_persistence : Persistence ref_db := {|
  set_connection := ref_set_connection;
  save := ref_save;
|}.

(** A server that is up, holds nothing, and caps keys at [cap] bytes. *)
Definition fresh_db (cap : Z) : ref_db :=
  {| reachable := true; connected := false; nodes := []; key_cap := cap |}.

(** A server that is down. *)
Definition down_db (cap : Z) : ref_db :=
  {| reachable := false; connected := false; nodes := []; key_cap := cap |}.

(** What the declaration of [SomeEntity] asks of the stored nodes: the
    payloads are pairwise distinct ([unique_index=True]), each fits the
    cap on keys, and the identifiers are the numbers of the nodes in the
    order they were saved, so they are distinct as well
    ([UniqueIdProperty]). *)
Definition ref_wf (d : ref_db) : Prop :=
  NoDup (payload <$> nodes d) ∧
  Forall (λ e, key_size (payload e) ≤ key_cap d) (nodes d) ∧
  serial_num <$> nodes d = Some <$> reverse (seq 0 (length (nodes d))).

#[export] Instance ref_wf_dec d : Decision (ref_wf d).
Proof. unfold ref_wf. apply _. Defined.

(** The service as a state machine: one step per call, whether the call
    returns or raises. *)
Inductive ref_step : relation ref_db :=
| ref_step_set_connection url d : ref_step d (ref_set_connection url d).2
| ref_step_save e d : ref_step d (ref_save e d).2.

(** ** The reference instance enforces the unique index *)

Lemma ref_save_cases e d :
  ((ref_save e d).1 = Raise ServiceUnavailable ∧ (ref_save e d).2 = d ∧
     connected d = false) ∨
  ((∃ m, (ref_save e d).1 = Raise (UniqueProperty m)) ∧ (ref_save e d).2 = d ∧
     payload e ∈ payload <$> nodes d) ∨
  ((∃ m, (ref_save e d).1 = Raise (DatabaseError m)) ∧ (ref_save e d).2 = d ∧
     key_cap d < key_size (payload e)) ∨
  (∃ e', (ref_save e d).1 = Ok e' ∧ payload e' = payload e ∧
         nodes (ref_save e d).2 = e' :: nodes d ∧
         (payload e ∉ payload <$> nodes d) ∧
         key_size (payload e) ≤ key_cap d).
Proof.
  unfold ref_save. destruct (connected d) eqn:Hc; simpl; [|by left].
  case_bool_decide; simpl; [right; left; eauto|].
  destruct (Z.ltb_spec (key_cap d) (key_size (payload e))); simpl.
  - right; right; left. eauto.
  - right; right; right. eexists. eauto.
Qed.

(** The two ways a save on a connection ends when the payload fits: the
    node is stored with the next identifier, or the payload is stored
    already and the index refuses it. *)
Lemma ref_save_new e d :
  connected d = true → payload e ∉ payload <$> nodes d →
  key_size (payload e) ≤ key_cap d →
  ref_save e d =
    (Ok {| serial_num := Some (length (nodes d)); payload := payload e |},
     {| reachable := reachable d; connected := connected d;
        nodes := {| serial_num := Some (length (nodes d));
                    payload := payload e |} :: nodes d;
        key_cap := key_cap d |}).
Proof.
  intros Hc Hnew Hsize. unfold ref_save. rewrite Hc. simpl.
  rewrite bool_decide_eq_false_2 by done.
  by replace (key_cap d <? key_size (payload e)) with false by lia.
Qed.

Lemma ref_save_stored_already e d :
  connected d = true → payload e ∈ payload <$> nodes d →
  ref_save e d =
    (Raise (UniqueProperty "already exists with this payload"), d).
Proof.
  intros Hc Hin. unfold ref_save. rewrite Hc. simpl.
  by rewrite bool_decide_eq_true_2.
Qed.

Lemma ref_set_connection_up url d :
  reachable d = true →
  ref_set_connection url d =
    (Ok tt, {| reachable := true; connected := true; nodes := nodes d;
               key_cap := key_cap d |}).
Proof. intros Hr. unfold ref_set_connection. by rewrite Hr. Qed.

Lemma ref_set_connection_stored url d :
  payload <$> nodes (ref_set_connection url d).2 = payload <$> nodes d.
Proof. unfold ref_set_connection. by destruct (reachable d). Qed.

Lemma ref_save_stored e d :
  payload <$> nodes (ref_save e d).2 =
    match (ref_save e d).1 with
    | Ok _ => payload e :: (payload <$> nodes d)
    | _ => payload <$> nodes d
    end.
Proof.
  destruct (ref_save_cases e d)
    as [(-> & -> & _)|[([m ->] & -> & _)|[([m ->] & -> & _)
       |(e' & -> & He' & -> & _)]]]; try done.
  simpl. by rewrite He'.
Qed.

Lemma ref_save_duplicate e d :
  payload e ∈ payload <$> nodes d →
  ∃ x, (ref_save e d).1 = Raise x ∧ is_DatabaseError x = false.
Proof.
  intros Hin. unfold ref_save. destruct (connected d); simpl; [|by eexists].
  rewrite bool_decide_eq_true_2 by done. by eexists.
Qed.

#[export] Instance ref_unique_index : UniqueIndex ref_db := {|
  stored d := payload <$> nodes d;
  set_connection_stored := ref_set_connection_stored;
  save_stored := ref_save_stored;
  save_duplicate := ref_save_duplicate;
|}.

(** ** The reference instance keeps its nodes well formed *)

Lemma fresh_db_wf cap : ref_wf (fresh_db cap).
Proof. repeat split; simpl; constructor. Qed.

Lemma ref_set_connection_wf url d :
  ref_wf d → ref_wf (ref_set_connection url d).2.
Proof. unfold ref_set_connection. by destruct (reachable d). Qed.

Lemma serial_numbers_cons (l : list SomeEntity) e :
  serial_num e = Some (length l) →
  serial_num <$> l = Some <$> reverse (seq 0 (length l)) →
  serial_num <$> e :: l = Some <$> reverse (seq 0 (length (e :: l))).
Proof.
  intros He Hl. rewrite fmap_cons. simpl length.
  rewrite seq_S, reverse_snoc, fmap_cons. by rewrite He, Hl.
Qed.

Lemma ref_save_wf e d : ref_wf d → ref_wf (ref_save e d).2.
Proof.
  intros (Hdup & Hcap & Hser).
  destruct (ref_save_cases e d)
    as [(_ & -> & _)|[(_ & -> & _)|[(_ & -> & _)
       |(e' & Hr & He' & Hn & Hnew & Hsize)]]]; [done..|].
  assert (serial_num e' = Some (length (nodes d)) ∧
          key_cap (ref_save e d).2 = key_cap d) as [Hid Hk].
  { revert Hr. unfold ref_save. repeat case_match; try done.
    by intros [= <-]. }
  unfold ref_wf. rewrite Hn, Hk. split; [|split].
  - rewrite fmap_cons, He'. by constructor.
  - constructor; [by rewrite He'|done].
  - by apply serial_numbers_cons.
Qed.

Lemma ref_step_wf d d' : ref_step d d' → ref_wf d → ref_wf d'.
Proof.
  intros [url d0|e d0]; [apply ref_set_connection_wf|apply ref_save_wf].
Qed.

(** A step keeps the cap and the nodes that are stored; it adds at most
    one node. *)
Lemma ref_step_nodes d d' :
  ref_step d d' →
  key_cap d' = key_cap d ∧ (nodes d' = nodes d ∨ ∃ e, nodes d' = e :: nodes d).
Proof.
  intros [url d0|e d0].
  - unfold ref_set_connection. destruct (reachable d0); auto.
  - destruct (ref_save_cases e d0)
      as [(_ & -> & _)|[(_ & -> & _)|[(_ & -> & _)|(e' & Hr & _ & Hn & _)]]];
      [auto..|].
    split; [|eauto]. revert Hr. unfold ref_save. by repeat case_match.
Qed.

(** The identifiers of a well-formed service are pairwise distinct. *)
Lemma ref_wf_serial_NoDup d : ref_wf d → NoDup (serial_num <$> nodes d).
Proof.
  intros (_ & _ & ->). apply (NoDup_fmap_2 _).
  rewrite reverse_Permutation. apply NoDup_seq.
Qed.

(** C30 (invariant).  Whatever sequence of calls the reference service
    receives from a well-formed state, and whether they return or
    raise, it stays as the declaration of [SomeEntity] asks: the stored
    payloads are pairwise distinct and within the cap on keys, the
    identifiers are distinct; it keeps its cap, and never loses a node:
    the nodes it had are the oldest of the nodes it has. *)
Theorem ref_reachable_wf d d' :
  ref_wf d → rtc ref_step d d' →
  ref_wf d' ∧ NoDup (serial_num <$> nodes d') ∧
  key_cap d' = key_cap d ∧ nodes d `suffix_of` nodes d'.
Proof.
  intros Hd Hsteps.
  enough (ref_wf d' ∧ key_cap d' = key_cap d ∧ nodes d `suffix_of` nodes d')
    as (? & ? & ?) by eauto using ref_wf_serial_NoDup.
  induction Hsteps as [d|d d1 d2 Hstep _ IH]; [done|].
  destruct (ref_step_nodes d d1 Hstep) as [Hcap Hnodes].
  destruct IH as (Hwf & Hk & Hsuf); [by eapply ref_step_wf|].
  split; [done|]. split; [congruence|]. etrans; [|exact Hsuf].
  destruct Hnodes as [->|[e ->]]; [done|by apply suffix_cons_r].
Qed.

Lemma ref_reachable_wf_witness :
  ref_wf (ref_save (new_entity (VStr [104; 105]))
            (ref_set_connection "bolt://localhost" (fresh_db 4095)).2).2.
Proof.
  eapply (ref_reachable_wf (fresh_db 4095)); [apply fresh_db_wf|].
  eapply rtc_l; [apply ref_step_set_connection|].
  apply rtc_once, ref_step_save.
Defined.
