(* ===== verification/Process.v ===== *)
(** * Process: a script as a computation on the state of its process

    What a script of [src/src/] can see and change: the environment
    variables, the files of the working directory, the error stream and
    the persistence service.  A [prog] threads that state through the
    statements of the script and stops at the first exception that no
    handler takes; [try_except] is the statement [try: ... except C: ...].

    The state carries a log of the calls made to the service, in order.
    The log is not part of the program; it is what the theorems on the
    scripts speak about. *)

From Stdlib Require Import ZArith Lia.
From stdpp Require Import base list numbers strings gmap.
From S2P Require Import Prelude Python TruncateSpec Codec Utf8 Service.

#[local] Open Scope Z_scope.

(** ** The state of the process *)

Inductive call : Type :=
| CallSetConnection (url : string)
| CallSave (e : SomeEntity).

#[export] Instance call_eq_dec : EqDecision call.
Proof. solve_decision. Defined.

Definition is_CallSave (c : call) : bool :=
  match c with CallSave _ => true | _ => false end.

Record world (DB : Type) : Type := World {
  environ : gmap string string;
  files : gmap string bytes;
  stderr : list string;
  calls : list call;
  db : DB;
}.
Arguments World {DB} _ _ _ _ _.
Arguments environ {DB} _.
Arguments files {DB} _.
Arguments stderr {DB} _.
Arguments calls {DB} _.
Arguments db {DB} _.

(** ** Programs *)

Definition prog (DB A : Type) : Type := world DB → outcome A * world DB.

(** How the process ends: the status it exits with.  An exception that
    reaches the top level ends it with status 1, except [SystemExit],
    which carries the status. *)
Definition exit_code {A} (r : outcome A) : option Z :=
  match r with
  | Ok _ => Some 0
  | Raise (SystemExit code) => Some code
  | Raise _ => Some 1
  | OutOfFuel => None
  end.

Section Prog.
Context {DB : Type}.

Definition ret {A} (a : A) : prog DB A := λ w, (Ok a, w).

Definition raise {A} (e : exn) : prog DB A := λ w, (Raise e, w).

(** A computation that does not touch the state. *)
Definition lift {A} (m : outcome A) : prog DB A := λ w, (m, w).

Definition seq {A B} (m : prog DB A) (k : A → prog DB B) : prog DB B :=
  λ w,
    match m w with
    | (Ok a, w') => k a w'
    | (Raise e, w') => (Raise e, w')
    | (OutOfFuel, w') => (OutOfFuel, w')
    end.

(** [try: m except C: h], where [catches e] says that [e] is an instance
    of the class [C].  The handler runs in the state the body left. *)
Definition try_except {A} (m : prog DB A) (catches : exn → bool)
    (h : exn → prog DB A) : prog DB A :=
  λ w,
    match m w with
    | (Raise e, w') => if catches e then h e w' else (Raise e, w')
    | r => r
    end.

#[export] Instance prog_ret : MRet (prog DB) := @ret.
#[export] Instance prog_bind : MBind (prog DB) := λ A B k m, seq m k.

(** ** The runtime *)

(** [os.environ[key]] *)
Definition environ_getitem (key : string) : prog DB string :=
  λ w,
    match environ w !! key with
    | Some v => (Ok v, w)
    | None => (Raise (KeyError key), w)
    end.

(** [sys.stderr.write(s)] *)
Definition stderr_write (s : string) : prog DB unit :=
  λ w, (Ok tt, World (environ w) (files w) (stderr w ++ [s]) (calls w) (db w)).

(** [sys.exit(code)] *)
Definition sys_exit {A} (code : Z) : prog DB A := raise (SystemExit code).

(** Text mode with the default [newline]: the line ends [\r\n] and [\r]
    are read as [\n]. *)
Fixpoint universal_newlines (s : pystr) : pystr :=
  match s with
  | [] => []
  | c :: r =>
      if c =? 13 then
        10 :: match r with
              | [] => []
              | c' :: r' =>
                  if c' =? 10 then universal_newlines r'
                  else universal_newlines r
              end
      else c :: universal_newlines r
  end.

(** [with open(name, "rt", encoding="utf-8") as fd: ... fd.read()] *)
Definition open_read (name : string) : prog DB pystr :=
  λ w,
    match files w !! name with
    | None => (Raise (OSError name), w)
    | Some content =>
        (let* s := utf8_decode content in Ok (universal_newlines s), w)
    end.

(** ** The calls to the service *)

Context `{!Persistence DB}.

(** [neomodel.db.set_connection(url)] *)
Definition db_set_connection (url : string) : prog DB unit :=
  λ w,
    let r := set_connection url (db w) in
    (r.1, World (environ w) (files w) (stderr w)
                (calls w ++ [CallSetConnection url]) r.2).

(** [e.save()] *)
Definition entity_save (e : SomeEntity) : prog DB SomeEntity :=
  λ w,
    let r := save e (db w) in
    (r.1, World (environ w) (files w) (stderr w)
                (calls w ++ [CallSave e]) r.2).

End Prog.

(** ** Line ends *)

Lemma universal_newlines_no_cr s : 13 ∉ universal_newlines s.
Proof.
  induction s as [s IH] using list_length_ind.
  destruct s as [|c r]; simpl; [by apply not_elem_of_nil|].
  destruct (Z.eqb_spec c 13) as [->|Hc].
  - apply not_elem_of_cons. split; [done|].
    destruct r as [|c' r']; [by apply not_elem_of_nil|].
    destruct (c' =? 10); apply IH; simpl; lia.
  - apply not_elem_of_cons. split; [done|]. apply IH. simpl. lia.
Qed.

Lemma universal_newlines_id s : 13 ∉ s → universal_newlines s = s.
Proof.
  induction s as [|c r IH]; [done|]. intros [Hc Hr]%not_elem_of_cons.
  simpl. destruct (Z.eqb_spec c 13); [done|]. by rewrite IH.
Qed.

Lemma universal_newlines_Forall (P : Z → Prop) s :
  P 10 → Forall P s → Forall P (universal_newlines s).
Proof.
  intros H10. induction s as [s IH] using list_length_ind. intros Hs.
  destruct s as [|c r]; simpl; [constructor|].
  apply Forall_cons_1 in Hs as [Hc Hr].
  destruct (c =? 13); constructor; try done; [|apply IH; simpl; [lia|done]].
  destruct r as [|c' r']; [constructor|].
  apply Forall_cons_1 in Hr as [Hc' Hr'].
  destruct (c' =? 10); apply IH; simpl; try lia; [done|by constructor].
Qed.

(** ** Running a program, step by step *)

(** The outcome of a statement whose value is dropped. *)
Definition void {A} (r : outcome A) : outcome unit := let* _ := r in Ok tt.

Section Run.
Context {DB : Type}.
Implicit Types (w : world DB) (e : exn).

Lemma run_bind {A B} (m : prog DB A) (k : A → prog DB B) w :
  (m ≫= k) w = seq m k w.
Proof. done. Qed.

Lemma run_bind_Ok {A B} (m : prog DB A) (k : A → prog DB B) w a w' :
  m w = (Ok a, w') → (m ≫= k) w = k a w'.
Proof. rewrite run_bind. unfold seq. by intros ->. Qed.

Lemma run_bind_Raise {A B} (m : prog DB A) (k : A → prog DB B) w e w' :
  m w = (Raise e, w') → (m ≫= k) w = (Raise e, w').
Proof. rewrite run_bind. unfold seq. by intros ->. Qed.

Lemma run_bind_OutOfFuel {A B} (m : prog DB A) (k : A → prog DB B) w w' :
  m w = (OutOfFuel, w') → (m ≫= k) w = (OutOfFuel, w').
Proof. rewrite run_bind. unfold seq. by intros ->. Qed.

Lemma run_bind_assoc {A B C} (m : prog DB A) (k : A → prog DB B)
    (k' : B → prog DB C) w :
  ((m ≫= k) ≫= k') w = (m ≫= (λ a, k a ≫= k')) w.
Proof.
  rewrite !run_bind. unfold seq. rewrite !run_bind. unfold seq.
  by destruct (m w) as [[a|e|] w'].
Qed.

Lemma run_try_Ok {A} (m : prog DB A) catches h w a w' :
  m w = (Ok a, w') → try_except m catches h w = (Ok a, w').
Proof. unfold try_except. by intros ->. Qed.

Lemma run_try_caught {A} (m : prog DB A) catches h w e w' :
  m w = (Raise e, w') → catches e = true →
  try_except m catches h w = h e w'.
Proof. unfold try_except. intros -> Hc. simpl. by rewrite Hc. Qed.

Lemma run_try_passed {A} (m : prog DB A) catches h w e w' :
  m w = (Raise e, w') → catches e = false →
  try_except m catches h w = (Raise e, w').
Proof. unfold try_except. intros -> Hc. simpl. by rewrite Hc. Qed.

(** A [try] that catches is a [try] whose body returned or raised. *)
Lemma run_try_cases {A} (m : prog DB A) catches h w :
  try_except m catches h w = m w ∨
  ∃ e, (m w).1 = Raise e ∧ catches e = true ∧
       try_except m catches h w = h e (m w).2.
Proof.
  unfold try_except. destruct (m w) as [[a|e|] w']; eauto.
  destruct (catches e) eqn:He; eauto.
Qed.

Lemma environ_getitem_Some w key v :
  environ w !! key = Some v → environ_getitem key w = (Ok v, w).
Proof. unfold environ_getitem. by intros ->. Qed.

Lemma environ_getitem_None w key :
  environ w !! key = None → environ_getitem key w = (Raise (KeyError key), w).
Proof. unfold environ_getitem. by intros ->. Qed.

(** A sequence that returns: its first statement returned. *)
Lemma run_bind_Ok_inv {A B} (m : prog DB A) (k : A → prog DB B) w b :
  ((m ≫= k) w).1 = Ok b → ∃ a, (m w).1 = Ok a ∧ (m ≫= k) w = k a (m w).2.
Proof.
  rewrite run_bind. unfold seq. destruct (m w) as [[a|e|] w']; [eauto|done..].
Qed.

(** A sequence whose first statement does not return ends there. *)
Lemma run_bind_stop {A B} (m : prog DB A) (k : A → prog DB B) w :
  ¬ is_Ok (m w).1 →
  ¬ is_Ok ((m ≫= k) w).1 ∧ ((m ≫= k) w).2 = (m w).2.
Proof.
  rewrite run_bind. unfold seq, is_Ok. intros Hn.
  destruct (m w) as [[a|e|] w']; simpl in *;
    [destruct Hn; by eexists|by split; [intros [? ?]|]..].
Qed.

Lemma open_read_missing name w :
  files w !! name = None → open_read name w = (Raise (OSError name), w).
Proof. unfold open_read. by intros ->. Qed.

Lemma open_read_state name w : (open_read name w).2 = w.
Proof. unfold open_read. by destruct (files w !! name). Qed.

Lemma open_read_Some name w content s :
  files w !! name = Some content → utf8_decode content = Ok s →
  open_read name w = (Ok (universal_newlines s), w).
Proof. unfold open_read. by intros -> ->. Qed.

(** What a file is read as: Unicode scalar values. *)
Lemma open_read_scalar name w s :
  (open_read name w).1 = Ok s → Forall is_scalar s.
Proof.
  unfold open_read. destruct (files w !! name) as [content|]; [|done].
  simpl. intros (d & Hd%utf8_decode_scalar & [= <-])%bind_Ok_inv.
  by apply universal_newlines_Forall.
Qed.

Lemma exit_code_SystemExit {A} code :
  exit_code (A := A) (Raise (SystemExit code)) = Some code.
Proof. done. Qed.
End Run.

(** ** What a program leaves as it found it

    A relation [R] between the state before and the state after that is
    reflexive and transitive holds of a whole program when it holds of
    each statement. *)

Definition keeps {DB A} (R : relation (world DB)) (m : prog DB A) : Prop :=
  ∀ w, R w (m w).2.

Section Keeps.
Context {DB : Type} (R : relation (world DB)) `{!PreOrder R}.

Lemma keeps_ret {A} (a : A) : keeps R (ret a).
Proof. intros w. reflexivity. Qed.

Lemma keeps_mret {A} (a : A) : keeps R (mret a : prog DB A).
Proof. apply keeps_ret. Qed.

Lemma keeps_raise {A} e : keeps R (raise (A := A) e).
Proof. intros w. reflexivity. Qed.

Lemma keeps_sys_exit {A} code : keeps R (sys_exit (A := A) code).
Proof. apply keeps_raise. Qed.

Lemma keeps_lift {A} (m : outcome A) : keeps R (lift m).
Proof. intros w. reflexivity. Qed.

Lemma keeps_environ_getitem key : keeps R (environ_getitem key).
Proof.
  intros w. unfold environ_getitem. by destruct (environ w !! key).
Qed.

Lemma keeps_open_read name : keeps R (open_read name).
Proof. intros w. by rewrite open_read_state. Qed.

Lemma keeps_bind {A B} (m : prog DB A) (k : A → prog DB B) :
  keeps R m → (∀ a, keeps R (k a)) → keeps R (m ≫= k).
Proof.
  intros Hm Hk w. rewrite run_bind. unfold seq. specialize (Hm w).
  destruct (m w) as [[a|e|] w']; simpl; [|done..]. etrans; [done|]. apply Hk.
Qed.

Lemma keeps_bind_pair {A1 A2 B} (m : prog DB (A1 * A2))
    (k : A1 * A2 → prog DB B) :
  keeps R m → (∀ a1 a2, keeps R (k (a1, a2))) → keeps R (m ≫= k).
Proof. intros Hm Hk. apply keeps_bind; [done|]. by intros [a1 a2]. Qed.

(** What is known of the value of the first statement can be used for
    the statements that follow. *)
Lemma keeps_bind_val {A B} (Q : A → Prop) (m : prog DB A)
    (k : A → prog DB B) :
  (∀ w a, (m w).1 = Ok a → Q a) → keeps R m → (∀ a, Q a → keeps R (k a)) →
  keeps R (m ≫= k).
Proof.
  intros HQ Hm Hk w. rewrite run_bind. unfold seq.
  specialize (Hm w). specialize (HQ w).
  destruct (m w) as [[a|e|] w']; simpl in *; [|done..].
  etrans; [done|]. by apply Hk, HQ.
Qed.

(** The statements after a computation that does not touch the state
    run only when it returns. *)
Lemma keeps_bind_lift {A B} (m : outcome A) (k : A → prog DB B) :
  (∀ a, m = Ok a → keeps R (k a)) → keeps R (lift m ≫= k).
Proof.
  intros Hk w. rewrite run_bind. unfold seq, lift. simpl.
  destruct m; simpl; [by apply Hk|done..].
Qed.

(** What follows the first statement starts from the state it left. *)
Lemma keeps_bind_tail {A B}  (m : prog DB A) (k : A → prog DB B) w :
  (∀ a, keeps R (k a)) → R (m w).2 ((m ≫= k) w).2.
Proof.
  intros Hk. rewrite run_bind. unfold seq.
  destruct (m w) as [[a|e|] w']; simpl; [apply Hk|done..].
Qed.

(** A sequence that returns: its first statement returned, and left a
    state related to the first. *)
Lemma run_bind_Ok_keeps {A B} (m : prog DB A) (k : A → prog DB B) w b :
  keeps R m → ((m ≫= k) w).1 = Ok b →
  ∃ a w1, R w w1 ∧ (m ≫= k) w = k a w1.
Proof.
  intros Hm (a & Ha & Heq)%run_bind_Ok_inv. exists a, (m w).2. eauto.
Qed.

(** Two sequences with the same first statement agree when what
    follows agrees on the states the first statement can leave. *)
Lemma run_bind_ext {A B} (m : prog DB A) (k1 k2 : A → prog DB B) w :
  keeps R m → (∀ a w', R w w' → k1 a w' = k2 a w') →
  (m ≫= k1) w = (m ≫= k2) w.
Proof.
  intros Hm Hk. rewrite !run_bind. unfold seq. specialize (Hm w).
  destruct (m w) as [[a|e|] w']; [by apply Hk|done..].
Qed.

Lemma keeps_try_except {A} (m : prog DB A) catches h :
  keeps R m → (∀ e, keeps R (h e)) → keeps R (try_except m catches h).
Proof.
  intros Hm Hh w.
  destruct (run_try_cases m catches h w) as [->|(e & _ & _ & ->)]; [done|].
  etrans; [apply Hm|apply Hh].
Qed.
End Keeps.

Create HintDb keeps discriminated.
#[export] Hint Constants Opaque : keeps.
#[export] Hint Resolve keeps_ret keeps_mret keeps_raise keeps_sys_exit
  keeps_lift keeps_environ_getitem keeps_open_read keeps_bind
  keeps_try_except : keeps.

(** Take a program apart along its sequences and its [try] blocks, and
    close each statement with the hints. *)
Ltac keeps_step :=
  match goal with
  | |- PreOrder _ => apply _
  | |- keeps _ (try_except _ _ _) => apply keeps_try_except
  | |- keeps _ (lift _) => apply keeps_lift
  | |- keeps _ (mret _) => apply keeps_mret
  | |- keeps _ (sys_exit _) => apply keeps_sys_exit
  | |- keeps _ (@mbind _ _ (prod _ _) _ _ _) => apply keeps_bind_pair
  | |- keeps _ (_ ≫= _) => apply keeps_bind
  | |- ∀ _, _ => intros
  | |- keeps _ _ => solve [eauto 3 with keeps]
  end.
Ltac solve_keeps := repeat keeps_step.

(** ** Two such relations *)

Section Frames.
Context {DB : Type}.
Implicit Types (w : world DB).

(** The program has only added to the error stream and to the log of
    calls; the environment and the files are as they were. *)
Definition grows : relation (world DB) := λ w w',
  environ w' = environ w ∧ files w' = files w ∧
  stderr w `prefix_of` stderr w' ∧ calls w `prefix_of` calls w'.

(** The calls the program has made all satisfy [P]. *)
Definition emits (P : call → Prop) : relation (world DB) := λ w w',
  ∃ l, calls w' = calls w ++ l ∧ Forall P l.

(** The payloads the program has asked to save all satisfy [Q]. *)
Definition saves (Q : pyvalue → Prop) : call → Prop := λ c,
  ∀ e, c = CallSave e → Q (payload e).

#[export] Instance grows_preorder : PreOrder grows.
Proof.
  split.
  - by intros w.
  - intros w1 w2 w3 (? & ? & ? & ?) (? & ? & ? & ?).
    repeat split; by etrans.
Qed.

#[export] Instance emits_preorder P : PreOrder (emits P).
Proof.
  split.
  - intros w. exists []. by rewrite app_nil_r.
  - intros w1 w2 w3 (l1 & H1 & ?) (l2 & H2 & ?). exists (l1 ++ l2).
    split; [by rewrite H2, H1, app_assoc|by apply Forall_app].
Qed.

Lemma emits_mono (P Q : call → Prop) w w' :
  (∀ c, P c → Q c) → emits P w w' → emits Q w w'.
Proof. intros HPQ (l & ? & Hl). exists l. eauto using Forall_impl. Qed.

Lemma keeps_grows_stderr_write s : keeps grows (stderr_write (DB := DB) s).
Proof. intros w. repeat split; simpl; [by apply prefix_app_r|done]. Qed.

Lemma keeps_grows_open_read name : keeps grows (open_read (DB := DB) name).
Proof. intros w. unfold open_read. by destruct (files w !! name). Qed.

Lemma keeps_emits_stderr_write P s :
  keeps (emits P) (stderr_write (DB := DB) s).
Proof. intros w. exists []. by rewrite app_nil_r. Qed.

Lemma keeps_emits_open_read P name :
  keeps (emits P) (open_read (DB := DB) name).
Proof.
  intros w. unfold open_read. exists []. rewrite app_nil_r.
  by destruct (files w !! name).
Qed.

Context `{!Persistence DB}.

Lemma keeps_grows_db_set_connection url :
  keeps grows (db_set_connection url).
Proof. intros w. repeat split; simpl; [done|by apply prefix_app_r]. Qed.

Lemma keeps_grows_entity_save e : keeps grows (entity_save e).
Proof. intros w. repeat split; simpl; [done|by apply prefix_app_r]. Qed.

Lemma keeps_emits_db_set_connection (P : call → Prop) url :
  P (CallSetConnection url) → keeps (emits P) (db_set_connection url).
Proof. intros HP w. exists [CallSetConnection url]. by repeat constructor. Qed.

Lemma keeps_emits_entity_save (P : call → Prop) e :
  P (CallSave e) → keeps (emits P) (entity_save e).
Proof. intros HP w. exists [CallSave e]. by repeat constructor. Qed.
End Frames.

#[export] Hint Resolve grows_preorder emits_preorder : keeps.
#[export] Hint Resolve keeps_grows_stderr_write keeps_grows_open_read
  keeps_emits_stderr_write keeps_emits_open_read
  keeps_grows_db_set_connection keeps_grows_entity_save
  keeps_emits_db_set_connection keeps_emits_entity_save : keeps.

(** ** The log of calls is ghost state

    Two states that differ in the log only are equivalent; a program
    respects the equivalence when, run from equivalent states, it gives
    the same outcome and equivalent states. *)

Definition same_but_calls {DB} : relation (world DB) := λ w1 w2,
  environ w1 = environ w2 ∧ files w1 = files w2 ∧
  stderr w1 = stderr w2 ∧ db w1 = db w2.

Definition same_run {DB A} : relation (outcome A * world DB) := λ r1 r2,
  r1.1 = r2.1 ∧ same_but_calls r1.2 r2.2.

#[export] Instance same_but_calls_equivalence {DB} :
  Equivalence (same_but_calls (DB := DB)).
Proof.
  unfold same_but_calls. split.
  - by intros w.
  - by intros w1 w2 (-> & -> & -> & ->).
  - by intros w1 w2 w3 (-> & -> & -> & ->).
Qed.

Abbreviation respects m := (Proper (same_but_calls ==> same_run) m).

Section Ghost.
Context {DB : Type}.
Implicit Types (w : world DB).

Lemma respects_pure {A} (r : outcome A) : respects (λ w : world DB, (r, w)).
Proof. intros w1 w2 Hw. by split. Qed.

#[export] Instance mret_respects {A} (a : A) : respects (mret a : prog DB A).
Proof. apply respects_pure. Qed.

#[export] Instance lift_respects {A} (m : outcome A) :
  respects (lift (DB := DB) m).
Proof. apply respects_pure. Qed.

#[export] Instance sys_exit_respects {A} code :
  respects (sys_exit (DB := DB) (A := A) code).
Proof. apply respects_pure. Qed.

#[export] Instance environ_getitem_respects key :
  respects (environ_getitem (DB := DB) key).
Proof.
  intros w1 w2 Hw. unfold environ_getitem. pose proof Hw as (<- & _).
  destruct (environ w1 !! key); by split.
Qed.

#[export] Instance stderr_write_respects s :
  respects (stderr_write (DB := DB) s).
Proof. intros w1 w2 (? & ? & ? & ?). repeat split; simpl; congruence. Qed.

#[export] Instance open_read_respects name :
  respects (open_read (DB := DB) name).
Proof.
  intros w1 w2 Hw. unfold open_read. pose proof Hw as (_ & <- & _).
  destruct (files w1 !! name); by split.
Qed.

#[export] Instance bind_respects {A B} (m : prog DB A) (k : A → prog DB B) :
  respects m → (∀ a, respects (k a)) → respects (m ≫= k).
Proof.
  intros Hm Hk w1 w2 Hw. rewrite !run_bind. unfold seq.
  destruct (Hm w1 w2 Hw) as [Ho Hw'].
  destruct (m w1) as [o1 w1'], (m w2) as [o2 w2']; simpl in *; subst o2.
  destruct o1; [by apply Hk|done..].
Qed.

Lemma bind_pair_respects {A1 A2 B} (m : prog DB (A1 * A2))
    (k : A1 * A2 → prog DB B) :
  respects m → (∀ a1 a2, respects (k (a1, a2))) → respects (m ≫= k).
Proof. intros Hm Hk. apply bind_respects; [done|]. by intros [a1 a2]. Qed.

#[export] Instance try_except_respects {A} (m : prog DB A) catches h :
  respects m → (∀ e, respects (h e)) → respects (try_except m catches h).
Proof.
  intros Hm Hh w1 w2 Hw. unfold try_except.
  destruct (Hm w1 w2 Hw) as [Ho Hw'].
  destruct (m w1) as [o1 w1'], (m w2) as [o2 w2']; simpl in *; subst o2.
  destruct o1 as [a|e|]; [done| |done].
  destruct (catches e); [by apply Hh|done].
Qed.

Context `{!Persistence DB}.

#[export] Instance db_set_connection_respects url :
  respects (db_set_connection url).
Proof.
  intros w1 w2 (? & ? & ? & Hdb). unfold db_set_connection.
  rewrite Hdb. repeat split; simpl; congruence.
Qed.

#[export] Instance entity_save_respects e : respects (entity_save e).
Proof.
  intros w1 w2 (? & ? & ? & Hdb). unfold entity_save.
  rewrite Hdb. repeat split; simpl; congruence.
Qed.
End Ghost.

(** Take a program apart, as [solve_keeps] does, and close each
    statement with its instance. *)
Ltac respects_step :=
  match goal with
  | |- Proper _ (try_except _ _ _) => apply try_except_respects
  | |- Proper _ (@mbind _ _ (prod _ _) _ _ _) => apply bind_pair_respects
  | |- Proper _ (_ ≫= _) => apply bind_respects
  | |- ∀ _, _ => intros
  | |- Proper _ _ => apply _
  end.
Ltac solve_respects := repeat respects_step.

(** ** Reading a text file *)

(** C29 (roundtrip).  Reading a file that holds the UTF-8 encoding of a
    text returns the text with its line ends read as [\n], and leaves
    the state as it was: no carriage return remains, and a text without
    carriage returns comes back unchanged. *)
Theorem open_read_returns_text {DB} (w : world DB) name content s :
  files w !! name = Some content → utf8_encode s = Ok content →
  open_read name w = (Ok (universal_newlines s), w) ∧
  (13 ∉ universal_newlines s) ∧
  (13 ∉ s → open_read name w = (Ok s, w)).
Proof.
  intros Hf Hs%utf8_decode_encode.
  pose proof (open_read_Some name w content s Hf Hs) as Hread.
  split; [done|]. split; [apply universal_newlines_no_cr|].
  intros Hcr. by rewrite Hread, universal_newlines_id.
Qed.

Lemma open_read_returns_text_witness :
  open_read "a.txt" (World ∅ {["a.txt" := [0xCE; 0xB1; 13; 10; 0x68]]} [] [] tt)
    = (Ok [0x3B1; 10; 0x68],
       World ∅ {["a.txt" := [0xCE; 0xB1; 13; 10; 0x68]]} [] [] tt).
Proof.
  apply (open_read_returns_text
           (World ∅ {["a.txt" := [0xCE; 0xB1; 13; 10; 0x68]]} [] [] tt)
           "a.txt" [0xCE; 0xB1; 13; 10; 0x68] [0x3B1; 13; 10; 0x68]);
    by vm_compute.
Defined.
