(* ===== verification/Calls.v ===== *)
(** * Calls: a script as a tree of calls

    A script does five things to the world around it: it reads an
    environment variable, writes to the error stream, reads a text file,
    sets the connection and saves a node.  Everything else it computes.
    A [proc] is a script seen from outside: a tree whose nodes are those
    calls, each with what the script does next for every answer, the
    answer being a value or an exception.  [try: ... except] and
    sequencing are functions on trees.

    [interp] runs a tree on a state, one call at a time, as the programs
    of [Process] do; [trace_of] is the sequence of calls made, each with
    its answer, and [lstep] the same as a labelled step relation.  The
    error stream and the log of calls of [Process] are projections of
    the trace. *)

From Stdlib Require Import ZArith Lia.
From stdpp Require Import base list numbers strings gmap.
From S2P Require Import Prelude Python TruncateSpec Codec Utf8 Service Process.

(** ** Calls and events *)

Variant op : Type → Type :=
| GetEnv (key : string) : op string
| StderrWrite (s : string) : op unit
| OpenRead (name : string) : op pystr
| SetConnection (url : string) : op unit
| Save (e : SomeEntity) : op SomeEntity.

(** A call with its answer. *)
Inductive event : Type :=
| EGetEnv (key : string) (r : outcome string)
| EStderrWrite (s : string) (r : outcome unit)
| EOpenRead (name : string) (r : outcome pystr)
| ESetConnection (url : string) (r : outcome unit)
| ESave (e : SomeEntity) (r : outcome SomeEntity).

#[export] Instance event_eq_dec : EqDecision event.
Proof. solve_decision. Defined.

Definition event_of {X} (o : op X) : outcome X → event :=
  match o with
  | GetEnv key => EGetEnv key
  | StderrWrite s => EStderrWrite s
  | OpenRead name => EOpenRead name
  | SetConnection url => ESetConnection url
  | Save e => ESave e
  end.

(** What the error stream shows of an event, and what the log of calls
    of [Process] keeps of it. *)
Definition written (ev : event) : option string :=
  match ev with EStderrWrite s _ => Some s | _ => None end.

Definition logged (ev : event) : option call :=
  match ev with
  | ESetConnection url _ => Some (CallSetConnection url)
  | ESave e _ => Some (CallSave e)
  | _ => None
  end.

(** ** Trees *)

Inductive proc (A : Type) : Type :=
| Ret (r : outcome A)
| Do {X : Type} (o : op X) (k : outcome X → proc A).
Arguments Ret {A} r.
Arguments Do {A X} o k.

(** One call, its answer returned or raised. *)
Definition invoke {X} (o : op X) : proc X := Do o Ret.

Fixpoint proc_bind {A B} (m : proc A) (k : A → proc B) : proc B :=
  match m with
  | Ret (Ok a) => k a
  | Ret (Raise e) => Ret (Raise e)
  | Ret OutOfFuel => Ret OutOfFuel
  | Do o h => Do o (λ r, proc_bind (h r) k)
  end.

(** [try: m except C: h] *)
Fixpoint proc_try {A} (m : proc A) (catches : exn → bool)
    (h : exn → proc A) : proc A :=
  match m with
  | Ret (Raise e) => if catches e then h e else Ret (Raise e)
  | Ret r => Ret r
  | Do o k => Do o (λ r, proc_try (k r) catches h)
  end.

#[export] Instance proc_ret : MRet proc := λ A a, Ret (Ok a).
#[export] Instance proc_mbind : MBind proc := λ A B k m, proc_bind m k.

(** No path of the tree makes more than [n] calls. *)
Inductive within {A} : nat → proc A → Prop :=
| within_Ret n r : within n (Ret r)
| within_Do {X} n (o : op X) k :
    (∀ r, within n (k r)) → within (S n) (Do o k).

(** ** Running a tree *)

Section Run.
Context {DB : Type} `{!Persistence DB}.

(** The call, made. *)
Definition perform {X} (o : op X) : prog DB X :=
  match o with
  | GetEnv key => environ_getitem key
  | StderrWrite s => stderr_write s
  | OpenRead name => open_read name
  | SetConnection url => db_set_connection url
  | Save e => entity_save e
  end.

Fixpoint interp {A} (p : proc A) : prog DB A :=
  λ w,
    match p with
    | Ret r => (r, w)
    | Do o k => match perform o w with (r, w') => interp (k r) w' end
    end.

Fixpoint trace_of {A} (p : proc A) (w : world DB) : list event :=
  match p with
  | Ret _ => []
  | Do o k =>
      match perform o w with
      | (r, w') => event_of o r :: trace_of (k r) w'
      end
  end.

(** One call, as a step labelled with its event. *)
Inductive lstep {A} : proc A * world DB → event → proc A * world DB → Prop :=
| lstep_Do {X} (o : op X) k w :
    lstep (Do o k, w) (event_of o (perform o w).1)
          (k (perform o w).1, (perform o w).2).

Inductive lsteps {A}
    : proc A * world DB → list event → proc A * world DB → Prop :=
| lsteps_nil c : lsteps c [] c
| lsteps_cons c ev c' l c'' :
    lstep c ev c' → lsteps c' l c'' → lsteps c (ev :: l) c''.

(** One step, as a function. *)
Definition lnext {A} (c : proc A * world DB)
    : option (event * (proc A * world DB)) :=
  match c.1 with
  | Ret _ => None
  | Do o k =>
      match perform o c.2 with
      | (r, w') => Some (event_of o r, (k r, w'))
      end
  end.

(** The tree [p] run on a state is the program [m]. *)
Definition denotes {A} (p : proc A) (m : prog DB A) : Prop :=
  ∀ w, interp p w = m w.

(** ** The interpretation is a homomorphism *)

Lemma interp_bind {A B} (m : proc A) (k : A → proc B) w :
  interp (m ≫= k) w = (interp m ≫= λ a, interp (k a)) w.
Proof.
  revert w. induction m as [[a|e|]|X o h IH]; intros w; try done.
  change (interp (Do o h ≫= k) w)
    with (match perform o w with (r, w') => interp (h r ≫= k) w' end).
  rewrite run_bind. unfold seq. simpl.
  destruct (perform o w) as [r w']. by rewrite IH, run_bind.
Qed.

Lemma interp_try {A} (m : proc A) catches h w :
  interp (proc_try m catches h) w =
    try_except (interp m) catches (λ e, interp (h e)) w.
Proof.
  revert w. induction m as [[a|e|]|X o k IH]; intros w; try done.
  - unfold try_except. simpl. by destruct (catches e).
  - unfold try_except. simpl. destruct (perform o w) as [r w'].
    by rewrite IH.
Qed.

Lemma trace_of_bind {A B} (m : proc A) (k : A → proc B) w :
  trace_of (m ≫= k) w =
    trace_of m w ++
      match interp m w with
      | (Ok a, w') => trace_of (k a) w'
      | _ => []
      end.
Proof.
  revert w. induction m as [[a|e|]|X o h IH]; intros w; try done.
  change (trace_of (Do o h ≫= k) w)
    with (match perform o w with
          | (r, w') => event_of o r :: trace_of (h r ≫= k) w'
          end).
  simpl. destruct (perform o w) as [r w']. by rewrite IH.
Qed.

Lemma trace_of_try {A} (m : proc A) catches h w :
  trace_of (proc_try m catches h) w =
    trace_of m w ++
      match interp m w with
      | (Raise e, w') => if catches e then trace_of (h e) w' else []
      | _ => []
      end.
Proof.
  revert w. induction m as [[a|e|]|X o k IH]; intros w; try done.
  - simpl. by destruct (catches e).
  - simpl. destruct (perform o w) as [r w']. by rewrite IH.
Qed.

(** ** Trees and programs, piece by piece *)

Lemma denotes_Ret {A} (r : outcome A) : denotes (Ret r) (lift r).
Proof. done. Qed.

Lemma denotes_mret {A} (a : A) : denotes (mret a) (mret a).
Proof. done. Qed.

Lemma denotes_sys_exit {A} code :
  denotes (Ret (Raise (SystemExit code))) (sys_exit (A := A) code).
Proof. done. Qed.

Lemma denotes_invoke {X} (o : op X) : denotes (invoke o) (perform o).
Proof. intros w. simpl. by destruct (perform o w). Qed.

Lemma denotes_bind {A B} (p : proc A) m (k : A → proc B) k' :
  denotes p m → (∀ a, denotes (k a) (k' a)) → denotes (p ≫= k) (m ≫= k').
Proof.
  intros Hp Hk w. rewrite interp_bind, !run_bind. unfold seq. rewrite Hp.
  destruct (m w) as [[a|e|] w']; [apply Hk|done..].
Qed.

Lemma denotes_bind_pair {A1 A2 B} (p : proc (A1 * A2)) m
    (k : A1 * A2 → proc B) k' :
  denotes p m → (∀ a1 a2, denotes (k (a1, a2)) (k' (a1, a2))) →
  denotes (p ≫= k) (m ≫= k').
Proof. intros Hp Hk. apply denotes_bind; [done|]. by intros [a1 a2]. Qed.

Lemma denotes_try {A} (p : proc A) m catches h h' :
  denotes p m → (∀ e, denotes (h e) (h' e)) →
  denotes (proc_try p catches h) (try_except m catches h').
Proof.
  intros Hp Hh w. rewrite interp_try. unfold try_except. rewrite Hp.
  destruct (m w) as [[a|e|] w']; [done| |done].
  destruct (catches e); [apply Hh|done].
Qed.

(** ** The machine *)

Lemma lstep_lnext {A} (c : proc A * world DB) ev c' :
  lstep c ev c' ↔ lnext c = Some (ev, c').
Proof.
  split.
  - intros [X o k w]. unfold lnext. simpl. by destruct (perform o w).
  - destruct c as [[r|X o k] w]; unfold lnext; simpl; [done|].
    pose proof (lstep_Do o k w) as Hstep.
    destruct (perform o w) as [r w']. by intros [= <- <-].
Qed.

Lemma lstep_deterministic {A} (c : proc A * world DB) ev1 c1 ev2 c2 :
  lstep c ev1 c1 → lstep c ev2 c2 → ev1 = ev2 ∧ c1 = c2.
Proof. rewrite !lstep_lnext. by intros -> [= -> ->]. Qed.

(** A tree that has returned makes no step; a tree that has not makes
    one. *)
Lemma lstep_Ret {A} (r : outcome A) w ev c' : ¬ lstep (Ret r, w) ev c'.
Proof. by rewrite lstep_lnext. Qed.

Lemma lstep_progress {A} {X} (o : op X) (k : outcome X → proc A) w :
  ∃ ev c', lstep (Do o k, w) ev c'.
Proof. eexists _, _. constructor. Qed.

(** The run of a tree: the calls of [trace_of], to the end that
    [interp] computes. *)
Lemma lsteps_trace_of {A} (p : proc A) w :
  lsteps (p, w) (trace_of p w) (Ret (interp p w).1, (interp p w).2).
Proof.
  revert w. induction p as [r|X o k IH]; intros w; [constructor|].
  pose proof (lstep_Do o k w) as Hstep. simpl.
  destruct (perform o w) as [r w']. by econstructor.
Qed.

(** It is the only run to an end. *)
Lemma lsteps_unique {A} (c c' : proc A * world DB) l r :
  lsteps c l c' → c'.1 = Ret r →
  l = trace_of c.1 c.2 ∧ interp c.1 c.2 = (r, c'.2).
Proof.
  induction 1 as [[p w]|c ev c1 l c2 Hstep _ IH]; simpl.
  - by intros ->.
  - intros Hr. destruct (IH Hr) as [-> Hrun]. destruct Hstep as [X o k w].
    simpl in *. by destruct (perform o w).
Qed.

(** ** Bounded runs *)

Lemma within_mono {A} n n' (p : proc A) :
  within n p → (n ≤ n')%nat → within n' p.
Proof.
  intros Hp. revert n'. induction Hp as [n r|X n o k _ IH]; intros n' Hn.
  - constructor.
  - destruct n' as [|n']; [lia|]. constructor. intros r. apply IH. lia.
Qed.

Lemma within_bind {A B} n1 n2 (m : proc A) (k : A → proc B) :
  within n1 m → (∀ a, within n2 (k a)) → within (n1 + n2) (m ≫= k).
Proof.
  intros Hm Hk. induction Hm as [n [a|e|]|X n o h _ IH].
  - apply (within_mono n2); [apply Hk|lia].
  - constructor.
  - constructor.
  - apply (within_Do (n + n2)). apply IH.
Qed.

Lemma within_try {A} n1 n2 (m : proc A) catches h :
  within n1 m → (∀ e, within n2 (h e)) →
  within (n1 + n2) (proc_try m catches h).
Proof.
  intros Hm Hh. induction Hm as [n [a|e|]|X n o k _ IH].
  - constructor.
  - simpl. destruct (catches e); [|constructor].
    apply (within_mono n2); [apply Hh|lia].
  - constructor.
  - apply (within_Do (n + n2)). apply IH.
Qed.

Lemma within_invoke {X} (o : op X) : within 1 (invoke o).
Proof. constructor. intros r. constructor. Qed.

(** A tree within [n] calls makes at most [n]. *)
Lemma within_trace_of {A} n (p : proc A) w :
  within n p → (length (trace_of p w) ≤ n)%nat.
Proof.
  intros Hp. revert w. induction Hp as [n r|X n o k _ IH]; intros w; simpl.
  - lia.
  - destruct (perform o w) as [r w']. simpl. specialize (IH r w'). lia.
Qed.

(** ** The state after a run, from the trace *)

Lemma perform_frame {X} (o : op X) w :
  environ (perform o w).2 = environ w ∧ files (perform o w).2 = files w ∧
  stderr (perform o w).2 =
    stderr w ++ omap written [event_of o (perform o w).1] ∧
  calls (perform o w).2 =
    calls w ++ omap logged [event_of o (perform o w).1].
Proof.
  destruct o; simpl; rewrite ?app_nil_r; try done.
  - unfold environ_getitem. by destruct (environ w !! key).
  - unfold open_read. by destruct (files w !! name).
Qed.

(** The environment and the files are as they were; the error stream
    has grown by what the trace wrote and the log of calls by the calls
    to the service in the trace, in the order of the trace. *)
Lemma interp_frame {A} (p : proc A) w :
  environ (interp p w).2 = environ w ∧ files (interp p w).2 = files w ∧
  stderr (interp p w).2 = stderr w ++ omap written (trace_of p w) ∧
  calls (interp p w).2 = calls w ++ omap logged (trace_of p w).
Proof.
  revert w. induction p as [r|X o k IH]; intros w; simpl.
  - by rewrite !app_nil_r.
  - pose proof (perform_frame o w) as (He & Hf & Hs & Hc).
    destruct (perform o w) as [r w']. simpl in *.
    destruct (IH r w') as (-> & -> & -> & ->).
    rewrite He, Hf, Hs, Hc, <- !app_assoc.
    repeat split; f_equal; by destruct (event_of o r).
Qed.

(** What a program is known to have asked of the service is known of
    the trace of its tree. *)
Lemma denotes_emits {A} (p : proc A) m (P : call → Prop) w :
  denotes p m → emits P w (m w).2 → Forall P (omap logged (trace_of p w)).
Proof.
  intros Hp (l & Hl & HP). rewrite <- (Hp w) in Hl.
  destruct (interp_frame p w) as (_ & _ & _ & Hc). rewrite Hc in Hl.
  by apply app_inv_head in Hl as <-.
Qed.
End Run.

Create HintDb denotes discriminated.
#[export] Hint Constants Opaque : denotes.
#[export] Hint Resolve denotes_Ret denotes_mret denotes_sys_exit : denotes.

(** Take a tree and a program apart together. *)
Ltac denotes_step :=
  match goal with
  | |- denotes (proc_try _ _ _) _ => apply denotes_try
  | |- denotes (invoke ?o) _ => exact (denotes_invoke o)
  | |- denotes (@mbind _ _ (prod _ _) _ _ _) _ => apply denotes_bind_pair
  | |- denotes (_ ≫= _) _ => apply denotes_bind
  | |- ∀ _, _ => intros
  | |- denotes _ _ => solve [eauto 3 with denotes]
  end.
Ltac solve_denotes := repeat denotes_step.

(** Count the calls of a tree along its sequences and handlers. *)
Ltac within_step :=
  match goal with
  | |- within _ (proc_try _ _ _) => eapply within_try
  | |- within _ (invoke _) => apply within_invoke
  | |- within _ (_ ≫= _) => eapply within_bind
  | |- within _ (match ?x with _ => _ end) => destruct x
  | |- ∀ _, _ => intros
  | |- within _ (Ret _) => apply (within_Ret 0)
  | |- within _ (mret _) => apply (within_Ret 0)
  end.
Ltac solve_within :=
  eapply within_mono; [repeat within_step|simpl; lia].
