(* ===== verification/Simulation.v ===== *)
(** * Simulation: one service in place of another

    The scripts are written against the interface [Persistence], so the
    same script runs on any service.  This file says when two services
    cannot be told apart by a script: a relation [S] between their
    states that the two calls of the interface preserve, with equal
    answers, for the payloads in [Q] ([Refines]).  A program that saves
    payloads in [Q] only then gives, from related states, the same
    outcome, the same error stream and the same calls, and related
    states again ([simulates]); its tree makes the same calls and gets
    the same answers ([trace_of_simulates]). *)

From Stdlib Require Import ZArith Lia.
From stdpp Require Import base list numbers strings gmap.
From S2P Require Import Prelude Python TruncateSpec Codec Utf8 Service Process.
From S2P Require Import Calls.

Section Simulation.
Context {DB1 DB2 : Type} `{!Persistence DB1} `{!Persistence DB2}.
Context (S : DB1 → DB2 → Prop) (Q : pyvalue → Prop).

(** The two processes are in the same state, up to [S] on the
    services. *)
Definition world_sim (w1 : world DB1) (w2 : world DB2) : Prop :=
  environ w1 = environ w2 ∧ files w1 = files w2 ∧
  stderr w1 = stderr w2 ∧ calls w1 = calls w2 ∧ S (db w1) (db w2).

Definition run_sim {A} (r1 : outcome A * world DB1)
    (r2 : outcome A * world DB2) : Prop :=
  r1.1 = r2.1 ∧ world_sim r1.2 r2.2.

Definition simulates {A} (m1 : prog DB1 A) (m2 : prog DB2 A) : Prop :=
  ∀ w1 w2, world_sim w1 w2 → run_sim (m1 w1) (m2 w2).

(** What the first service promises: on the payloads in [Q] it answers
    as the second does. *)
Class Refines : Prop := {
  refines_set_connection url d1 d2 :
    S d1 d2 →
    (set_connection url d1).1 = (set_connection url d2).1 ∧
    S (set_connection url d1).2 (set_connection url d2).2;
  refines_save e d1 d2 :
    Q (payload e) → S d1 d2 →
    (save e d1).1 = (save e d2).1 ∧ S (save e d1).2 (save e d2).2;
}.

(** ** Statements that do not call the service *)

Lemma simulates_pure {A} (r : outcome A) :
  simulates (λ w, (r, w)) (λ w, (r, w)).
Proof. by intros w1 w2 Hw. Qed.

Lemma simulates_mret {A} (a : A) : simulates (mret a) (mret a).
Proof. apply simulates_pure. Qed.

Lemma simulates_lift {A} (m : outcome A) : simulates (lift m) (lift m).
Proof. apply simulates_pure. Qed.

Lemma simulates_sys_exit {A} code :
  simulates (sys_exit (A := A) code) (sys_exit code).
Proof. apply simulates_pure. Qed.

Lemma simulates_environ_getitem key :
  simulates (environ_getitem key) (environ_getitem key).
Proof.
  intros w1 w2 Hw. unfold environ_getitem. pose proof Hw as (<- & _).
  by destruct (environ w1 !! key).
Qed.

Lemma simulates_stderr_write s : simulates (stderr_write s) (stderr_write s).
Proof.
  intros w1 w2 (? & ? & ? & ? & ?). repeat split; simpl; congruence.
Qed.

Lemma simulates_open_read name : simulates (open_read name) (open_read name).
Proof.
  intros w1 w2 Hw. unfold open_read. pose proof Hw as (_ & <- & _).
  by destruct (files w1 !! name).
Qed.

(** ** Sequences and handlers *)

(** What is known of the value of the first statement can be used for
    the statements that follow. *)
Lemma simulates_bind_val {A B} (P : A → Prop) (m1 : prog DB1 A) m2
    (k1 : A → prog DB1 B) k2 :
  (∀ w a, (m1 w).1 = Ok a → P a) → simulates m1 m2 →
  (∀ a, P a → simulates (k1 a) (k2 a)) → simulates (m1 ≫= k1) (m2 ≫= k2).
Proof.
  intros HP Hm Hk w1 w2 Hw. rewrite !run_bind. unfold seq.
  destruct (Hm w1 w2 Hw) as [Ho Hw']. specialize (HP w1).
  destruct (m1 w1) as [o1 w1'], (m2 w2) as [o2 w2']; simpl in *; subst o2.
  destruct o1 as [a|e|]; [|done..]. apply Hk; [by apply HP|done].
Qed.

Lemma simulates_bind {A B} (m1 : prog DB1 A) m2 (k1 : A → prog DB1 B) k2 :
  simulates m1 m2 → (∀ a, simulates (k1 a) (k2 a)) →
  simulates (m1 ≫= k1) (m2 ≫= k2).
Proof. intros Hm Hk. by apply (simulates_bind_val (λ _, True)). Qed.

Lemma simulates_bind_pair {A1 A2 B} (m1 : prog DB1 (A1 * A2)) m2
    (k1 : A1 * A2 → prog DB1 B) k2 :
  simulates m1 m2 → (∀ a1 a2, simulates (k1 (a1, a2)) (k2 (a1, a2))) →
  simulates (m1 ≫= k1) (m2 ≫= k2).
Proof. intros Hm Hk. apply simulates_bind; [done|]. by intros [a1 a2]. Qed.

Lemma simulates_try_except {A} (m1 : prog DB1 A) m2 catches h1 h2 :
  simulates m1 m2 → (∀ e, simulates (h1 e) (h2 e)) →
  simulates (try_except m1 catches h1) (try_except m2 catches h2).
Proof.
  intros Hm Hh w1 w2 Hw. unfold try_except.
  destruct (Hm w1 w2 Hw) as [Ho Hw'].
  destruct (m1 w1) as [o1 w1'], (m2 w2) as [o2 w2']; simpl in *; subst o2.
  destruct o1 as [a|e|]; [done| |done].
  destruct (catches e); [by apply Hh|done].
Qed.

(** ** The calls to the service *)

Context `{!Refines}.

Lemma simulates_db_set_connection url :
  simulates (db_set_connection url) (db_set_connection url).
Proof.
  intros w1 w2 (? & ? & ? & ? & Hdb). unfold db_set_connection.
  destruct (refines_set_connection url _ _ Hdb).
  repeat split; simpl; congruence.
Qed.

Lemma simulates_entity_save e :
  Q (payload e) → simulates (entity_save e) (entity_save e).
Proof.
  intros He w1 w2 (? & ? & ? & ? & Hdb). unfold entity_save.
  destruct (refines_save e _ _ He Hdb). repeat split; simpl; congruence.
Qed.

(** ** Trees of calls *)

(** One call gets the same answer from both services, a save provided
    its payload is in [Q]. *)
Lemma perform_simulates {X} (o : op X) w1 w2 :
  world_sim w1 w2 →
  (∀ r c, logged (event_of o r) = Some c → saves Q c) →
  run_sim (perform o w1) (perform o w2).
Proof.
  intros Hw HQ. destruct o; simpl;
    [by apply simulates_environ_getitem|by apply simulates_stderr_write
    |by apply simulates_open_read|by apply simulates_db_set_connection|].
  apply simulates_entity_save; [|done].
  by apply (HQ OutOfFuel (CallSave e)).
Qed.

(** From states that agree, a tree whose run on the second service
    saves payloads in [Q] only makes the same calls on the first, with
    the same answers, and ends the same. *)
Lemma trace_of_simulates {A} (p : proc A) w1 w2 :
  world_sim w1 w2 → Forall (saves Q) (omap logged (trace_of p w2)) →
  trace_of p w1 = trace_of p w2 ∧ run_sim (interp p w1) (interp p w2).
Proof.
  revert w1 w2. induction p as [r|X o k IH]; intros w1 w2 Hw HQ; [done|].
  simpl in *. destruct (perform_simulates o w1 w2 Hw) as [Hr Hw'].
  - intros r c Hc. destruct (perform o w2) as [r2 w2'].
    destruct o; simplify_eq/=; by apply Forall_cons in HQ as [? _].
  - destruct (perform o w1) as [r1 w1'], (perform o w2) as [r2 w2'].
    simpl in *. subst r2. destruct (IH r1 w1' w2' Hw') as [-> ?]; [|done].
    by destruct o; simpl in HQ; [..|apply Forall_cons in HQ as [_ ?]
                                   |apply Forall_cons in HQ as [_ ?]].
Qed.
End Simulation.

Create HintDb simulates discriminated.
#[export] Hint Constants Opaque : simulates.
#[export] Hint Resolve simulates_mret simulates_lift simulates_sys_exit
  simulates_environ_getitem simulates_stderr_write simulates_open_read
  simulates_db_set_connection simulates_entity_save : simulates.

(** Take the two programs apart together, as [solve_keeps] does one. *)
Ltac simulates_step :=
  match goal with
  | |- simulates _ (try_except _ _ _) _ => apply simulates_try_except
  | |- simulates _ (@mbind _ _ (prod _ _) _ _ _) _ =>
      apply simulates_bind_pair
  | |- simulates _ (_ ≫= _) _ => apply simulates_bind
  | |- ∀ _, _ => intros
  | |- simulates _ _ _ => solve [eauto 3 with simulates]
  end.
Ltac solve_simulates := repeat simulates_step.
