(* ===== verification/Defect.v ===== *)
(** * Defect: the server the repository was written about

    The comments of [src/src/main.py] (lines 117-138 and 140-167) and of
    [src/src/main_file_based.py] (lines 67-95) describe what the server
    was seen to do: a save whose key is under the cap of the index
    (4095 bytes) succeeds in silence even when the key is larger than
    the index can read back (the log gives keySize=4084 for the payload
    of 4076 bytes, and keyValueSizeCap=4047); from then on a save fails
    on reading that key, also after every node has been deleted and
    after a restart; a value over 4095 bytes is refused with an error
    and leaves the server in working order.

    [neo_db] is a model of that behaviour: the reference service of
    [Service], with the cap of the index, and beside it the keys the
    index file holds.  It is a hazard model written from those comments,
    not a model of the server's code.  The file shows what keeps the
    index readable, that as long as it is the model answers as the
    reference service does, and that once it is not, nothing that is
    done to the server short of erasing its data makes it readable
    again ([neo_step], [unreadable_forever]). *)

From Stdlib Require Import ZArith Lia.
From stdpp Require Import base list numbers strings pretty relations.
From S2P Require Import Prelude Python TruncateSpec Codec Utf8 Service Process.
From S2P Require Import Simulation.

#[local] Open Scope Z_scope.

(** ** The sizes the log gives *)

(** The most a value may take to be indexed. *)
Definition index_key_cap : Z := 4095.

(** The most a key may take for the index to read it back. *)
Definition key_value_size_cap : Z := 4047.

(** What the index adds to a value to make its key: the log gives a key
    of 4084 bytes for the value of 4076. *)
Definition key_overhead : Z := 8.

Definition index_key_size (v : pyvalue) : Z := key_size v + key_overhead.

Definition unreliable (v : pyvalue) : bool :=
  key_value_size_cap <? index_key_size v.

Definition unreliable_key_message (v : pyvalue) : string :=
  "Read unreliable key, keySize=" +:+ pretty (index_key_size v)
  +:+ ", keyValueSizeCap=" +:+ pretty key_value_size_cap.

(** ** The server *)

Record neo_db : Type := {
  store : ref_db;
  index : list pyvalue;
}.

Definition neo_set_connection (url : string) (d : neo_db)
    : outcome unit * neo_db :=
  let r := ref_set_connection url (store d) in
  (r.1, {| store := r.2; index := index d |}).

(** A save reads the index first, and fails on a key it cannot read;
    a value that is stored is added to the index, whatever its size. *)
Definition neo_save (e : SomeEntity) (d : neo_db)
    : outcome SomeEntity * neo_db :=
  if negb (connected (store d)) then (Raise ServiceUnavailable, d)
  else
    match List.find unreliable (index d) with
    | Some k => (Raise (DatabaseError (unreliable_key_message k)), d)
    | None =>
        let r := ref_save e (store d) in
        (r.1, {| store := r.2;
                 index := match r.1 with
                          | Ok _ => payload e :: index d
                          | _ => index d
                          end |})
    end.

#[export] Instance neo_persistence : Persistence neo_db := {|
  set_connection := neo_set_connection;
  save := neo_save;
|}.

(** [match (a) detach delete a;]: every node goes; the keys the index
    cannot read stay. *)
Definition neo_detach_delete (d : neo_db) : neo_db :=
  {| store := {| reachable := reachable (store d);
                 connected := connected (store d);
                 nodes := [];
                 key_cap := key_cap (store d) |};
     index := List.filter unreliable (index d) |}.

(** A restart: the connections are lost, the files stay. *)
Definition neo_restart (d : neo_db) : neo_db :=
  {| store := {| reachable := reachable (store d);
                 connected := false;
                 nodes := nodes (store d);
                 key_cap := key_cap (store d) |};
     index := index d |}.

(** What happens to the server short of erasing its data: the calls of
    its clients, whether they return or raise, a delete of every node,
    a restart. *)
Inductive neo_step : relation neo_db :=
| neo_step_set_connection url d : neo_step d (neo_set_connection url d).2
| neo_step_save e d : neo_step d (neo_save e d).2
| neo_step_detach_delete d : neo_step d (neo_detach_delete d)
| neo_step_restart d : neo_step d (neo_restart d).

(** A server that is up and holds nothing. *)
Definition neo_fresh : neo_db :=
  {| store := fresh_db index_key_cap; index := [] |}.

(** The index can be read: no key is over the cap. *)
Definition index_reliable (d : neo_db) : Prop :=
  Forall (λ k, unreliable k = false) (index d).

#[export] Instance index_reliable_dec d : Decision (index_reliable d).
Proof. unfold index_reliable. apply _. Defined.

(** A payload the server handles as a server that behaves would: its
    key can be read back, or the index refuses it. *)
Definition safe_payload (v : pyvalue) : Prop :=
  unreliable v = false ∨ index_key_cap < key_size v.

#[export] Instance safe_payload_dec v : Decision (safe_payload v).
Proof. unfold safe_payload. apply _. Defined.

(** The server and the reference service hold the same under the same
    cap, and the index can be read. *)
Definition neo_sim (d : neo_db) (r : ref_db) : Prop :=
  store d = r ∧ key_cap r = index_key_cap ∧ index_reliable d.

(** ** Which keys can be read *)

Lemma unreliable_false v : unreliable v = false ↔ key_size v ≤ 4039.
Proof.
  unfold unreliable, index_key_size, key_value_size_cap, key_overhead.
  rewrite Z.ltb_ge. lia.
Qed.

Lemma find_unreliable_None d :
  List.find unreliable (index d) = None ↔ index_reliable d.
Proof.
  unfold index_reliable. induction (index d) as [|k l IH]; simpl; [done|].
  rewrite Forall_cons. destruct (unreliable k); [|by rewrite IH; intuition].
  by split; [|intros [? _]].
Qed.

Lemma find_unreliable_Some d :
  ¬ index_reliable d → ∃ k, List.find unreliable (index d) = Some k.
Proof.
  rewrite <- find_unreliable_None.
  destruct (List.find unreliable (index d)); [eauto|done].
Qed.

(** ** The calls, case by case *)

Lemma neo_save_reliable e d :
  index_reliable d →
  neo_save e d =
    ((ref_save e (store d)).1,
     {| store := (ref_save e (store d)).2;
        index := match (ref_save e (store d)).1 with
                 | Ok _ => payload e :: index d
                 | _ => index d
                 end |}).
Proof.
  intros Hd%find_unreliable_None. unfold neo_save. rewrite Hd.
  unfold ref_save. destruct (connected (store d)); [done|]. by destruct d.
Qed.

Lemma ref_set_connection_key_cap url r :
  key_cap (ref_set_connection url r).2 = key_cap r.
Proof. unfold ref_set_connection. by destruct (reachable r). Qed.

Lemma ref_save_key_cap e r : key_cap (ref_save e r).2 = key_cap r.
Proof.
  destruct (ref_save_cases e r)
    as [(_ & -> & _)|[(_ & -> & _)|[(_ & -> & _)|(e' & He' & _)]]];
    [done..|].
  revert He'. unfold ref_save. by repeat case_match.
Qed.

Lemma find_unreliable_elem d k :
  List.find unreliable (index d) = Some k → k ∈ index d ∧ unreliable k = true.
Proof. by intros [Hin%list_elem_of_In Hk]%find_some. Qed.

Lemma neo_save_unreadable e d k :
  connected (store d) = true → List.find unreliable (index d) = Some k →
  neo_save e d = (Raise (DatabaseError (unreliable_key_message k)), d).
Proof. intros Hc Hk. unfold neo_save. by rewrite Hc, Hk. Qed.

Lemma neo_save_key_cap e d :
  key_cap (store (neo_save e d).2) = key_cap (store d).
Proof.
  unfold neo_save. destruct (negb (connected (store d))); [done|].
  destruct (List.find unreliable (index d)); [done|]. apply ref_save_key_cap.
Qed.

(** A connection to a server that is up. *)
Lemma neo_set_connection_up url d :
  reachable (store d) = true →
  set_connection url d =
    (Ok tt, {| store := {| reachable := true; connected := true;
                           nodes := nodes (store d);
                           key_cap := key_cap (store d) |};
               index := index d |}).
Proof.
  intros Hr. simpl. unfold neo_set_connection.
  by rewrite ref_set_connection_up.
Qed.

Lemma neo_set_connection_index url d :
  index (neo_set_connection url d).2 = index d.
Proof. done. Qed.

(** A save leaves the index readable when the payload is safe. *)
Lemma neo_save_index_reliable e d :
  safe_payload (payload e) → key_cap (store d) = index_key_cap →
  index_reliable d → index_reliable (neo_save e d).2.
Proof.
  intros He Hcap Hd. rewrite neo_save_reliable by done.
  unfold index_reliable. simpl.
  destruct (ref_save_cases e (store d))
    as [(-> & _)|[([m ->] & _)|[([m ->] & _)|(e' & -> & _ & _ & _ & Hle)]]];
    [done..|].
  constructor; [|done]. destruct He as [He|He]; [done|lia].
Qed.

(** Deleting every node does not repair the index, and neither does a
    restart. *)
Lemma neo_detach_delete_reliable d :
  index_reliable (neo_detach_delete d) ↔ index_reliable d.
Proof.
  unfold index_reliable, neo_detach_delete. simpl.
  induction (index d) as [|k l IH]; simpl; [done|].
  destruct (unreliable k) eqn:Hk; rewrite !Forall_cons, ?IH, ?Hk; intuition.
Qed.

Lemma neo_restart_reliable d :
  index_reliable (neo_restart d) ↔ index_reliable d.
Proof. done. Qed.

(** ** An index that cannot be read stays so *)

Lemma find_filter {A} (f : A → bool) (l : list A) :
  List.find f (List.filter f l) = List.find f l.
Proof.
  induction l as [|a l IH]; simpl; [done|].
  destruct (f a) eqn:Ha; simpl; by rewrite ?Ha.
Qed.

(** With a key that cannot be read, a save changes nothing. *)
Lemma neo_save_unreadable_state e d k :
  List.find unreliable (index d) = Some k → (neo_save e d).2 = d.
Proof.
  intros Hk. unfold neo_save. rewrite Hk.
  by destruct (negb (connected (store d))).
Qed.

(** The first key that cannot be read is the same after every step. *)
Lemma neo_step_unreadable d d' k :
  neo_step d d' → List.find unreliable (index d) = Some k →
  List.find unreliable (index d') = Some k.
Proof.
  intros [url d0|e d0|d0|d0] Hk; simpl; [done| | |done].
  - by rewrite (neo_save_unreadable_state e d0 k).
  - by rewrite find_filter.
Qed.

(** Whatever is done to the server, short of erasing its data, the key
    stays, and every save on a connection fails on it. *)
Lemma unreadable_forever d d' k :
  rtc neo_step d d' → List.find unreliable (index d) = Some k →
  List.find unreliable (index d') = Some k ∧
  ∀ e, connected (store d') = true →
       neo_save e d' = (Raise (DatabaseError (unreliable_key_message k)), d').
Proof.
  intros Hsteps Hk.
  assert (List.find unreliable (index d') = Some k) as Hk'.
  { induction Hsteps as [d|d d1 d2 Hstep _ IH]; [done|].
    eauto using neo_step_unreadable. }
  split; [done|]. intros e Hc. by apply neo_save_unreadable.
Qed.

(** ** The server answers as the reference service while the index can
    be read *)

#[export] Instance neo_refines : Refines neo_sim safe_payload.
Proof.
  split.
  - intros url d r (<- & Hcap & Hd). repeat split; [|done].
    by rewrite ref_set_connection_key_cap.
  - intros e d r He (<- & Hcap & Hd).
    pose proof (neo_save_index_reliable e d He Hcap Hd) as Hd'.
    simpl in *. rewrite neo_save_reliable in * by done.
    repeat split; [|done]. by rewrite ref_save_key_cap.
Qed.
