(* ===== verification/Scripts.v ===== *)
(** * Scripts: the three entry points

    [src/src/main.py], [src/src/main_fix.py] and
    [src/src/main_file_based.py] run the same statements up to the payloads
    they save: read the credentials, connect, then save one node per
    [try] block.  The blocks the three files share are defined once; the
    modules [Main], [MainFix] and [MainFileBased] hold what each file adds
    and its [main], the body of [if __name__ == "__main__":].  [Main]
    also holds scenario 2, which the source keeps as commented-out code.

    The theorems hold for every service, that is for every instance of
    [Persistence]; those on the unique index ask for [UniqueIndex].  The
    runs on [ref_db] show them at work on a server that behaves. *)

From Stdlib Require Import ZArith Lia.
From stdpp Require Import base list numbers strings gmap.
From S2P Require Import Prelude Python TruncateSpec Codec Utf8 Truncator.
From S2P Require Import Payloads Service Process.

#[local] Open Scope Z_scope.

(** ** The blocks the scripts share *)

Definition credentials_message : string :=
  "ERROR: Please make sure that the NEO4J_USERNAME and NEO4J_PASSWORD environment variables"
  +:+ " have been properly set for this session by using `export NEO4J_USERNAME=something`"
  +:+ " and `export NEO4J_PASSWORD=something_else`." +:+ LF.

Definition unavailable_message : string :=
  "ERROR: Please make sure that your Neo4j server is up and running." +:+ LF.

Definition node_1_message : string :=
  "ERROR: Creation of Node 1 failed. (Database should require restart)."
  +:+ LF.

(** ["bolt://{}:{}@localhost:7687".format(username, password)] *)
Definition bolt_url (username password : string) : string :=
  "bolt://" +:+ username +:+ ":" +:+ password +:+ "@localhost:7687".

(** [e.message], for the [DatabaseError] a handler has bound to [e] *)
Definition exn_message (e : exn) : string :=
  match e with
  | DatabaseError message => message
  | _ => EmptyString
  end.

Section Blocks.
Context {DB : Type} `{!Persistence DB}.

(** "Get credentials" *)
Definition get_credentials : prog DB (string * string) :=
  try_except
    (username ← environ_getitem "NEO4J_USERNAME";
     password ← environ_getitem "NEO4J_PASSWORD";
     mret (username, password))
    is_KeyError
    (λ _, stderr_write credentials_message;; sys_exit 1).

(** "Connect to the database" *)
Definition connect (username password : string) : prog DB unit :=
  try_except
    (db_set_connection (bolt_url username password))
    is_ServiceUnavailable
    (λ _, stderr_write unavailable_message).

(** The first node: [SomeEntity(payload=non_problematic_payload).save()],
    with its own report. *)
Definition create_node_1 : prog DB unit :=
  try_except
    (entity_save (new_entity (VStr non_problematic_payload));; mret tt)
    is_DatabaseError
    (λ _, stderr_write node_1_message).

(** A later node: [SomeEntity(payload=<expression>).save()], reporting
    the message of the server.  The expression is evaluated inside the
    [try]. *)
Definition create_node (expression : prog DB pyvalue) : prog DB unit :=
  try_except
    (v ← expression; entity_save (new_entity v);; mret tt)
    is_DatabaseError
    (λ e, stderr_write (exn_message e)).

(** A [try] block around one [save], with its handler for
    [DatabaseError]: what it returns and the state it leaves, for each
    outcome of the call. *)
Definition save_block_result (e : SomeEntity) (msg : exn → string)
    (w : world DB)
    : outcome unit * world DB :=
  let r := save e (db w) in
  let calls' := calls w ++ [CallSave e] in
  match r.1 with
  | Raise x =>
      if is_DatabaseError x then
        (Ok tt, World (environ w) (files w) (stderr w ++ [msg x]) calls' r.2)
      else (Raise x, World (environ w) (files w) (stderr w) calls' r.2)
  | o => (void o, World (environ w) (files w) (stderr w) calls' r.2)
  end.
End Blocks.

(** ** [main.py] *)

Module Main.
Section Main.
Context {DB : Type} `{!Persistence DB}.

Definition node_2 : prog DB unit :=
  create_node (mret (VStr problematic_payload_1)).

Definition main : prog DB unit :=
  '(username, password) ← get_credentials;
  connect username password;;
  create_node_1;;
  node_2.

(** Scenario 2, commented out in the source: the same statements, the
    second node with the longer payload. *)
Definition node_2_scenario_2 : prog DB unit :=
  create_node (mret (VStr problematic_payload_2)).

Definition scenario_2 : prog DB unit :=
  '(username, password) ← get_credentials;
  connect username password;;
  create_node_1;;
  node_2_scenario_2.
End Main.
End Main.

(** ** [main_fix.py] *)

Module MainFix.
Section MainFix.
Context {DB : Type} `{!Persistence DB}.

(** The budget the script trims to. *)
Definition byte_limit : Z := 4000.

Definition node_2 : prog DB unit :=
  create_node
    (lift (trim_string_at_unicode_boundaries problematic_payload_1 byte_limit)).

Definition node_3 : prog DB unit :=
  create_node
    (lift (trim_string_at_unicode_boundaries problematic_payload_2 byte_limit)).

Definition main : prog DB unit :=
  '(username, password) ← get_credentials;
  connect username password;;
  create_node_1;;
  node_2;;
  node_3.
End MainFix.
End MainFix.

(** ** [main_file_based.py] *)

Module MainFileBased.
Section MainFileBased.
Context {DB : Type} `{!Persistence DB}.

Definition node_2 (problematic_payload_1 : pystr) : prog DB unit :=
  create_node (mret (VStr problematic_payload_1)).

Definition main : prog DB unit :=
  '(username, password) ← get_credentials;
  connect username password;;
  problematic_payload_1 ← open_read "testcase1.txt";
  problematic_payload_2 ← open_read "testcase2.txt";
  create_node_1;;
  node_2 problematic_payload_1.
End MainFileBased.
End MainFileBased.

(** ** A process to run the scripts in *)

(** The state at the start: the variables [vars], the files [fs], nothing
    written, no call made. *)
Definition start {DB} (vars : list (string * string))
    (fs : list (string * bytes)) (d : DB) : world DB :=
  World (list_to_map vars) (list_to_map fs) [] [] d.

Definition sample_credentials : list (string * string) :=
  [("NEO4J_USERNAME", "neo4j"); ("NEO4J_PASSWORD", "secret")].

(** The credentials set, no file, and the reference service: up and
    empty with keys capped at [cap] bytes, or down. *)
Definition fresh_world (cap : Z) : world ref_db :=
  start sample_credentials [] (fresh_db cap).

Definition down_world : world ref_db :=
  start sample_credentials [] (down_db 4095).

(** The same with the two sample files: a line of Greek that ends with
    [\r\n], and one letter. *)
Definition files_world : world ref_db :=
  start sample_credentials
    [("testcase1.txt", [0xCE; 0xB1; 0xCE; 0xB2; 13; 10]);
     ("testcase2.txt", [0x68])]
    (fresh_db 4095).

(** The same with [testcase1.txt] holding the bytes of the literal
    [problematic_payload_1] of [main.py]. *)
Definition literal_files_world : world ref_db :=
  start sample_credentials
    [("testcase1.txt",
      bytes_of_string
        (String.concat EmptyString problematic_payload_1_source));
     ("testcase2.txt", [0x68])]
    (fresh_db 4095).

(** Only the user name set. *)
Definition no_password_world : world ref_db :=
  start [("NEO4J_USERNAME", "neo4j")] [] (fresh_db 4095).

(** The reference service is well formed after a statement when it was
    before. *)
Definition keeps_wf : relation (world ref_db) := λ w w',
  ref_wf (db w) → ref_wf (db w').

(** The service stores after a statement what it stored before. *)
Definition same_stored {DB} `{!Persistence DB} `{!UniqueIndex DB}
    : relation (world DB) := λ w w',
  stored (db w') = stored (db w).

(** The proofs below run the truncator on the payloads by [vm_compute]
    only; unification does not look inside. *)
#[local] Opaque trim_string_at_unicode_boundaries non_problematic_payload
  problematic_payload_1 problematic_payload_2.

(** ** The shared blocks, branch by branch *)

Section BlockFacts.
Context {DB : Type} `{!Persistence DB}.
Implicit Types (w : world DB) (e : SomeEntity).

Lemma get_credentials_present w username password :
  environ w !! "NEO4J_USERNAME" = Some username →
  environ w !! "NEO4J_PASSWORD" = Some password →
  get_credentials w = (Ok (username, password), w).
Proof.
  intros Hu Hp. apply run_try_Ok.
  erewrite run_bind_Ok by by apply environ_getitem_Some.
  by erewrite run_bind_Ok by by apply environ_getitem_Some.
Qed.

Lemma get_credentials_missing w :
  environ w !! "NEO4J_USERNAME" = None ∨
  environ w !! "NEO4J_PASSWORD" = None →
  get_credentials w =
    (Raise (SystemExit 1),
     World (environ w) (files w) (stderr w ++ [credentials_message])
           (calls w) (db w)).
Proof.
  intros Hmiss. unfold get_credentials.
  destruct (environ w !! "NEO4J_USERNAME") as [u|] eqn:Hu.
  - destruct Hmiss as [|Hp]; [done|].
    erewrite (run_try_caught _ _ _ w (KeyError _) w); [done| |done].
    erewrite run_bind_Ok by by apply environ_getitem_Some.
    erewrite run_bind_Raise; [done|by apply environ_getitem_None].
  - erewrite (run_try_caught _ _ _ w (KeyError _) w); [done| |done].
    erewrite run_bind_Raise; [done|by apply environ_getitem_None].
Qed.

Lemma connect_calls username password w :
  calls (connect username password w).2 =
    calls w ++ [CallSetConnection (bolt_url username password)].
Proof.
  unfold connect, try_except, db_set_connection. simpl.
  destruct (set_connection _ _).1 as [a|e|]; simpl; [done| |done].
  by destruct (is_ServiceUnavailable e).
Qed.

Lemma connect_Ok username password w :
  let r := set_connection (bolt_url username password) (db w) in
  r.1 = Ok tt →
  connect username password w =
    (Ok tt, World (environ w) (files w) (stderr w)
              (calls w ++ [CallSetConnection (bolt_url username password)])
              r.2).
Proof.
  intros r Hr. unfold connect, try_except, db_set_connection. simpl.
  fold r. by rewrite Hr.
Qed.

Lemma connect_unavailable username password w :
  let r := set_connection (bolt_url username password) (db w) in
  r.1 = Raise ServiceUnavailable →
  connect username password w =
    (Ok tt, World (environ w) (files w) (stderr w ++ [unavailable_message])
              (calls w ++ [CallSetConnection (bolt_url username password)])
              r.2).
Proof.
  intros r Hr. unfold connect, try_except, db_set_connection. simpl.
  fold r. by rewrite Hr.
Qed.

Lemma run_save_block e msg w :
  try_except (entity_save e;; mret tt) is_DatabaseError
    (λ x, stderr_write (msg x)) w = save_block_result e msg w.
Proof.
  unfold try_except, save_block_result. rewrite !run_bind.
  unfold seq, entity_save. simpl.
  destruct (save e (db w)).1 as [a|x|]; simpl; [done| |done].
  by destruct (is_DatabaseError x).
Qed.

Lemma create_node_1_run w :
  create_node_1 w =
    save_block_result (new_entity (VStr non_problematic_payload))
      (λ _, node_1_message) w.
Proof. apply run_save_block. Qed.

Lemma create_node_value v w :
  create_node (mret v) w = save_block_result (new_entity v) exn_message w.
Proof. apply (run_save_block (new_entity v) exn_message). Qed.

Lemma create_node_lift_Ok (m : outcome pyvalue) v w :
  m = Ok v →
  create_node (lift m) w = save_block_result (new_entity v) exn_message w.
Proof. intros ->. apply (run_save_block (new_entity v) exn_message). Qed.

Lemma create_node_lift_Raise (m : outcome pyvalue) x w :
  m = Raise x → is_DatabaseError x = false →
  create_node (lift m) w = (Raise x, w).
Proof.
  intros -> Hx. unfold create_node, try_except. rewrite !run_bind.
  unfold seq, lift. simpl. by rewrite Hx.
Qed.

(** A [try] block around one [save], by what the call answers. *)
Lemma save_block_stored e msg w e' d' :
  save e (db w) = (Ok e', d') →
  save_block_result e msg w =
    (Ok tt, World (environ w) (files w) (stderr w) (calls w ++ [CallSave e])
              d').
Proof. intros Hs. unfold save_block_result. by rewrite Hs. Qed.

Lemma save_block_reported e msg w x d' :
  save e (db w) = (Raise x, d') → is_DatabaseError x = true →
  save_block_result e msg w =
    (Ok tt, World (environ w) (files w) (stderr w ++ [msg x])
              (calls w ++ [CallSave e]) d').
Proof. intros Hs Hx. unfold save_block_result. by rewrite Hs; simpl; rewrite Hx. Qed.

Lemma save_block_raised e msg w x d' :
  save e (db w) = (Raise x, d') → is_DatabaseError x = false →
  save_block_result e msg w =
    (Raise x, World (environ w) (files w) (stderr w)
                (calls w ++ [CallSave e]) d').
Proof. intros Hs Hx. unfold save_block_result. by rewrite Hs; simpl; rewrite Hx. Qed.

Lemma save_block_result_calls e msg w :
  calls (save_block_result e msg w).2 = calls w ++ [CallSave e].
Proof.
  unfold save_block_result. destruct (save e (db w)).1 as [a|x|]; [done| |done].
  by destruct (is_DatabaseError x).
Qed.

Lemma save_block_result_stderr e msg w :
  stderr w `prefix_of` stderr (save_block_result e msg w).2.
Proof.
  unfold save_block_result. destruct (save e (db w)).1 as [a|x|]; [done| |done].
  destruct (is_DatabaseError x); [by apply prefix_app_r|done].
Qed.
End BlockFacts.

(** ** What the scripts submit *)

(** The size, as an index key, of what the truncator returns. *)
Lemma trim_key_size s limit v :
  0 ≤ limit → trim_string_at_unicode_boundaries s limit = Ok v →
  key_size v ≤ limit.
Proof.
  intros Hlimit Hv. pose proof (trim_Ok_scalar s limit v Hv) as Hs.
  destruct (decide (limit < utf8_length s)).
  - rewrite trim_cuts_utf8 in Hv by (done || lia). injection Hv as <-.
    apply take_within_bound. lia.
  - apply utf8_encode_is_Ok in Hs as [bs Hbs].
    pose proof (utf8_encode_length s bs Hbs).
    rewrite (trim_fits s bs limit) in Hv by (done || lia).
    injection Hv as <-. simpl. lia.
Qed.

(** Trimmed to 4000 bytes the two long payloads are the same text. *)
Lemma trimmed_payloads_agree :
  ∃ t, trim_string_at_unicode_boundaries problematic_payload_1
         MainFix.byte_limit = Ok (VStr t) ∧
       trim_string_at_unicode_boundaries problematic_payload_2
         MainFix.byte_limit = Ok (VStr t) ∧
       Forall is_scalar t.
Proof.
  exists (take_within utf8_len problematic_payload_1 MainFix.byte_limit).
  split; [by vm_compute|]. split; [by vm_compute|].
  eapply prefix_scalar;
    [apply take_within_prefix|apply problematic_payload_1_scalar].
Qed.

(** They take 4000 bytes as a key, and the first payload 156. *)
Lemma trimmed_payload_size v :
  trim_string_at_unicode_boundaries problematic_payload_1
    MainFix.byte_limit = Ok v →
  key_size v = MainFix.byte_limit.
Proof.
  assert ((let* v := trim_string_at_unicode_boundaries problematic_payload_1
                       MainFix.byte_limit in Ok (key_size v))
          = Ok MainFix.byte_limit) as Hsize by (by vm_compute).
  intros Hv. rewrite Hv in Hsize. by injection Hsize.
Qed.

Lemma first_payload_size :
  key_size (VStr non_problematic_payload) = 156.
Proof. by vm_compute. Qed.

Section ScriptFacts.
Context {DB : Type} `{!Persistence DB}.
Implicit Types (w : world DB).

Lemma create_node_1_grows : keeps (DB := DB) grows create_node_1.
Proof. unfold create_node_1. solve_keeps. Qed.

Lemma create_node_grows (expression : prog DB pyvalue) :
  keeps grows expression → keeps grows (create_node expression).
Proof. intros. unfold create_node. solve_keeps. Qed.

(** A node whose payload expression gives values in [Q] only. *)
Lemma create_node_keeps (R : relation (world DB)) `{!PreOrder R}
    (Q : pyvalue → Prop) (expression : prog DB pyvalue) :
  (∀ w v, (expression w).1 = Ok v → Q v) → keeps R expression →
  (∀ v, Q v → keeps R (entity_save (new_entity v))) →
  (∀ s, keeps R (stderr_write s)) →
  keeps R (create_node expression).
Proof.
  intros HQ He Hsave Herr. unfold create_node.
  apply keeps_try_except; [apply _| |done].
  apply (keeps_bind_val R Q); [done..|]. intros v Hv.
  apply keeps_bind; [apply _|by apply Hsave|]. intros _. by apply keeps_mret.
Qed.

Lemma create_node_emits (P : call → Prop) (m : outcome pyvalue) :
  (∀ v, m = Ok v → P (CallSave (new_entity v))) →
  keeps (DB := DB) (emits P) (create_node (lift m)).
Proof.
  intros HP. apply (create_node_keeps _ (λ v, m = Ok v)); [done| |..];
    eauto with keeps.
Qed.

Lemma create_node_saves (Q : pyvalue → Prop) (expression : prog DB pyvalue) :
  (∀ w v, (expression w).1 = Ok v → Q v) →
  keeps (emits (saves Q)) expression →
  keeps (emits (saves Q)) (create_node expression).
Proof.
  intros HQ He. apply (create_node_keeps _ Q); [done..| |eauto with keeps].
  intros v Hv. apply keeps_emits_entity_save. by intros e [= <-].
Qed.

Lemma get_credentials_keeps (R : relation (world DB)) `{!PreOrder R} :
  (∀ s, keeps R (stderr_write s)) → keeps R get_credentials.
Proof. intros. unfold get_credentials. solve_keeps. Qed.

Lemma connect_grows username password :
  keeps grows (connect username password).
Proof. unfold connect. solve_keeps. Qed.

Lemma connect_emits (P : call → Prop) username password :
  P (CallSetConnection (bolt_url username password)) →
  keeps (emits P) (connect username password).
Proof. intros. unfold connect. solve_keeps. Qed.

Lemma create_node_1_emits (P : call → Prop) :
  P (CallSave (new_entity (VStr non_problematic_payload))) →
  keeps (emits P) create_node_1.
Proof. intros. unfold create_node_1. solve_keeps. Qed.
End ScriptFacts.

#[export] Hint Resolve create_node_1_grows create_node_grows
  create_node_emits get_credentials_keeps connect_grows connect_emits
  create_node_1_emits : keeps.

(** ** The scripts *)

Section ScriptTheorems.
Context {DB : Type} `{!Persistence DB}.
Implicit Types (w : world DB).

(** C14 (error).  When [NEO4J_USERNAME] or [NEO4J_PASSWORD] is not set,
    each of the three scripts writes the message about the credentials
    to the error stream and exits with status 1; it makes no call to the
    service and leaves everything else as it was. *)
Theorem missing_credentials_end_the_script w :
  environ w !! "NEO4J_USERNAME" = None ∨
  environ w !! "NEO4J_PASSWORD" = None →
  Forall (λ main : prog DB unit,
            main w = (Raise (SystemExit 1),
                      World (environ w) (files w)
                            (stderr w ++ [credentials_message])
                            (calls w) (db w)) ∧
            exit_code (main w).1 = Some 1)
    [Main.main; MainFix.main; MainFileBased.main].
Proof.
  intros Hmiss. pose proof (get_credentials_missing w Hmiss) as Hc.
  repeat apply Forall_cons_2; [..|constructor];
    unfold Main.main, MainFix.main, MainFileBased.main;
    by rewrite (run_bind_Raise _ _ _ _ _ Hc).
Qed.

(** After the credentials, a connection that fails with
    [ServiceUnavailable] and the first node: the report is on the error
    stream and the call to [save] is made, whatever follows. *)
Lemma unreachable_then_first_save (rest : prog DB unit) w username password :
  environ w !! "NEO4J_USERNAME" = Some username →
  environ w !! "NEO4J_PASSWORD" = Some password →
  (set_connection (bolt_url username password) (db w)).1
    = Raise ServiceUnavailable →
  keeps grows rest →
  let w' := (('(username, password) ← get_credentials;
              connect username password;; create_node_1;; rest) w).2 in
  (stderr w ++ [unavailable_message]) `prefix_of` stderr w' ∧
  (calls w ++ [CallSetConnection (bolt_url username password);
               CallSave (new_entity (VStr non_problematic_payload))])
    `prefix_of` calls w'.
Proof.
  intros Hu Hp Hs Hrest w'. subst w'.
  erewrite run_bind_Ok by by apply get_credentials_present.
  cbv beta iota. erewrite run_bind_Ok by by apply connect_unavailable.
  match goal with |- context [(_ ≫= _) ?w1] =>
    destruct (keeps_bind_tail grows create_node_1 (λ _, rest) w1 (λ _, Hrest))
      as (_ & _ & Herr & Hcalls)
  end.
  rewrite create_node_1_run in Herr, Hcalls.
  rewrite save_block_result_calls in Hcalls. simpl in Hcalls.
  rewrite <- app_assoc in Hcalls. split; [|done].
  etrans; [|exact Herr]. apply save_block_result_stderr.
Qed.

(** C15 (error).  When the service cannot be reached,
    [main.py] and [main_fix.py] report it on the error stream and go on:
    the call to [save] for the first node is made on the connection that
    was never set. *)
Theorem unreachable_service_is_reported_and_first_save_attempted
    w username password :
  environ w !! "NEO4J_USERNAME" = Some username →
  environ w !! "NEO4J_PASSWORD" = Some password →
  (set_connection (bolt_url username password) (db w)).1
    = Raise ServiceUnavailable →
  Forall (λ main : prog DB unit,
            (stderr w ++ [unavailable_message]) `prefix_of` stderr (main w).2 ∧
            (calls w ++ [CallSetConnection (bolt_url username password);
                         CallSave (new_entity (VStr non_problematic_payload))])
              `prefix_of` calls (main w).2)
    [Main.main; MainFix.main].
Proof.
  intros Hu Hp Hs. repeat apply Forall_cons_2; [..|constructor].
  - unfold Main.main.
    apply (unreachable_then_first_save Main.node_2); [done..|].
    unfold Main.node_2. solve_keeps.
  - unfold MainFix.main.
    apply (unreachable_then_first_save (MainFix.node_2;; MainFix.node_3));
      [done..|].
    unfold MainFix.node_2, MainFix.node_3. solve_keeps.
Qed.

(** A relation [R] that the calls of the runtime keep, and that a save
    keeps when the payload is in [Q], holds of a whole script when the
    payloads of its text are in [Q]. *)
Section ScriptKeeps.
Context (R : relation (world DB)) `{!PreOrder R} (Q : pyvalue → Prop).
Context (Hfirst : Q (VStr non_problematic_payload)).
Context (Hsave : ∀ v, Q v → keeps R (entity_save (new_entity v))).
Context (Hconn : ∀ url, keeps R (db_set_connection url)).
Context (Herr : ∀ s, keeps R (stderr_write s)).

Lemma preamble_keeps {A} (k : prog DB A) :
  keeps R k →
  keeps R ('(username, password) ← get_credentials;
           connect username password;; create_node_1;; k).
Proof using All.
  intros Hk. unfold connect, create_node_1. solve_keeps.
Qed.

Lemma node_keeps (expression : prog DB pyvalue) :
  (∀ w v, (expression w).1 = Ok v → Q v) → keeps R expression →
  keeps R (create_node expression).
Proof using All. intros. by apply (create_node_keeps _ Q). Qed.

Lemma main_keeps : Q (VStr problematic_payload_1) → keeps R Main.main.
Proof using All.
  intros H1. apply preamble_keeps, node_keeps; [|solve_keeps].
  by intros w v [= <-].
Qed.

Lemma scenario_2_keeps :
  Q (VStr problematic_payload_2) → keeps R Main.scenario_2.
Proof using All.
  intros H2. apply preamble_keeps, node_keeps; [|solve_keeps].
  by intros w v [= <-].
Qed.

Lemma main_fix_keeps :
  (∀ p v, p = problematic_payload_1 ∨ p = problematic_payload_2 →
          trim_string_at_unicode_boundaries p MainFix.byte_limit = Ok v →
          Q v) →
  keeps R MainFix.main.
Proof using All.
  intros Htrim. apply preamble_keeps.
  apply keeps_bind; [done| |intros _]; (apply node_keeps; [|solve_keeps]);
    intros w v Hv.
  - apply (Htrim problematic_payload_1); [left; reflexivity|exact Hv].
  - apply (Htrim problematic_payload_2); [right; reflexivity|exact Hv].
Qed.

Lemma main_file_based_keeps :
  (∀ s, Forall is_scalar s → Q (VStr s)) → keeps R MainFileBased.main.
Proof using All.
  intros Hread. unfold MainFileBased.main, MainFileBased.node_2.
  apply keeps_bind_pair; [done|solve_keeps|intros u p].
  apply keeps_bind; [done|unfold connect; solve_keeps|intros _].
  apply (keeps_bind_val _ (Forall is_scalar));
    [intros w s; apply open_read_scalar|solve_keeps|intros p1 Hp1].
  unfold create_node_1. solve_keeps. apply node_keeps; [|solve_keeps].
  intros w v [= <-]. by apply Hread.
Qed.
End ScriptKeeps.

(** What each script asks the service to save: payloads in [Q], when
    the payloads of its text are. *)
Section Saves.
Context (Q : pyvalue → Prop) (Hfirst : Q (VStr non_problematic_payload)).

Lemma entity_save_saves v :
  Q v → keeps (DB := DB) (emits (saves Q)) (entity_save (new_entity v)).
Proof. intros Hv. apply keeps_emits_entity_save. by intros e [= <-]. Qed.

Lemma main_saves :
  Q (VStr problematic_payload_1) →
  keeps (DB := DB) (emits (saves Q)) Main.main.
Proof using Hfirst.
  apply main_keeps; auto using entity_save_saves with keeps.
  intros url. by apply keeps_emits_db_set_connection.
Qed.

Lemma main_fix_saves :
  (∀ p v, p = problematic_payload_1 ∨ p = problematic_payload_2 →
          trim_string_at_unicode_boundaries p MainFix.byte_limit = Ok v →
          Q v) →
  keeps (DB := DB) (emits (saves Q)) MainFix.main.
Proof using Hfirst.
  apply main_fix_keeps; auto using entity_save_saves with keeps.
  intros url. by apply keeps_emits_db_set_connection.
Qed.

Lemma main_file_based_saves :
  (∀ s, Forall is_scalar s → Q (VStr s)) →
  keeps (DB := DB) (emits (saves Q)) MainFileBased.main.
Proof using Hfirst.
  apply main_file_based_keeps; auto using entity_save_saves with keeps.
  intros url. by apply keeps_emits_db_set_connection.
Qed.
End Saves.

(** C16 (safety).  Every payload [main_fix.py] submits to the service
    takes at most [byte_limit] = 4000 bytes as an index key, whatever
    the service answers. *)
Theorem main_fix_submits_keys_within_limit w :
  ∃ l, calls (MainFix.main w).2 = calls w ++ l ∧
       Forall (λ c, ∀ e, c = CallSave e →
                 key_size (payload e) ≤ MainFix.byte_limit) l.
Proof.
  apply (main_fix_saves (λ v, key_size v ≤ MainFix.byte_limit));
    [by vm_compute|]. intros p v _. by apply trim_key_size.
Qed.

(** C34 (type).  Every payload the three scripts ask the service to
    save is a text payload: a [str], not a [bytearray], and of Unicode
    scalar values only. *)
Theorem scripts_submit_text_payloads w :
  Forall (λ main : prog DB unit,
            ∃ l, calls (main w).2 = calls w ++ l ∧
                 Forall (λ c, ∀ e, c = CallSave e → text_payload (payload e))
                   l)
    [Main.main; MainFix.main; MainFileBased.main].
Proof.
  assert (∀ s, Forall is_scalar s → text_payload (VStr s)) as Htext by done.
  pose proof (Htext _ non_problematic_payload_scalar) as H0.
  repeat apply Forall_cons_2; [..|constructor].
  - apply (main_saves text_payload H0), Htext, problematic_payload_1_scalar.
  - apply (main_fix_saves text_payload H0).
    destruct trimmed_payloads_agree as (t & H1 & H2 & Ht).
    intros p v [->| ->] Hv; rewrite ?H1, ?H2 in Hv; injection Hv as <-; auto.
  - by apply (main_file_based_saves text_payload H0).
Qed.

(** The two reads of [main_file_based.py], when a file is missing. *)
Lemma reads_missing (k : pystr → pystr → prog DB unit) w :
  files w !! "testcase1.txt" = None ∨ files w !! "testcase2.txt" = None →
  let r := (problematic_payload_1 ← open_read "testcase1.txt";
            problematic_payload_2 ← open_read "testcase2.txt";
            k problematic_payload_1 problematic_payload_2) w in
  ¬ is_Ok r.1 ∧ r.2 = w.
Proof.
  intros Hmiss r. subst r. unfold is_Ok.
  pose proof (open_read_state "testcase1.txt" w) as Hst.
  destruct (open_read "testcase1.txt" w) as [[s|x|] w'] eqn:H1;
    simpl in Hst; subst w'.
  - destruct Hmiss as [Hmiss|Hmiss];
      [by rewrite (open_read_missing _ _ Hmiss) in H1|].
    erewrite run_bind_Ok by done.
    erewrite run_bind_Raise by by apply open_read_missing.
    by split; [intros [? ?]|].
  - erewrite run_bind_Raise by done. by split; [intros [? ?]|].
  - erewrite run_bind_OutOfFuel by done. by split; [intros [? ?]|].
Qed.

(** C17 (error).  When [testcase1.txt] or [testcase2.txt] is missing,
    [main_file_based.py] does not end normally, and the only call it has
    made to the service is the one that sets the connection: no node is
    submitted. *)
Theorem file_based_missing_file_stops_before_save w username password :
  environ w !! "NEO4J_USERNAME" = Some username →
  environ w !! "NEO4J_PASSWORD" = Some password →
  files w !! "testcase1.txt" = None ∨ files w !! "testcase2.txt" = None →
  ¬ is_Ok (MainFileBased.main w).1 ∧
  calls (MainFileBased.main w).2 =
    calls w ++ [CallSetConnection (bolt_url username password)].
Proof.
  intros Hu Hp Hmiss. unfold MainFileBased.main.
  erewrite run_bind_Ok by by apply get_credentials_present. cbv beta iota.
  pose proof (connect_calls username password w) as Hcalls.
  destruct (connect_grows username password w) as (_ & Hfiles & _).
  destruct (connect username password w) as [[[]|x|] w1] eqn:Hc;
    simpl in Hcalls, Hfiles.
  - erewrite run_bind_Ok by done. rewrite <- Hfiles in Hmiss.
    destruct (reads_missing
                (λ p1 _, create_node_1;; MainFileBased.node_2 p1) w1 Hmiss)
      as [Hr ->]. done.
  - erewrite run_bind_Raise by done. by split; [intros [? ?]|].
  - erewrite run_bind_OutOfFuel by done. by split; [intros [? ?]|].
Qed.

(** C18 (functional).  [main.py], with the credentials set, the
    connection made and the first node saved: when the second call to
    [save] raises, a [DatabaseError] is reported with the message of the
    server and the script ends normally; any other exception ends the
    script, and nothing is reported. *)
Theorem main_second_save_raises w username password e1 x :
  environ w !! "NEO4J_USERNAME" = Some username →
  environ w !! "NEO4J_PASSWORD" = Some password →
  let r0 := set_connection (bolt_url username password) (db w) in
  let r1 := save (new_entity (VStr non_problematic_payload)) r0.2 in
  let r2 := save (new_entity (VStr problematic_payload_1)) r1.2 in
  r0.1 = Ok tt → r1.1 = Ok e1 → r2.1 = Raise x →
  Main.main w =
    (if is_DatabaseError x then Ok tt else Raise x,
     World (environ w) (files w)
       (if is_DatabaseError x then stderr w ++ [exn_message x] else stderr w)
       (calls w ++ [CallSetConnection (bolt_url username password);
                    CallSave (new_entity (VStr non_problematic_payload));
                    CallSave (new_entity (VStr problematic_payload_1))])
       r2.2).
Proof.
  intros Hu Hp r0 r1 r2 H0 H1 H2. unfold Main.main, Main.node_2.
  erewrite run_bind_Ok by by apply get_credentials_present. cbv beta iota.
  erewrite run_bind_Ok by by apply connect_Ok.
  erewrite run_bind_Ok
    by (rewrite create_node_1_run; unfold save_block_result; simpl;
        fold r0 r1; by rewrite H1).
  rewrite create_node_value. unfold save_block_result. simpl.
  fold r0 r1 r2. rewrite H2, <- !app_assoc. by destruct (is_DatabaseError x).
Qed.

(** C28 (functional).  [main_file_based.py] with the credentials set,
    the connection made, the two files readable as UTF-8 and the first
    node saved: what is left to run is the block of the second node on
    the text of [testcase1.txt], its line ends read as [\n].  The text
    of [testcase2.txt] is read and decoded, and never used. *)
Theorem file_based_saves_first_file w username password b1 b2 s1 s2 e1 :
  environ w !! "NEO4J_USERNAME" = Some username →
  environ w !! "NEO4J_PASSWORD" = Some password →
  files w !! "testcase1.txt" = Some b1 → utf8_decode b1 = Ok s1 →
  files w !! "testcase2.txt" = Some b2 → utf8_decode b2 = Ok s2 →
  let r0 := set_connection (bolt_url username password) (db w) in
  let r1 := save (new_entity (VStr non_problematic_payload)) r0.2 in
  r0.1 = Ok tt → r1.1 = Ok e1 →
  MainFileBased.main w =
    MainFileBased.node_2 (universal_newlines s1)
      (World (environ w) (files w) (stderr w)
         (calls w ++ [CallSetConnection (bolt_url username password);
                      CallSave (new_entity (VStr non_problematic_payload))])
         r1.2).
Proof.
  intros Hu Hp Hf1 Hs1 Hf2 Hs2 r0 r1 H0 H1. unfold MainFileBased.main.
  erewrite run_bind_Ok by by apply get_credentials_present. cbv beta iota.
  erewrite run_bind_Ok by by apply connect_Ok.
  erewrite run_bind_Ok by by eapply open_read_Some.
  erewrite run_bind_Ok by by eapply open_read_Some.
  erewrite run_bind_Ok; [done|].
  rewrite create_node_1_run. unfold save_block_result. simpl.
  fold r0 r1. by rewrite H1, <- app_assoc.
Qed.

(** C26 (equivalence).  [main_file_based.py] is [main.py] with the
    long payload read from a file: when [testcase1.txt] holds the UTF-8
    encoding of the literal [problematic_payload_1] and [testcase2.txt]
    can be read, the two scripts end with the same outcome and leave the
    same state, whatever the service answers. *)
Theorem file_based_runs_as_main w b1 b2 s2 :
  files w !! "testcase1.txt" = Some b1 →
  utf8_decode b1 = Ok problematic_payload_1 →
  files w !! "testcase2.txt" = Some b2 → utf8_decode b2 = Ok s2 →
  MainFileBased.main w = Main.main w.
Proof.
  intros Hf1 Hd1 Hf2 Hd2. unfold MainFileBased.main, Main.main.
  apply (run_bind_ext grows); [solve_keeps|].
  intros [u p] w1 (_ & Hw1 & _).
  apply (run_bind_ext grows); [apply connect_grows|].
  intros _ w2 (_ & Hw2 & _). rewrite <- Hw1, <- Hw2 in Hf1, Hf2.
  erewrite run_bind_Ok by by eapply open_read_Some.
  erewrite run_bind_Ok by by eapply open_read_Some.
  unfold MainFileBased.node_2, Main.node_2.
  by rewrite (universal_newlines_id _ problematic_payload_1_no_cr).
Qed.





End ScriptTheorems.

(** ** On a service that enforces the unique index *)

Section UniqueIndexTheorems.
Context {DB : Type} `{!Persistence DB} `{!UniqueIndex DB}.
Implicit Types (w : world DB).

(** A [try] block around one [save] that ends normally: the node is
    stored and nothing is reported, or something is reported. *)
Lemma save_block_Ok_cases e msg w w' :
  save_block_result e msg w = (Ok tt, w') →
  (payload e ∈ stored (db w') ∧ stderr w' = stderr w) ∨
  (∃ x, stderr w' = stderr w ++ [msg x]).
Proof.
  unfold save_block_result. pose proof (save_stored e (db w)) as Hst.
  destruct (save e (db w)).1 as [a|x|]; simpl; [| |done].
  - intros [= <-]. left. simpl. rewrite Hst. split; [left|done].
  - destruct (is_DatabaseError x); [|done]. intros [= <-]. eauto.
Qed.

(** A [try] block around one [save] of a payload that is stored already
    does not end normally. *)
Lemma save_block_duplicate e msg w :
  payload e ∈ stored (db w) → (save_block_result e msg w).1 ≠ Ok tt.
Proof.
  intros (x & Hx & Hdb)%save_duplicate. unfold save_block_result.
  by rewrite Hx, Hdb.
Qed.

(** Two nodes with the same payload, one after the other: when both
    blocks end normally, one of them has reported. *)
Lemma duplicate_nodes_report (m1 m2 : outcome pyvalue) v w :
  m1 = Ok v → m2 = Ok v →
  ((create_node (lift m1);; create_node (lift m2)) w).1 = Ok tt →
  ∃ m, (stderr w ++ [m]) `prefix_of`
         stderr ((create_node (lift m1);; create_node (lift m2)) w).2.
Proof.
  intros -> ->. rewrite run_bind. unfold seq.
  rewrite (create_node_lift_Ok _ v w eq_refl).
  destruct (save_block_result _ exn_message w) as [[[]|x|] w2] eqn:H2;
    [|done..].
  rewrite (create_node_lift_Ok _ v w2 eq_refl). intros Hok.
  destruct (save_block_Ok_cases _ _ _ _ H2) as [[Hin _]|[x Hx]].
  - destruct (save_block_duplicate _ exn_message w2 Hin Hok).
  - exists (exn_message x). rewrite <- Hx. apply save_block_result_stderr.
Qed.

(** C20 (safety).  On a service that enforces the unique index,
    [main_fix.py] never ends normally in silence: the two long payloads
    are the same text once trimmed, so when the second node is stored
    the third is refused with an exception the script does not catch.
    A normal end means that something was reported. *)
Theorem main_fix_never_completes_silently w :
  (MainFix.main w).1 = Ok tt →
  (length (stderr w) < length (stderr (MainFix.main w).2))%nat.
Proof.
  unfold MainFix.main, MainFix.node_2, MainFix.node_3. intros Hok.
  apply (run_bind_Ok_keeps grows) in Hok as Hstep; [|solve_keeps].
  destruct Hstep as ([u p] & w1 & H1 & Heq). rewrite Heq in Hok |- *.
  apply (run_bind_Ok_keeps grows) in Hok as Hstep; [|solve_keeps].
  destruct Hstep as ([] & w2 & H2 & Heq'). rewrite Heq' in Hok |- *.
  apply (run_bind_Ok_keeps grows) in Hok as Hstep; [|solve_keeps].
  destruct Hstep as ([] & w3 & H3 & Heq''). rewrite Heq'' in Hok |- *.
  destruct trimmed_payloads_agree as (t & Ht1 & Ht2 & _).
  destruct (duplicate_nodes_report _ _ _ w3 Ht1 Ht2 Hok)
    as [m Hm%prefix_length].
  assert (grows w w3) as (_ & _ & Hw%prefix_length & _)
    by (etrans; [|done]; by etrans).
  rewrite length_app in Hm. simpl in Hm. lia.
Qed.

#[local] Instance same_stored_preorder : PreOrder same_stored.
Proof.
  unfold same_stored. split; [by intros w|]. intros w1 w2 w3 H1 H2.
  congruence.
Qed.

Lemma get_credentials_same_stored :
  keeps same_stored (get_credentials (DB := DB)).
Proof. apply get_credentials_keeps; [apply _|done]. Qed.

Lemma connect_same_stored username password :
  keeps same_stored (connect username password).
Proof.
  unfold connect. apply keeps_try_except; [apply _| |done].
  intros w. apply set_connection_stored.
Qed.

Lemma open_read_same_stored name : keeps same_stored (open_read name).
Proof. intros w. unfold same_stored. by rewrite open_read_state. Qed.

Lemma first_node_duplicate (rest : prog DB unit) w :
  VStr non_problematic_payload ∈ stored (db w) →
  ((create_node_1;; rest) w).1 ≠ Ok tt.
Proof.
  intros Hin ([] & Ha & _)%run_bind_Ok_inv. rewrite create_node_1_run in Ha.
  exact (save_block_duplicate
           (new_entity (VStr non_problematic_payload)) _ w Hin Ha).
Qed.

(** C31 (safety).  On a service that enforces the unique index and
    already stores the first payload, as after an earlier run, none of
    the scripts ends normally: the first save is refused with an
    exception that no handler takes, unless the script has stopped
    before. *)
Theorem rerun_does_not_end_normally w :
  VStr non_problematic_payload ∈ stored (db w) →
  Forall (λ main : prog DB unit, (main w).1 ≠ Ok tt)
    [Main.main; MainFix.main; MainFileBased.main].
Proof.
  intros Hin. repeat apply Forall_cons_2; [..|constructor];
    unfold Main.main, MainFix.main, MainFileBased.main; intros Hok;
    apply (run_bind_Ok_keeps same_stored) in Hok as Hstep;
    try apply get_credentials_same_stored;
    destruct Hstep as ([u p] & w1 & H1 & Heq); rewrite Heq in Hok;
    apply (run_bind_Ok_keeps same_stored) in Hok as Hstep;
    try apply connect_same_stored;
    destruct Hstep as ([] & w2 & H2 & Heq'); rewrite Heq' in Hok;
    unfold same_stored in *.
  1, 2: by eapply first_node_duplicate; [|exact Hok]; rewrite H2, H1.
  apply (run_bind_Ok_keeps same_stored) in Hok as Hstep;
    [|apply open_read_same_stored].
  destruct Hstep as (s1 & w3 & H3 & Heq''). rewrite Heq'' in Hok.
  apply (run_bind_Ok_keeps same_stored) in Hok as Hstep;
    [|apply open_read_same_stored].
  destruct Hstep as (s2 & w4 & H4 & Heq3). rewrite Heq3 in Hok.
  eapply first_node_duplicate; [|exact Hok].
  unfold same_stored in *. by rewrite H4, H3, H2, H1.
Qed.
End UniqueIndexTheorems.

(** ** The scripts on the reference service *)

#[export] Instance keeps_wf_preorder : PreOrder keeps_wf.
Proof. unfold keeps_wf. split; [by intros w|]. intros w1 w2 w3. eauto. Qed.

Lemma keeps_wf_stderr_write s : keeps keeps_wf (stderr_write s).
Proof. by intros w Hw. Qed.

Lemma keeps_wf_open_read name : keeps keeps_wf (open_read name).
Proof. intros w Hw. by rewrite open_read_state. Qed.

Lemma keeps_wf_db_set_connection url : keeps keeps_wf (db_set_connection url).
Proof. intros w Hw. by apply ref_set_connection_wf. Qed.

Lemma keeps_wf_entity_save e : keeps keeps_wf (entity_save e).
Proof. intros w Hw. by apply ref_save_wf. Qed.

#[export] Hint Resolve keeps_wf_preorder keeps_wf_stderr_write
  keeps_wf_open_read keeps_wf_db_set_connection keeps_wf_entity_save : keeps.


(** [main.py] on a fresh server that behaves: with
    keys capped at 4095 bytes both nodes are stored, the second with a
    key of 4076 bytes, and nothing is reported; with keys capped at 4047
    bytes the second node is refused, the message of the server is
    reported, and the script still ends normally. *)
Theorem main_on_reference_service :
  (Main.main (fresh_world 4095)).1 = Ok tt ∧
  stderr (Main.main (fresh_world 4095)).2 = [] ∧
  key_size ∘ payload
    <$> nodes (db (Main.main (fresh_world 4095)).2)
    = [4076; 156] ∧
  (Main.main (fresh_world 4047)).1 = Ok tt ∧
  stderr (Main.main (fresh_world 4047)).2
    = ["Property value is too long to index"] ∧
  key_size ∘ payload
    <$> nodes (db (Main.main (fresh_world 4047)).2)
    = [156].
Proof. by vm_compute. Qed.

Section ReferenceRuns.
Implicit Types (w : world ref_db) (v : pyvalue).

(** A [try] block around one [save] on the reference service, on a
    connection: a payload that is new and fits the cap is stored. *)
Lemma save_block_ref_new e msg w :
  connected (db w) = true → payload e ∉ payload <$> nodes (db w) →
  key_size (payload e) ≤ key_cap (db w) →
  save_block_result e msg w =
    (Ok tt, World (environ w) (files w) (stderr w) (calls w ++ [CallSave e])
       {| reachable := reachable (db w); connected := true;
          nodes := {| serial_num := Some (length (nodes (db w)));
                      payload := payload e |} :: nodes (db w);
          key_cap := key_cap (db w) |}).
Proof.
  intros Hc Hnew Hsize. erewrite save_block_stored; [done|]. simpl.
  rewrite ref_save_new by done. by rewrite Hc.
Qed.

(** After the first node, two nodes with one payload: the first of
    the two is stored, the second is refused by the unique index, and
    the exception, which no handler takes, ends the run. *)
Lemma duplicate_after_first (first : prog ref_db unit) v0 v
    (m1 m2 : outcome pyvalue) msg w :
  (∀ w, first w = save_block_result (new_entity v0) msg w) →
  m1 = Ok v → m2 = Ok v → v ≠ v0 →
  connected (db w) = true → nodes (db w) = [] →
  key_size v0 ≤ key_cap (db w) → key_size v ≤ key_cap (db w) →
  (first;; create_node (lift m1);; create_node (lift m2)) w =
    (Raise (UniqueProperty "already exists with this payload"),
     World (environ w) (files w) (stderr w)
       (calls w ++ [CallSave (new_entity v0); CallSave (new_entity v);
                    CallSave (new_entity v)])
       {| reachable := reachable (db w); connected := true;
          nodes := [{| serial_num := Some 1%nat; payload := v |};
                    {| serial_num := Some 0%nat; payload := v0 |}];
          key_cap := key_cap (db w) |}).
Proof.
  intros Hfirst -> -> Hne Hc Hn H0 Hv.
  rewrite run_bind. unfold seq. rewrite Hfirst.
  rewrite save_block_ref_new by (rewrite ?Hn; done || apply not_elem_of_nil).
  rewrite Hn, run_bind. unfold seq.
  rewrite (create_node_lift_Ok _ v _ eq_refl).
  rewrite save_block_ref_new;
    [|done|simpl; by intros [?|[]%elem_of_nil]%elem_of_cons|done].
  rewrite (create_node_lift_Ok _ v _ eq_refl).
  erewrite save_block_raised;
    [|apply ref_save_stored_already; simpl; [done|left]|done].
  simpl. by rewrite <- !app_assoc.
Qed.

(** [main_fix.py] from its first line, on a server that is up and
    empty. *)
Lemma main_fix_run_ref w username password :
  environ w !! "NEO4J_USERNAME" = Some username →
  environ w !! "NEO4J_PASSWORD" = Some password →
  reachable (db w) = true → nodes (db w) = [] →
  MainFix.byte_limit ≤ key_cap (db w) →
  ∃ t, key_size (VStr t) = MainFix.byte_limit ∧
       MainFix.main w =
         (Raise (UniqueProperty "already exists with this payload"),
          World (environ w) (files w) (stderr w)
            (calls w ++ [CallSetConnection (bolt_url username password);
                         CallSave (new_entity (VStr non_problematic_payload));
                         CallSave (new_entity (VStr t));
                         CallSave (new_entity (VStr t))])
            {| reachable := true; connected := true;
               nodes := [{| serial_num := Some 1%nat; payload := VStr t |};
                         {| serial_num := Some 0%nat;
                            payload := VStr non_problematic_payload |}];
               key_cap := key_cap (db w) |}).
Proof.
  intros Hu Hp Hr Hn Hcap.
  destruct trimmed_payloads_agree as (t & H1 & H2 & _). exists t.
  pose proof (trimmed_payload_size _ H1) as Ht.
  pose proof first_payload_size as H0. split; [exact Ht|].
  assert (VStr t ≠ VStr non_problematic_payload) as Hne
    by (intros Heq; rewrite Heq, H0 in Ht; done).
  unfold MainFix.main, MainFix.node_2, MainFix.node_3.
  erewrite run_bind_Ok by by apply get_credentials_present. cbv beta iota.
  erewrite run_bind_Ok
    by (apply connect_Ok; simpl; by rewrite ref_set_connection_up).
  simpl db. rewrite ref_set_connection_up by exact Hr. cbn [snd].
  rewrite (duplicate_after_first create_node_1 (VStr non_problematic_payload)
             (VStr t) _ _ (λ _, node_1_message) _ create_node_1_run H1 H2 Hne);
    [|reflexivity|exact Hn
     |rewrite H0; unfold MainFix.byte_limit in Hcap; cbn [db key_cap]; lia
     |rewrite Ht; exact Hcap].
  simpl. by rewrite <- app_assoc.
Qed.

(** C22 (error).  [main_fix.py] on a server that behaves, up and empty,
    with keys capped at 4000 bytes or more, whatever the rest of the
    state: the first node and the second, trimmed to 4000 bytes, are
    stored; the third is refused by the unique index with an exception
    that is not a [DatabaseError], and the script ends there with
    status 1, having written nothing to the error stream. *)
Theorem main_fix_on_reference_service w username password :
  environ w !! "NEO4J_USERNAME" = Some username →
  environ w !! "NEO4J_PASSWORD" = Some password →
  reachable (db w) = true → nodes (db w) = [] →
  MainFix.byte_limit ≤ key_cap (db w) →
  (MainFix.main w).1
    = Raise (UniqueProperty "already exists with this payload") ∧
  exit_code (MainFix.main w).1 = Some 1 ∧
  stderr (MainFix.main w).2 = stderr w ∧
  key_size ∘ payload <$> nodes (db (MainFix.main w).2) = [4000; 156].
Proof.
  intros Hu Hp Hr Hn Hcap.
  destruct (main_fix_run_ref w username password) as (t & Ht & ->);
    [done..|].
  repeat split. cbn [snd db nodes fmap list_fmap compose payload].
  by rewrite Ht, first_payload_size.
Qed.
End ReferenceRuns.

(** ** Witnesses *)


Lemma missing_credentials_end_the_script_witness :
  (environ no_password_world !! "NEO4J_USERNAME" = None ∨
   environ no_password_world !! "NEO4J_PASSWORD" = None) ∧
  Forall (λ main : prog ref_db unit,
            exit_code (main no_password_world).1 = Some 1)
    [Main.main; MainFix.main; MainFileBased.main].
Proof.
  assert (environ no_password_world !! "NEO4J_PASSWORD" = None) as Hp
    by (by vm_compute).
  split; [by right|].
  eapply Forall_impl;
    [apply (missing_credentials_end_the_script _ (or_intror Hp))|].
  by intros main [_ Hmain].
Defined.

Lemma unreachable_service_is_reported_and_first_save_attempted_witness :
  Forall (λ main : prog ref_db unit,
            (stderr down_world ++ [unavailable_message])
              `prefix_of` stderr (main down_world).2 ∧
            (calls down_world ++
               [CallSetConnection (bolt_url "neo4j" "secret");
                CallSave (new_entity (VStr non_problematic_payload))])
              `prefix_of` calls (main down_world).2)
    [Main.main; MainFix.main].
Proof.
  apply (unreachable_service_is_reported_and_first_save_attempted
           down_world "neo4j" "secret"); by vm_compute.
Defined.

Lemma file_based_missing_file_stops_before_save_witness :
  ¬ is_Ok (MainFileBased.main (fresh_world 4095)).1 ∧
  calls (MainFileBased.main (fresh_world 4095)).2 =
    calls (fresh_world 4095)
      ++ [CallSetConnection (bolt_url "neo4j" "secret")].
Proof.
  apply (file_based_missing_file_stops_before_save
           (fresh_world 4095) "neo4j" "secret");
    [by vm_compute..|left; by vm_compute].
Defined.

Lemma main_second_save_raises_witness :
  (Main.main (fresh_world 4047)).1 = Ok tt ∧
  stderr (Main.main (fresh_world 4047)).2
    = ["Property value is too long to index"].
Proof.
  assert (Main.main (fresh_world 4047) = _) as Hmain
    by (apply (main_second_save_raises (fresh_world 4047) "neo4j" "secret"
                 {| serial_num := Some 0%nat;
                    payload := VStr non_problematic_payload |}
                 (DatabaseError "Property value is too long to index"));
        by vm_compute).
  split; [exact (f_equal fst Hmain)|exact (f_equal (stderr ∘ snd) Hmain)].
Defined.

Lemma main_fix_never_completes_silently_witness :
  (MainFix.main (fresh_world 3000)).1 = Ok tt ∧
  (length (stderr (fresh_world 3000))
     < length (stderr (MainFix.main (fresh_world 3000)).2))%nat.
Proof.
  assert ((MainFix.main (fresh_world 3000)).1 = Ok tt) as Hok
    by (by vm_compute).
  split; [done|]. by apply main_fix_never_completes_silently.
Defined.


Lemma file_based_saves_first_file_witness :
  calls (MainFileBased.main files_world).2 =
    [CallSetConnection (bolt_url "neo4j" "secret");
     CallSave (new_entity (VStr non_problematic_payload));
     CallSave (new_entity (VStr [0x3B1; 0x3B2; 10]))].
Proof.
  rewrite (file_based_saves_first_file files_world "neo4j" "secret"
             [0xCE; 0xB1; 0xCE; 0xB2; 13; 10] [0x68] [0x3B1; 0x3B2; 13; 10]
             [0x68]
             {| serial_num := Some 0%nat;
                payload := VStr non_problematic_payload |});
    by vm_compute.
Defined.

Lemma rerun_does_not_end_normally_witness :
  VStr non_problematic_payload
    ∈ stored (db (Main.main (fresh_world 4095)).2) ∧
  Forall (λ main : prog ref_db unit,
            (main (Main.main (fresh_world 4095)).2).1 ≠ Ok tt)
    [Main.main; MainFix.main; MainFileBased.main].
Proof.
  assert (VStr non_problematic_payload
            ∈ stored (db (Main.main (fresh_world 4095)).2)) as Hin
    by decide_closed.
  split; [done|]. by apply rerun_does_not_end_normally.
Defined.


Lemma main_fix_on_reference_service_witness :
  (MainFix.main (fresh_world 4095)).1
    = Raise (UniqueProperty "already exists with this payload") ∧
  exit_code (MainFix.main (fresh_world 4095)).1 = Some 1 ∧
  stderr (MainFix.main (fresh_world 4095)).2 = [] ∧
  key_size ∘ payload <$> nodes (db (MainFix.main (fresh_world 4095)).2)
    = [4000; 156].
Proof.
  apply (main_fix_on_reference_service (fresh_world 4095) "neo4j" "secret");
    done.
Defined.

Lemma file_based_runs_as_main_witness :
  MainFileBased.main literal_files_world = Main.main literal_files_world.
Proof.
  apply (file_based_runs_as_main literal_files_world
           (bytes_of_string
              (String.concat EmptyString problematic_payload_1_source))
           [0x68] [0x68]); by vm_compute.
Defined.
