(* ===== verification/Scenarios.v ===== *)
(** * Scenarios: the scripts on the server with the defect

    The scripts run on the server of [Defect]: what scenario 1 and
    scenario 2 of [src/src/main.py] leave behind, that
    [src/src/main_fix.py] keeps the index readable, what a script meets
    once the index cannot be read, and that a script which submits safe
    payloads only simulates its run on the reference service, statement
    by statement. *)

From Stdlib Require Import ZArith Lia.
From stdpp Require Import base list numbers strings gmap relations.
From S2P Require Import Prelude Python TruncateSpec Codec Utf8 Truncator.
From S2P Require Import Payloads Service Process Simulation Defect.
From S2P Require Import Scripts.

#[local] Open Scope Z_scope.

(** ** Processes on the server with the defect *)

(** A process on the server with the defect: the credentials set, no
    file, the server in the state [d]. *)
Definition neo_world (d : neo_db) : world neo_db :=
  start sample_credentials [] d.

(** The server after scenario 1 of [main.py] on a fresh server, then
    [match (a) detach delete a;], then a restart. *)
Definition after_scenario_1 : neo_db :=
  neo_restart (neo_detach_delete (db (Main.main (neo_world neo_fresh)).2)).

(** The index can be read after a statement when it could before. *)
Definition keeps_reliable : relation (world neo_db) := λ w w',
  key_cap (store (db w)) = index_key_cap ∧ index_reliable (db w) →
  key_cap (store (db w')) = index_key_cap ∧ index_reliable (db w').

#[local] Opaque trim_string_at_unicode_boundaries non_problematic_payload
  problematic_payload_1 problematic_payload_2.

(** ** Two services a script cannot tell apart *)

Section ScriptSimulation.
Context {DB1 DB2 : Type} `{!Persistence DB1} `{!Persistence DB2}.
Context (S : DB1 → DB2 → Prop) (Q : pyvalue → Prop) `{!Refines S Q}.
Context (Hfirst : Q (VStr non_problematic_payload)).

Lemma create_node_simulates (e1 : prog DB1 pyvalue) (e2 : prog DB2 pyvalue) :
  (∀ w v, (e1 w).1 = Ok v → Q v) → simulates S e1 e2 →
  simulates S (create_node e1) (create_node e2).
Proof using Refines0.
  intros HQ He. unfold create_node.
  apply simulates_try_except; [|solve_simulates].
  apply (simulates_bind_val S Q); [done..|]. intros v Hv.
  apply simulates_bind; [|solve_simulates].
  by apply (simulates_entity_save S Q).
Qed.

Lemma preamble_simulates (k1 : prog DB1 unit) (k2 : prog DB2 unit) :
  simulates S k1 k2 →
  simulates S
    ('(username, password) ← get_credentials;
     connect username password;; create_node_1;; k1)
    ('(username, password) ← get_credentials;
     connect username password;; create_node_1;; k2).
Proof using All.
  intros Hk. unfold get_credentials, connect, create_node_1.
  solve_simulates.
Qed.

Lemma scenario_2_simulates :
  Q (VStr problematic_payload_2) →
  simulates S Main.scenario_2 Main.scenario_2.
Proof using All.
  intros H2. apply preamble_simulates, create_node_simulates;
    [|solve_simulates]. by intros w v [= <-].
Qed.

Lemma main_fix_simulates :
  (∀ p v, trim_string_at_unicode_boundaries p MainFix.byte_limit = Ok v →
          Q v) →
  simulates S MainFix.main MainFix.main.
Proof using All.
  intros Htrim. apply preamble_simulates.
  apply simulates_bind; [|intros _];
    (apply create_node_simulates; [|solve_simulates]);
    intros w v Hv; exact (Htrim _ _ Hv).
Qed.
End ScriptSimulation.

(** ** The scripts on the server with the defect *)

#[export] Instance keeps_reliable_preorder : PreOrder keeps_reliable.
Proof.
  unfold keeps_reliable. split; [by intros w|]. intros w1 w2 w3. eauto.
Qed.

Lemma keeps_reliable_entity_save v :
  safe_payload v → keeps keeps_reliable (entity_save (new_entity v)).
Proof.
  intros Hv w [Hcap Hw]. simpl.
  split; [by rewrite neo_save_key_cap|by apply neo_save_index_reliable].
Qed.

Lemma keeps_reliable_db_set_connection url :
  keeps keeps_reliable (db_set_connection url).
Proof.
  intros w [Hcap Hw]. simpl. by rewrite ref_set_connection_key_cap.
Qed.

(** What the truncator returns for the budget of [main_fix.py] is
    safe. *)
Lemma trimmed_is_safe p v :
  trim_string_at_unicode_boundaries p MainFix.byte_limit = Ok v →
  safe_payload v.
Proof.
  intros Hv%trim_key_size; [|done]. left. apply unreliable_false.
  unfold MainFix.byte_limit in Hv. lia.
Qed.

Lemma first_payload_is_safe : safe_payload (VStr non_problematic_payload).
Proof. left. by vm_compute. Qed.

Lemma second_long_payload_is_safe :
  safe_payload (VStr problematic_payload_2).
Proof. right. by vm_compute. Qed.

(** The payload of scenario 1: under the cap of the index, with a key
    the index cannot read back. *)
Lemma first_long_payload_hazard :
  key_size (VStr problematic_payload_1) = 4076 ∧
  unreliable (VStr problematic_payload_1) = true ∧
  unreliable_key_message (VStr problematic_payload_1)
    = "Read unreliable key, keySize=4084, keyValueSizeCap=4047".
Proof. by vm_compute. Qed.

Lemma keeps_reliable_stderr_write s : keeps keeps_reliable (stderr_write s).
Proof. intros w Hw. exact Hw. Qed.

(** A [try] block around one [save], once the index cannot be read:
    the handler reports the key the server met. *)
Lemma save_block_unreadable e msg (w : world neo_db) k :
  connected (store (db w)) = true →
  List.find unreliable (index (db w)) = Some k →
  save_block_result e msg w =
    (Ok tt, World (environ w) (files w)
              (stderr w ++ [msg (DatabaseError (unreliable_key_message k))])
              (calls w ++ [CallSave e]) (db w)).
Proof.
  intros Hc Hk. unfold save_block_result. simpl.
  by rewrite (neo_save_unreadable e _ k Hc Hk).
Qed.

Section DefectRuns.
Implicit Types (w : world neo_db) (v : pyvalue).

(** A [try] block around one [save] on the server with the defect, on
    a connection and with the index readable: a payload that is new and
    under the cap of the index is stored and its key added to the
    index, whatever its size. *)
Lemma save_block_neo_new e msg w :
  connected (store (db w)) = true → index_reliable (db w) →
  payload e ∉ payload <$> nodes (store (db w)) →
  key_size (payload e) ≤ key_cap (store (db w)) →
  save_block_result e msg w =
    (Ok tt, World (environ w) (files w) (stderr w) (calls w ++ [CallSave e])
       {| store :=
            {| reachable := reachable (store (db w)); connected := true;
               nodes := {| serial_num := Some (length (nodes (store (db w))));
                           payload := payload e |} :: nodes (store (db w));
               key_cap := key_cap (store (db w)) |};
          index := payload e :: index (db w) |}).
Proof.
  intros Hc Hrel Hnew Hsize. erewrite save_block_stored; [done|]. simpl.
  rewrite neo_save_reliable, ref_save_new by done. simpl. by rewrite Hc.
Qed.

(** The first node and a second one, the index readable before: both
    are stored in silence, and the two keys are in the index. *)
Lemma two_saves_corrupt (first : prog neo_db unit) v0 v1 msg w :
  (∀ w, first w = save_block_result (new_entity v0) msg w) →
  v1 ≠ v0 → connected (store (db w)) = true → index_reliable (db w) →
  v0 ∉ payload <$> nodes (store (db w)) →
  v1 ∉ payload <$> nodes (store (db w)) →
  unreliable v0 = false → key_size v0 ≤ key_cap (store (db w)) →
  key_size v1 ≤ key_cap (store (db w)) →
  (first;; create_node (mret v1)) w =
    (Ok tt,
     World (environ w) (files w) (stderr w)
       (calls w ++ [CallSave (new_entity v0); CallSave (new_entity v1)])
       {| store :=
            {| reachable := reachable (store (db w)); connected := true;
               nodes :=
                 {| serial_num := Some (S (length (nodes (store (db w)))));
                    payload := v1 |}
                 :: {| serial_num := Some (length (nodes (store (db w))));
                       payload := v0 |} :: nodes (store (db w));
               key_cap := key_cap (store (db w)) |};
          index := v1 :: v0 :: index (db w) |}).
Proof.
  intros Hfirst Hne Hc Hrel H0 H1 Hsafe Hs0 Hs1.
  rewrite run_bind. unfold seq. rewrite Hfirst.
  rewrite save_block_neo_new by done. rewrite create_node_value.
  rewrite save_block_neo_new;
    [simpl; by rewrite <- app_assoc|done|by constructor| |done].
  simpl. by intros [?|?]%elem_of_cons.
Qed.

(** C37 (functional).  Scenario 1 of [main.py] on the server with the
    defect, as its comments record it.  With the credentials set, the
    server up, its index readable and the two payloads not stored yet,
    the script ends normally and in silence: nothing tells that the
    second save has left in the index a key it cannot read.  From then
    on, whatever is done to the server short of erasing its data (calls
    of clients, a delete of every node, a restart), the index cannot be
    read and every save on a connection fails with the error of the
    log, a key of 4084 bytes against the cap of 4047. *)
Theorem scenario_1_corrupts_the_index_for_good w username password :
  environ w !! "NEO4J_USERNAME" = Some username →
  environ w !! "NEO4J_PASSWORD" = Some password →
  reachable (store (db w)) = true → key_cap (store (db w)) = index_key_cap →
  index_reliable (db w) →
  VStr non_problematic_payload ∉ payload <$> nodes (store (db w)) →
  VStr problematic_payload_1 ∉ payload <$> nodes (store (db w)) →
  (Main.main w).1 = Ok tt ∧ stderr (Main.main w).2 = stderr w ∧
  ∀ d', rtc neo_step (db (Main.main w).2) d' →
    ¬ index_reliable d' ∧
    ∀ e, connected (store d') = true →
      (neo_save e d').1 =
        Raise (DatabaseError
                 "Read unreliable key, keySize=4084, keyValueSizeCap=4047").
Proof.
  intros Hu Hp Hr Hcap Hrel H0 H1.
  destruct first_long_payload_hazard as (Hsize & Hbad & Hmsg).
  pose proof first_payload_size as Hsize0.
  assert (VStr problematic_payload_1 ≠ VStr non_problematic_payload) as Hne
    by congruence.
  unfold Main.main, Main.node_2.
  erewrite run_bind_Ok by by apply get_credentials_present. cbv beta iota.
  erewrite run_bind_Ok by (apply connect_Ok; by rewrite neo_set_connection_up).
  rewrite neo_set_connection_up by exact Hr. cbn [snd fst].
  rewrite (two_saves_corrupt create_node_1 (VStr non_problematic_payload)
             (VStr problematic_payload_1) (λ _, node_1_message) _
             create_node_1_run Hne);
    [|reflexivity|exact Hrel|exact H0|exact H1
     |apply unreliable_false; rewrite Hsize0; lia
     |rewrite Hsize0; cbn [db store key_cap]; rewrite Hcap; by vm_compute
     |rewrite Hsize; cbn [db store key_cap]; rewrite Hcap; by vm_compute].
  cbn [fst snd stderr db]. split; [reflexivity|]. split; [reflexivity|].
  intros d' Hsteps.
  destruct (unreadable_forever _ _ (VStr problematic_payload_1) Hsteps)
    as [Hk Hsave]; [cbn [db index find]; by rewrite Hbad|].
  split; [by intros Hd'%find_unreliable_None; rewrite Hk in Hd'|].
  intros e Hc. by rewrite (Hsave e Hc), Hmsg.
Qed.
End DefectRuns.

(** C38 (safety).  [main_fix.py] never harms the index, and neither
    does scenario 2 of [main.py]: run on the server with the defect,
    whatever the state of the process, each leaves the index readable
    when it found it so.  Every payload [main_fix.py] submits takes at
    most 4000 bytes, and the long payload of scenario 2 is over the cap
    of the index, which refuses it. *)
Theorem harmless_scripts_keep_the_index_readable (w : world neo_db) :
  key_cap (store (db w)) = index_key_cap → index_reliable (db w) →
  Forall (λ main : prog neo_db unit, index_reliable (db (main w).2))
    [MainFix.main; Main.scenario_2].
Proof.
  intros Hcap Hw.
  assert (∀ main : prog neo_db unit,
            keeps keeps_reliable main → index_reliable (db (main w).2))
    as Hkeeps by (intros main Hmain; by apply (Hmain w)).
  repeat apply Forall_cons_2; [..|constructor]; apply Hkeeps.
  - apply (main_fix_keeps keeps_reliable safe_payload);
      auto using first_payload_is_safe, keeps_reliable_entity_save,
        keeps_reliable_db_set_connection, keeps_reliable_stderr_write.
    intros p v _. apply trimmed_is_safe.
  - apply (scenario_2_keeps keeps_reliable safe_payload);
      auto using first_payload_is_safe, second_long_payload_is_safe,
        keeps_reliable_entity_save, keeps_reliable_db_set_connection,
        keeps_reliable_stderr_write.
Qed.

(** Once the index cannot be read: the first node and one more, or two
    more, all fail on the same key and are reported, and nothing is
    stored. *)
Lemma two_nodes_unreadable (first : prog neo_db unit) e0 msg v
    (w : world neo_db) k :
  (∀ w, first w = save_block_result e0 msg w) →
  connected (store (db w)) = true →
  List.find unreliable (index (db w)) = Some k →
  (first;; create_node (mret v)) w =
    (Ok tt,
     World (environ w) (files w)
       (stderr w ++ [msg (DatabaseError (unreliable_key_message k));
                     unreliable_key_message k])
       (calls w ++ [CallSave e0; CallSave (new_entity v)]) (db w)).
Proof.
  intros Hfirst Hc Hk. rewrite run_bind. unfold seq. rewrite Hfirst.
  rewrite (save_block_unreadable _ _ _ k) by done. rewrite create_node_value.
  rewrite (save_block_unreadable _ _ _ k) by done. simpl.
  by rewrite <- !app_assoc.
Qed.

Lemma three_nodes_unreadable (first : prog neo_db unit) e0 msg
    (m1 m2 : outcome pyvalue) v1 v2 (w : world neo_db) k :
  (∀ w, first w = save_block_result e0 msg w) → m1 = Ok v1 → m2 = Ok v2 →
  connected (store (db w)) = true →
  List.find unreliable (index (db w)) = Some k →
  (first;; create_node (lift m1);; create_node (lift m2)) w =
    (Ok tt,
     World (environ w) (files w)
       (stderr w ++ [msg (DatabaseError (unreliable_key_message k));
                     unreliable_key_message k; unreliable_key_message k])
       (calls w ++ [CallSave e0; CallSave (new_entity v1);
                    CallSave (new_entity v2)]) (db w)).
Proof.
  intros Hfirst -> -> Hc Hk. rewrite run_bind. unfold seq. rewrite Hfirst.
  rewrite (save_block_unreadable _ _ _ k) by done.
  rewrite run_bind. unfold seq. rewrite (create_node_lift_Ok _ v1 _ eq_refl).
  rewrite (save_block_unreadable _ _ _ k) by done.
  rewrite (create_node_lift_Ok _ v2 _ eq_refl).
  rewrite (save_block_unreadable _ _ _ k) by done. simpl.
  by rewrite <- !app_assoc.
Qed.

(** The two scripts from their first line, on a server that is up and
    whose index cannot be read. *)
Section UnreadableRuns.
Context (w : world neo_db) (username password : string) (k : pyvalue).
Context (Hu : environ w !! "NEO4J_USERNAME" = Some username).
Context (Hp : environ w !! "NEO4J_PASSWORD" = Some password).
Context (Hr : reachable (store (db w)) = true).
Context (Hk : List.find unreliable (index (db w)) = Some k).

Lemma main_run_unreadable :
  Main.main w =
    (Ok tt,
     World (environ w) (files w)
       (stderr w ++ [node_1_message; unreliable_key_message k])
       (calls w ++ [CallSetConnection (bolt_url username password);
                    CallSave (new_entity (VStr non_problematic_payload));
                    CallSave (new_entity (VStr problematic_payload_1))])
       (set_connection (bolt_url username password) (db w)).2).
Proof using All.
  unfold Main.main, Main.node_2.
  erewrite run_bind_Ok by by apply get_credentials_present. cbv beta iota.
  erewrite run_bind_Ok by (apply connect_Ok; by rewrite neo_set_connection_up).
  erewrite two_nodes_unreadable;
    [|apply create_node_1_run|by rewrite neo_set_connection_up
     |by rewrite neo_set_connection_up].
  simpl. by rewrite <- !app_assoc.
Qed.

Lemma main_fix_run_unreadable :
  ∃ t, MainFix.main w =
    (Ok tt,
     World (environ w) (files w)
       (stderr w ++ [node_1_message; unreliable_key_message k;
                     unreliable_key_message k])
       (calls w ++ [CallSetConnection (bolt_url username password);
                    CallSave (new_entity (VStr non_problematic_payload));
                    CallSave (new_entity (VStr t));
                    CallSave (new_entity (VStr t))])
       (set_connection (bolt_url username password) (db w)).2).
Proof using All.
  destruct trimmed_payloads_agree as (t & H1 & H2 & _). exists t.
  unfold MainFix.main, MainFix.node_2, MainFix.node_3.
  erewrite run_bind_Ok by by apply get_credentials_present. cbv beta iota.
  erewrite run_bind_Ok by (apply connect_Ok; by rewrite neo_set_connection_up).
  erewrite (three_nodes_unreadable _ _ _ _ _ _ _ _ k create_node_1_run H1 H2);
    [|by rewrite neo_set_connection_up..].
  simpl. by rewrite <- !app_assoc.
Qed.
End UnreadableRuns.

(** C39 (error).  Once the index holds a key it cannot read, neither
    [main.py] nor [main_fix.py] stores anything, trimmed or not: with
    the credentials set and the server up, every save fails on that
    key; each script reports the first with the message of node 1 and
    the others with the message of the server, and still ends
    normally. *)
Theorem unreadable_index_fails_every_save (w : world neo_db)
    username password :
  environ w !! "NEO4J_USERNAME" = Some username →
  environ w !! "NEO4J_PASSWORD" = Some password →
  reachable (store (db w)) = true → ¬ index_reliable (db w) →
  ∃ k, k ∈ index (db w) ∧ unreliable k = true ∧
       (Main.main w).1 = Ok tt ∧ (MainFix.main w).1 = Ok tt ∧
       stderr (Main.main w).2 =
         stderr w ++ [node_1_message; unreliable_key_message k] ∧
       stderr (MainFix.main w).2 =
         stderr w ++ [node_1_message; unreliable_key_message k;
                      unreliable_key_message k] ∧
       nodes (store (db (Main.main w).2)) = nodes (store (db w)) ∧
       nodes (store (db (MainFix.main w).2)) = nodes (store (db w)).
Proof.
  intros Hu Hp Hr [k Hk]%find_unreliable_Some. exists k.
  destruct (find_unreliable_elem _ _ Hk) as [Hin Hbad].
  destruct (main_fix_run_unreadable w username password k Hu Hp Hr Hk)
    as [t ->].
  rewrite (main_run_unreadable w username password k Hu Hp Hr Hk).
  rewrite neo_set_connection_up by exact Hr. by repeat split.
Qed.

(** Scenario 2 submits safe payloads only: the long one is refused by
    both services. *)
Lemma scenario_2_runs_as_on_the_reference_service :
  simulates neo_sim Main.scenario_2 Main.scenario_2.
Proof.
  apply (scenario_2_simulates neo_sim safe_payload first_payload_is_safe).
  apply second_long_payload_is_safe.
Qed.

(** ** Witnesses *)

Lemma scenario_1_corrupts_the_index_for_good_witness :
  (Main.main (neo_world neo_fresh)).1 = Ok tt ∧
  stderr (Main.main (neo_world neo_fresh)).2 = [] ∧
  ∀ d', rtc neo_step (db (Main.main (neo_world neo_fresh)).2) d' →
    ¬ index_reliable d' ∧
    ∀ e, connected (store d') = true →
      (neo_save e d').1 =
        Raise (DatabaseError
                 "Read unreliable key, keySize=4084, keyValueSizeCap=4047").
Proof.
  apply (scenario_1_corrupts_the_index_for_good (neo_world neo_fresh)
           "neo4j" "secret");
    [done|done|done|done|constructor|apply not_elem_of_nil..].
Defined.

Lemma harmless_scripts_keep_the_index_readable_witness :
  Forall (λ main : prog neo_db unit,
            index_reliable (db (main (neo_world neo_fresh)).2))
    [MainFix.main; Main.scenario_2].
Proof.
  apply (harmless_scripts_keep_the_index_readable (neo_world neo_fresh));
    [done|constructor].
Defined.

Lemma unreadable_index_fails_every_save_witness :
  ∃ k, k ∈ index after_scenario_1 ∧ unreliable k = true ∧
       (Main.main (neo_world after_scenario_1)).1 = Ok tt ∧
       (MainFix.main (neo_world after_scenario_1)).1 = Ok tt ∧
       stderr (Main.main (neo_world after_scenario_1)).2 =
         [] ++ [node_1_message; unreliable_key_message k] ∧
       stderr (MainFix.main (neo_world after_scenario_1)).2 =
         [] ++ [node_1_message; unreliable_key_message k;
                unreliable_key_message k] ∧
       nodes (store (db (Main.main (neo_world after_scenario_1)).2)) = [] ∧
       nodes (store (db (MainFix.main (neo_world after_scenario_1)).2)) = [].
Proof.
  apply (unreadable_index_fails_every_save (neo_world after_scenario_1)
           "neo4j" "secret"); [done..|].
  decide_closed.
Defined.
