(* ===== verification/Traces.v ===== *)
(** * Traces: what the scripts do to the world, call by call

    The three scripts as trees of calls ([Calls]), written as their
    programs are in [Scripts], and the protocol their calls follow: the
    user name is read, then the password, then the connection is set
    with the URL made of the two, then files are read and nodes saved;
    a failure that a handler takes is reported at once, with the message
    of that handler, and any other failure ends the run.

    The protocol is a monitor, [protocol], that steps on each event.
    That a tree follows it is proved block by block with [follows], a
    weakest precondition on trees, for every answer the calls may get.
    The theorems state it of the runs, together with the agreement of
    the trees with the programs.  The last section compares the calls
    of [main_fix.py] on the server with the defect and on the reference
    service. *)

From Stdlib Require Import ZArith Lia.
From stdpp Require Import base list numbers strings gmap.
From S2P Require Import Prelude Python TruncateSpec Codec Utf8 Truncator.
From S2P Require Import Payloads Service Process Calls Simulation Defect.
From S2P Require Import Scripts Scenarios.

#[local] Open Scope Z_scope.

(** ** The scripts as trees *)

(** "Get credentials" *)
Definition get_credentials_tree : proc (string * string) :=
  proc_try
    (username ← invoke (GetEnv "NEO4J_USERNAME");
     password ← invoke (GetEnv "NEO4J_PASSWORD");
     mret (username, password))
    is_KeyError
    (λ _, invoke (StderrWrite credentials_message);;
          Ret (Raise (SystemExit 1))).

(** "Connect to the database" *)
Definition connect_tree (username password : string) : proc unit :=
  proc_try
    (invoke (SetConnection (bolt_url username password)))
    is_ServiceUnavailable
    (λ _, invoke (StderrWrite unavailable_message)).

Definition create_node_1_tree : proc unit :=
  proc_try
    (invoke (Save (new_entity (VStr non_problematic_payload)));; mret tt)
    is_DatabaseError
    (λ _, invoke (StderrWrite node_1_message)).

Definition create_node_tree (expression : proc pyvalue) : proc unit :=
  proc_try
    (v ← expression; invoke (Save (new_entity v));; mret tt)
    is_DatabaseError
    (λ e, invoke (StderrWrite (exn_message e))).

(** [main.py] *)
Definition main_tree : proc unit :=
  '(username, password) ← get_credentials_tree;
  connect_tree username password;;
  create_node_1_tree;;
  create_node_tree (mret (VStr problematic_payload_1)).

(** [main_fix.py] *)
Definition main_fix_tree : proc unit :=
  '(username, password) ← get_credentials_tree;
  connect_tree username password;;
  create_node_1_tree;;
  create_node_tree
    (Ret (trim_string_at_unicode_boundaries problematic_payload_1
            MainFix.byte_limit));;
  create_node_tree
    (Ret (trim_string_at_unicode_boundaries problematic_payload_2
            MainFix.byte_limit)).

(** [main_file_based.py] *)
Definition main_file_based_tree : proc unit :=
  '(username, password) ← get_credentials_tree;
  connect_tree username password;;
  problematic_payload_1 ← invoke (OpenRead "testcase1.txt");
  problematic_payload_2 ← invoke (OpenRead "testcase2.txt");
  create_node_1_tree;;
  create_node_tree (mret (VStr problematic_payload_1)).

(** ** The protocol *)

(** Where a run stands: what it must do next. *)
Inductive phase : Type :=
| NeedUser
| NeedPassword (username : string)
| NeedConnection (username password : string)
| Saving (saves : nat)
| MustReport (message : string) (next : phase)
| Stopped.

(** The phase after a call: [ok] when it returned, [caught] when it
    raised an exception that the handler around it takes; any other
    exception ends the run. *)
Definition after_call {X} (r : outcome X) (catches : exn → bool)
    (ok : X → phase) (caught : exn → phase) : phase :=
  match r with
  | Ok x => ok x
  | Raise e => if catches e then caught e else Stopped
  | OutOfFuel => Stopped
  end.

(** The report a failed save asks for: the fixed message for the first
    node, the message of the server for the others. *)
Definition save_report (saves : nat) (e : exn) : string :=
  match saves with O => node_1_message | S _ => exn_message e end.

Definition protocol (ph : phase) (ev : event) : option phase :=
  match ph, ev with
  | NeedUser, EGetEnv key r =>
      if decide (key = "NEO4J_USERNAME") then
        Some (after_call r is_KeyError NeedPassword
                (λ _, MustReport credentials_message Stopped))
      else None
  | NeedPassword username, EGetEnv key r =>
      if decide (key = "NEO4J_PASSWORD") then
        Some (after_call r is_KeyError (NeedConnection username)
                (λ _, MustReport credentials_message Stopped))
      else None
  | NeedConnection username password, ESetConnection url r =>
      if decide (url = bolt_url username password) then
        Some (after_call r is_ServiceUnavailable (λ _, Saving 0)
                (λ _, MustReport unavailable_message (Saving 0)))
      else None
  | Saving O, EOpenRead name r =>
      Some (after_call r (λ _, false) (λ _, Saving 0) (λ _, Stopped))
  | Saving saves, ESave e r =>
      Some (after_call r is_DatabaseError (λ _, Saving (S saves))
              (λ x, MustReport (save_report saves x) (Saving (S saves))))
  | MustReport message next, EStderrWrite s r =>
      if decide (s = message) then
        Some (after_call r (λ _, false) (λ _, next) (λ _, Stopped))
      else None
  | _, _ => None
  end.

(** The monitor: the phase after a sequence of events, when each was
    allowed. *)
Fixpoint monitor (ph : phase) (l : list event) : option phase :=
  match l with
  | [] => Some ph
  | ev :: l' => ph' ← protocol ph ev; monitor ph' l'
  end.

(** How a run may end: normally, after [n] saves or more, with no
    report due; or with an exception, stopped. *)
Definition ends {A} (n : nat) (ph : phase) (r : outcome A) : Prop :=
  match r with
  | Ok _ => ∃ saves, ph = Saving saves ∧ (n ≤ saves)%nat
  | _ => ph = Stopped
  end.

(** The tree [p] follows the protocol from the phase [ph], whatever the
    calls answer, and ends in a phase and with an outcome that satisfy
    [Q]. *)
Fixpoint follows {A} (ph : phase) (p : proc A)
    (Q : phase → outcome A → Prop) : Prop :=
  match p with
  | Ret r => Q ph r
  | Do o k =>
      ∀ r, ∃ ph', protocol ph (event_of o r) = Some ph' ∧ follows ph' (k r) Q
  end.

(** The scripts a claim speaks of: the tree, the program, and a bound on
    the number of calls and on the number of saves of a normal run. *)
Definition the_trees {DB} `{!Persistence DB}
    : list (proc unit * prog DB unit * nat * nat) :=
  [(main_tree, Main.main, 9%nat, 2%nat);
   (main_fix_tree, MainFix.main, 11%nat, 3%nat);
   (main_file_based_tree, MainFileBased.main, 11%nat, 2%nat)].

#[local] Opaque trim_string_at_unicode_boundaries non_problematic_payload
  problematic_payload_1 problematic_payload_2.

(** ** Following the protocol *)

(** A block that leads from one phase to the next: to [next a] when it
    returns [a], to [Stopped] when it does not return. *)
Definition leads_to {A} (next : A → phase) : phase → outcome A → Prop :=
  λ ph r, match r with Ok a => ph = next a | _ => ph = Stopped end.

Section Follows.
Context {A : Type}.
Implicit Types (p m : proc A) (Q : phase → outcome A → Prop).

Lemma follows_mono ph p Q Q' :
  (∀ ph' r, Q ph' r → Q' ph' r) → follows ph p Q → follows ph p Q'.
Proof.
  intros HQ. revert ph. induction p as [r|X o k IH]; intros ph; simpl;
    [apply HQ|].
  intros Hp r. destruct (Hp r) as (ph' & ? & ?). exists ph'. eauto.
Qed.

Lemma follows_bind {B} ph m (k : A → proc B) (Q : phase → outcome B → Prop) :
  follows ph m (λ ph' r,
    match r with
    | Ok a => follows ph' (k a) Q
    | Raise e => Q ph' (Raise e)
    | OutOfFuel => Q ph' OutOfFuel
    end) →
  follows ph (m ≫= k) Q.
Proof.
  revert ph. induction m as [[a|e|]|X o h IH]; intros ph; try done.
  intros Hm r. destruct (Hm r) as (ph' & ? & ?). exists ph'.
  split; [done|]. by apply IH.
Qed.

Lemma follows_try ph m (catches : exn → bool) h Q :
  follows ph m (λ ph' r,
    match r with
    | Raise e => if catches e then follows ph' (h e) Q else Q ph' r
    | _ => Q ph' r
    end) →
  follows ph (proc_try m catches h) Q.
Proof.
  revert ph. induction m as [[a|e|]|X o k IH]; intros ph; try done.
  - simpl. by destruct (catches e).
  - intros Hm r. destruct (Hm r) as (ph' & ? & ?). exists ph'.
    split; [done|]. by apply IH.
Qed.

(** A run of a tree that follows the protocol is accepted by the
    monitor, and ends as the tree promises. *)
Lemma follows_sound `{!Persistence DB} ph p Q (w : world DB) :
  follows ph p Q →
  ∃ ph', monitor ph (trace_of p w) = Some ph' ∧ Q ph' (interp p w).1.
Proof.
  revert ph w. induction p as [r|X o k IH]; intros ph w; simpl; [eauto|].
  intros Hp. destruct (perform o w) as [r w'].
  destruct (Hp r) as (ph1 & Hph1 & Hk). simpl. rewrite Hph1. simpl.
  by apply IH.
Qed.
End Follows.

(** One call: the phase after it as the protocol gives it. *)
Lemma follows_invoke {X} ph (o : op X) catches ok caught
    (Q : phase → outcome X → Prop) :
  (∀ r, protocol ph (event_of o r) = Some (after_call r catches ok caught)) →
  (∀ r, Q (after_call r catches ok caught) r) →
  follows ph (invoke o) Q.
Proof.
  intros Hph HQ. simpl. intros r. eexists. split; [apply Hph|apply HQ].
Qed.

(** A block and what comes after it. *)
Lemma follows_bind_leads {A B} ph (m : proc A) next (k : A → proc B)
    (Q : phase → outcome B → Prop) :
  follows ph m (leads_to next) → (∀ a, follows (next a) (k a) Q) →
  (∀ e, Q Stopped (Raise e)) → Q Stopped OutOfFuel →
  follows ph (m ≫= k) Q.
Proof.
  intros Hm Hk He Hf. apply follows_bind. eapply follows_mono; [|exact Hm].
  intros ph' [a|e|]; simpl; intros ->; auto.
Qed.

(** Follow a tree along its sequences and handlers, call by call. *)
Ltac follows_call :=
  eapply follows_invoke;
    [intros ?; cbn [protocol event_of]; rewrite ?decide_True by done;
     reflexivity|].
Ltac follows_step :=
  match goal with
  | |- follows _ (proc_try _ _ _) _ => apply follows_try
  | |- follows _ (invoke _) _ => follows_call
  | |- follows _ (_ ≫= _) _ => apply follows_bind
  | |- follows _ (mret _) _ => cbn [follows mret proc_ret]
  | |- follows _ (Ret _) _ => cbn [follows]
  | |- ∀ r : outcome _, _ => intros [?|?|]; cbn [after_call]
  | |- context [if ?c ?e then _ else _] => destruct (c e) eqn:?
  | |- leads_to _ _ _ => by unfold leads_to
  end.
Ltac solve_follows := repeat follows_step.

(** ** The blocks follow the protocol *)

Lemma get_credentials_follows :
  follows NeedUser get_credentials_tree
    (leads_to (λ '(username, password), NeedConnection username password)).
Proof. unfold get_credentials_tree. solve_follows. Qed.

Lemma connect_follows username password :
  follows (NeedConnection username password)
    (connect_tree username password) (leads_to (λ _, Saving 0)).
Proof. unfold connect_tree. solve_follows. Qed.

Lemma open_read_follows name :
  follows (Saving 0) (invoke (OpenRead name)) (leads_to (λ _, Saving 0)).
Proof. solve_follows. Qed.

Lemma create_node_1_follows :
  follows (Saving 0) create_node_1_tree (leads_to (λ _, Saving 1)).
Proof. unfold create_node_1_tree. solve_follows. Qed.

Lemma create_node_follows n v :
  follows (Saving (S n)) (create_node_tree (mret v))
    (leads_to (λ _, Saving (S (S n)))).
Proof. unfold create_node_tree. solve_follows. Qed.

(** The last block of a script: the run ends with [S (S n)] saves. *)
Lemma last_node_follows n v :
  follows (Saving (S n)) (create_node_tree (mret v)) (ends (S (S n))).
Proof.
  eapply follows_mono; [|apply create_node_follows].
  intros ph [[]|e|]; simpl; [|done..]. intros ->. eauto.
Qed.

Lemma preamble_follows (k : proc unit) n :
  follows (Saving 1) k (ends n) →
  follows NeedUser
    ('(username, password) ← get_credentials_tree;
     connect_tree username password;; create_node_1_tree;; k) (ends n).
Proof.
  intros Hk.
  eapply follows_bind_leads; [apply get_credentials_follows| |done..].
  intros [u p].
  eapply follows_bind_leads; [apply connect_follows| |done..]. intros [].
  eapply follows_bind_leads; [apply create_node_1_follows| |done..].
  by intros [].
Qed.

Lemma main_follows : follows NeedUser main_tree (ends 2).
Proof. apply preamble_follows, last_node_follows. Qed.

Lemma main_fix_follows : follows NeedUser main_fix_tree (ends 3).
Proof.
  unfold main_fix_tree.
  destruct trimmed_payloads_agree as (t & -> & -> & _).
  apply preamble_follows.
  eapply follows_bind_leads; [apply (create_node_follows 0)| |done..].
  intros []. apply last_node_follows.
Qed.

Lemma main_file_based_follows : follows NeedUser main_file_based_tree (ends 2).
Proof.
  unfold main_file_based_tree.
  eapply follows_bind_leads; [apply get_credentials_follows| |done..].
  intros [u p].
  eapply follows_bind_leads; [apply connect_follows| |done..]. intros [].
  eapply follows_bind_leads; [apply open_read_follows| |done..]. intros p1.
  eapply follows_bind_leads; [apply open_read_follows| |done..]. intros p2.
  eapply follows_bind_leads; [apply create_node_1_follows| |done..].
  intros []. apply last_node_follows.
Qed.

(** ** The scripts, call by call *)

(** The blocks of a tree against the blocks of a program. *)
Ltac solve_blocks :=
  unfold get_credentials_tree, connect_tree, create_node_1_tree,
    create_node_tree, get_credentials, connect, create_node_1, create_node;
  solve_denotes.

Section TraceTheorems.
Context {DB : Type} `{!Persistence DB}.
Implicit Types (w : world DB).

(** Each tree is its program, makes no more calls than counted, and
    follows the protocol. *)
Lemma the_trees_spec :
  Forall (λ '(p, main, n, saves),
            denotes p main ∧ within n p ∧ follows NeedUser p (ends saves))
    (the_trees (DB := DB)).
Proof.
  repeat apply Forall_cons_2; [..|constructor]; split_and!;
    try apply main_follows; try apply main_fix_follows;
    try apply main_file_based_follows.
  - unfold main_tree, Main.main, Main.node_2. solve_blocks.
  - unfold main_tree, get_credentials_tree, connect_tree, create_node_1_tree,
      create_node_tree. solve_within.
  - unfold main_fix_tree, MainFix.main, MainFix.node_2, MainFix.node_3.
    solve_blocks.
  - unfold main_fix_tree, get_credentials_tree, connect_tree,
      create_node_1_tree, create_node_tree. solve_within.
  - unfold main_file_based_tree, MainFileBased.main, MainFileBased.node_2.
    solve_blocks.
  - unfold main_file_based_tree, get_credentials_tree, connect_tree,
      create_node_1_tree, create_node_tree. solve_within.
Qed.

(** C21 (safety).  The calls of each script follow the protocol,
    whatever the state and whatever the calls answer: the user name is
    read, then the password, then the connection is set with the URL
    made of the two, and only then files are read and nodes saved; no
    file is read after a save; a failure that a handler takes is
    reported by the very next call, with the message of that handler;
    after any other failure no call is made.  A run that ends normally
    has made its two saves (three for [main_fix.py]). *)
Theorem scripts_follow_the_protocol w :
  Forall (λ '(p, main, _, saves),
            ∃ ph, monitor NeedUser (trace_of p w) = Some ph ∧
                  ends saves ph (main w).1)
    the_trees.
Proof.
  eapply Forall_impl; [apply the_trees_spec|].
  intros [[[p main] n] saves] (Hp & _ & Hf). rewrite <- Hp.
  by apply follows_sound.
Qed.


End TraceTheorems.

(** ** The calls of [main_fix.py] on the two servers *)

Lemma main_fix_tree_denotes {DB : Type} `{!Persistence DB} :
  denotes (DB := DB) main_fix_tree MainFix.main.
Proof.
  pose proof (the_trees_spec (DB := DB)) as H. unfold the_trees in H.
  by apply Forall_cons in H as [_ [(? & _) _]%Forall_cons].
Qed.

(** C40 (refinement).  On the payloads of [main_fix.py] the server with
    the defect refines the reference service: from states that agree,
    with the index readable, the script makes the same calls on both and
    gets the same answers, in the same order; it ends with the same
    outcome, the same error stream and the same log of calls, and leaves
    states that agree, the index still readable. *)
Theorem main_fix_runs_as_on_the_reference_service
    (w1 : world neo_db) (w2 : world ref_db) :
  world_sim neo_sim w1 w2 →
  trace_of main_fix_tree w1 = trace_of main_fix_tree w2 ∧
  (MainFix.main w1).1 = (MainFix.main w2).1 ∧
  world_sim neo_sim (MainFix.main w1).2 (MainFix.main w2).2.
Proof.
  intros Hw. split.
  - apply (trace_of_simulates neo_sim safe_payload _ _ _ Hw).
    apply (denotes_emits _ MainFix.main); [apply main_fix_tree_denotes|].
    apply (main_fix_saves safe_payload first_payload_is_safe).
    intros p v _. apply trimmed_is_safe.
  - revert w1 w2 Hw.
    apply (main_fix_simulates neo_sim safe_payload first_payload_is_safe).
    apply trimmed_is_safe.
Qed.

(** ** Witnesses *)

Lemma main_fix_runs_as_on_the_reference_service_witness :
  trace_of main_fix_tree (neo_world neo_fresh)
    = trace_of main_fix_tree (fresh_world 4095) ∧
  (MainFix.main (neo_world neo_fresh)).1 = (MainFix.main (fresh_world 4095)).1 ∧
  world_sim neo_sim (MainFix.main (neo_world neo_fresh)).2
    (MainFix.main (fresh_world 4095)).2.
Proof.
  apply (main_fix_runs_as_on_the_reference_service
           (neo_world neo_fresh) (fresh_world 4095)).
  repeat split. constructor.
Defined.
